(** * QENEX Coin: the ledger core of kernel/cryptocurrency/qenex_coin.c

    A shallow embedding of the hash chain, the improvement verification
    gate, the reward policy, the mining engine and the transaction ledger,
    together with the completion bonus of
    kernel/distributed_training/continuous_trainer.c.

    Modelling conventions.
    - A C [double] is a real number ([R]): rounding, infinities and NaN are
      outside the model.  [log10] is [ln x / ln 10]; the C function is only
      defined for positive arguments and the theorems below only rely on it
      there.
    - [uint32_t] and [uint64_t] are integers in [Z], wrapped with [u32] and
      [u64] wherever the C code increments or subtracts them.
    - NUL-terminated [char] buffers are [string]s; [strcmp(a, b) == 0] is
      [String.eqb].  A [strcpy] whose source fits its destination is an
      assignment.  The one destination the ledger overruns is the 64-byte
      [developer_id] of a block, which mine_block fills from a 65-byte
      [address]: there the layout of the struct is followed
      ([strcpy_developer_id]).
    - The doubly linked list of blocks hanging off [blockchain_head] is a
      [list block_t], head first; [blockchain_tail] is its last element.
    - [time(NULL)] is an explicit argument [now].
    - The proof-of-work [while (1)] loop takes a fuel argument. *)

From Stdlib Require Import Reals Lra Lia ZArith List String Ascii Bool.
From Stdlib Require Import DecimalString.
Import ListNotations.

Open Scope string_scope.
Open Scope list_scope.
Open Scope Z_scope.
Open Scope R_scope.

(** ** Machine integers and comparisons on doubles *)

Definition u32 (z : Z) : Z := (z mod 2 ^ 32)%Z.
Definition u64 (z : Z) : Z := (z mod 2 ^ 64)%Z.

(** [x < y] on doubles, as a boolean. *)
Definition Rltb (x y : R) : bool := if Rlt_dec x y then true else false.

(** [x > y] on doubles. *)
Definition Rgtb (x y : R) : bool := Rltb y x.

Definition log10 (x : R) : R := ln x / ln 10.

(** ** qenex_coin.h: constants *)

Definition DIFFICULTY_ADJUSTMENT_INTERVAL : Z := 100.
Definition INITIAL_REWARD : R := 100.
Definition HALVING_INTERVAL : Z := 210000.
Definition MAX_SUPPLY : R := 21000000.
Definition TRANSACTION_FEE : R := 0.001.

(** ** qenex_coin.h: [mining_type_t]

    A C enum is an [int]; [mine_block] leaves the field at the zero that
    [calloc] wrote, which is none of the enumerators, so the type is kept
    as an integer code. *)

Definition mining_type_t : Type := Z.
Definition MINING_TYPE_MODEL_ACCURACY : mining_type_t := 1%Z.
Definition MINING_TYPE_TRAINING_SPEED : mining_type_t := 2%Z.
Definition MINING_TYPE_RESOURCE_OPTIMIZE : mining_type_t := 3%Z.
Definition MINING_TYPE_ALGORITHM_IMPROVE : mining_type_t := 4%Z.
Definition MINING_TYPE_KERNEL_ENHANCE : mining_type_t := 5%Z.
Definition MINING_TYPE_QUANTUM_INTEGRATE : mining_type_t := 6%Z.
Definition MINING_TYPE_SECURITY_PATCH : mining_type_t := 7%Z.
Definition MINING_TYPE_PERFORMANCE_BOOST : mining_type_t := 8%Z.

(** ** qenex_coin.h: records *)

Record ai_contribution_t : Type := mk_ai_contribution {
  contribution_type : mining_type_t;
  contribution_score : R;
  ai_model_ref : string
}.

Record transaction_t : Type := mk_transaction {
  tx_id : string;
  sender : string;
  receiver : string;
  amount : R;
  fee : R;
  tx_timestamp : Z;
  signature : string;
  ai_contribution : ai_contribution_t
}.

Record ai_mining_data_t : Type := mk_ai_mining_data {
  mining_type : mining_type_t;
  improvement_metric : R;
  developer_id : string;
  model_hash : string;
  reward_amount : R
}.

(** [transactions] with [tx_count] is the list; [next] and [prev] are the
    position in the chain. *)
Record block_t : Type := mk_block {
  index : Z;
  timestamp : Z;
  prev_hash : string;
  hash : string;
  nonce : Z;
  difficulty : Z;
  ai_mining_data : ai_mining_data_t;
  transactions : list transaction_t
}.

Record mining_stats_t : Type := mk_mining_stats {
  total_contributions : Z;
  total_mined : R;
  accuracy_improvements : R;
  speed_improvements : R;
  models_improved : Z;
  algorithms_created : Z
}.

Record wallet_t : Type := mk_wallet {
  address : string;
  public_key : string;
  private_key : string;
  balance : R;
  mining_stats : mining_stats_t
}.

Record verification_metrics_t : Type := mk_metrics {
  test_samples : Z;
  validation_loss : R;
  f1_score : R;
  precision : R;
  recall : R;
  verification_time : Z
}.

Record consensus_t : Type := mk_consensus {
  verifying_nodes : Z;
  confirmations : Z;
  consensus_score : R
}.

Record ai_verification_t : Type := mk_ai_verification {
  model_id : string;
  baseline_accuracy : R;
  improved_accuracy : R;
  improvement_percentage : R;
  metrics : verification_metrics_t;
  consensus : consensus_t
}.

(** The globals [blockchain_head]/[blockchain_tail], [blockchain_height]
    and [total_supply]. *)
Record chain_state : Type := mk_chain_state {
  blockchain : list block_t;
  blockchain_height : Z;
  total_supply : R
}.

(** ** verify_ai_improvement (qenex_coin.c:157)

    The C function returns 0 or 1; [false] is 0. *)
Definition verify_ai_improvement (verification : ai_verification_t) : bool :=
  if Rltb (improvement_percentage verification) 1.0 then false
  else if (confirmations (consensus verification) <? 3)%Z then false
  else if Rltb (consensus_score (consensus verification)) 0.75 then false
  else if Rltb (f1_score (metrics verification)) 0.5 then false
  else true.

(** ** calculate_mining_reward (qenex_coin.c:182) *)

(** [for (i = 0; i < halvings; i++) base_reward /= 2.0;] *)
Fixpoint halving_loop (halvings : nat) (base_reward : R) : R :=
  match halvings with
  | O => base_reward
  | S n => halving_loop n (base_reward / 2.0)
  end.

(** The [switch (type)]; a value that is no enumerator keeps the initial
    [1.0]. *)
Definition type_multiplier (type : mining_type_t) : R :=
  match type with
  | 6%Z => 3.0
  | 4%Z => 2.5
  | 1%Z => 2.0
  | 5%Z => 1.8
  | 2%Z => 1.5
  | 7%Z => 1.5
  | 8%Z => 1.3
  | 3%Z => 1.2
  | _ => 1.0
  end.

Definition calculate_mining_reward
    (s : chain_state) (type : mining_type_t) (improvement : R) : R :=
  let base_reward := INITIAL_REWARD in
  let halvings := (blockchain_height s / HALVING_INTERVAL)%Z in
  let base_reward := halving_loop (Z.to_nat halvings) base_reward in
  let improvement_multiplier := 1.0 + log10 (1.0 + improvement / 10.0) in
  let final_reward :=
    base_reward * type_multiplier type * improvement_multiplier in
  if Rgtb (total_supply s + final_reward) MAX_SUPPLY
  then MAX_SUPPLY - total_supply s
  else final_reward.

(** ** Record updates used by the C assignments *)

Definition set_hash (b : block_t) (h : string) : block_t :=
  mk_block (index b) (timestamp b) (prev_hash b) h (nonce b) (difficulty b)
           (ai_mining_data b) (transactions b).

Definition set_nonce (b : block_t) (n : Z) : block_t :=
  mk_block (index b) (timestamp b) (prev_hash b) (hash b) n (difficulty b)
           (ai_mining_data b) (transactions b).

Definition set_balance (w : wallet_t) (x : R) : wallet_t :=
  mk_wallet (address w) (public_key w) (private_key w) x (mining_stats w).

(** ** The claimant of a mined block in memory

    In [block_t] the member [char developer_id[64]] is directly followed
    by [char model_hash[65]]: arrays of [char] need no padding.
    mine_block fills the two with

      strcpy(new_block->ai_mining_data.developer_id, miner->address);
      strcpy(new_block->ai_mining_data.model_hash, ai_proof->model_id);

    (qenex_coin.c:103-104).  An address shorter than 64 characters fits
    with its NUL.  From the 64th character on, the first [strcpy] runs
    over into [model_hash]: an address of 64 characters, which is what
    create_wallet makes, puts its NUL into [model_hash[0]].  The second
    [strcpy] then writes the model identifier and its NUL from
    [model_hash[0]] on, so the 64 bytes of [developer_id] hold no NUL
    any more and every later reader of [developer_id] as a string
    (["%s"] in calculate_block_hash, [strcmp] in get_wallet_balance)
    reads on through [model_hash].  [model_hash] itself reads as the
    model identifier, which comes from a 65-byte field and fits. *)

Definition DEVELOPER_ID_SIZE : nat := 64.

Definition strcpy_developer_id (addr model : string) : string :=
  if (String.length addr <? DEVELOPER_ID_SIZE)%nat then addr
  else (substring 0 DEVELOPER_ID_SIZE addr ++ model)%string.

(** ** Stand-ins for the digest, used by the concrete examples *)

(** A digest that maps every message to 64 zero digits: every nonce
    meets every difficulty up to 64. *)
Definition zero_digest (_ : string) : string :=
  "0000000000000000000000000000000000000000000000000000000000000000".

(** A rendering of ["%f"] that keeps no digit. *)
Definition blank_fmt (_ : R) : string := "".

(** ** Concrete inputs used by the examples *)

(** The claim of the specification's example: improvement 10%, three
    confirmations, consensus score 0.8, F1 0.6. *)
Definition sample_proof : ai_verification_t :=
  mk_ai_verification "model" 0.5 0.6 10
    (mk_metrics 1000 0.4 0.6 0.7 0.7 0)
    (mk_consensus 5 3 0.8).

(** The specification's rejected example: two confirmations, with
    improvement 50%, consensus score 0.95 and F1 0.9. *)
Definition two_confirmations_proof : ai_verification_t :=
  mk_ai_verification "model" 0.5 0.9 50
    (mk_metrics 1000 0.4 0.9 0.9 0.9 0)
    (mk_consensus 5 2 0.95).

Definition sample_wallet : wallet_t :=
  mk_wallet "miner" "" "" 0 (mk_mining_stats 0 0 0 0 0 0).

(** A transfer of 1 coin, fee 0.001, out of the genesis claimant. *)
Definition sample_transfer : transaction_t :=
  mk_transaction "tx" "QENEX_FOUNDATION" "bob" 1 0.001 0 ""
    (mk_ai_contribution 0%Z 0 "").

(** ** memcmp (libc), on the bytes of two buffers

    Bytes past the end of a string read as NUL, which is what the
    [calloc]ed block holds right after the 64 digits of [hash]. *)
Fixpoint memcmp (s1 s2 : string) (n : nat) : Z :=
  match n with
  | O => 0%Z
  | S n' =>
      let (c1, r1) := match s1 with
                      | EmptyString => (zero, EmptyString)
                      | String c r => (c, r)
                      end in
      let (c2, r2) := match s2 with
                      | EmptyString => (zero, EmptyString)
                      | String c r => (c, r)
                      end in
      if (N_of_ascii c1 <? N_of_ascii c2)%N then (-1)%Z
      else if (N_of_ascii c2 <? N_of_ascii c1)%N then 1%Z
      else memcmp r1 r2 n'
  end.

(** [memset(target, '0', n); target[n] = '\0';] *)
Fixpoint zero_target (n : nat) : string :=
  match n with
  | O => EmptyString
  | S n' => String "0"%char (zero_target n')
  end.

(** ** Balance derivation: get_wallet_balance (qenex_coin.c:442) *)

(** The inner [for] loop over [current->transactions]. *)
Fixpoint scan_transactions
    (txs : list transaction_t) (addr : string) (bal : R) : R :=
  match txs with
  | [] => bal
  | tx :: rest =>
      let bal := if String.eqb (receiver tx) addr
                 then bal + amount tx else bal in
      let bal := if String.eqb (sender tx) addr
                 then bal - (amount tx + fee tx) else bal in
      scan_transactions rest addr bal
  end.

(** The outer [while (current)] loop. *)
Fixpoint scan_blocks (chain : list block_t) (addr : string) (bal : R) : R :=
  match chain with
  | [] => bal
  | current :: rest =>
      let bal := if String.eqb (developer_id (ai_mining_data current)) addr
                 then bal + reward_amount (ai_mining_data current)
                 else bal in
      let bal := scan_transactions (transactions current) addr bal in
      scan_blocks rest addr bal
  end.

Definition get_wallet_balance (chain : list block_t) (addr : string) : R :=
  scan_blocks chain addr 0.0.

(** ** The balance as the specification words it

    Three sums over the whole chain: reward credits by claimant, transfer
    credits by receiver, transfer debits (amount plus fee) by sender. *)

Fixpoint Rsum (l : list R) : R :=
  match l with
  | [] => 0
  | x :: rest => x + Rsum rest
  end.

Definition all_transactions (chain : list block_t) : list transaction_t :=
  flat_map transactions chain.

Definition reward_credits (chain : list block_t) (addr : string) : R :=
  Rsum (map (fun b => reward_amount (ai_mining_data b))
            (filter (fun b => String.eqb (developer_id (ai_mining_data b)) addr)
                    chain)).

Definition transfer_credits (chain : list block_t) (addr : string) : R :=
  Rsum (map amount
            (filter (fun tx => String.eqb (receiver tx) addr)
                    (all_transactions chain))).

Definition transfer_debits (chain : list block_t) (addr : string) : R :=
  Rsum (map (fun tx => amount tx + fee tx)
            (filter (fun tx => String.eqb (sender tx) addr)
                    (all_transactions chain))).

Definition spec_balance (chain : list block_t) (addr : string) : R :=
  reward_credits chain addr + transfer_credits chain addr
  - transfer_debits chain addr.

(** ** The reward as the specification words it (section 4.3) *)

Definition spec_base (height : Z) : R :=
  INITIAL_REWARD / 2 ^ Z.to_nat (height / HALVING_INTERVAL).

Definition spec_improvement_factor (improvement : R) : R :=
  1 + log10 (1 + improvement / 10).

Definition spec_unclamped_reward
    (type : mining_type_t) (improvement : R) (height : Z) : R :=
  spec_base height * type_multiplier type * spec_improvement_factor improvement.

(** Clamping so that [supply + reward <= MAX_SUPPLY]. *)
Definition spec_clamp (supply reward : R) : R :=
  Rmin reward (MAX_SUPPLY - supply).

(** ** continuous_trainer.c: the part of a training node the ledger sees *)

Record training_task_t : Type := mk_training_task {
  task_model_id : string;
  current_epoch : Z;
  total_epochs : Z;
  loss : R;
  accuracy : R;
  start_time : Z;
  samples_processed : Z
}.

Record training_node_t : Type := mk_training_node {
  node_id : string;
  task : training_task_t;
  wallet : wallet_t;
  mining_contribution : R;
  blocks_contributed : Z
}.

(** finalize_training (continuous_trainer.c:378): besides printing, it
    adds the completion bonus to the cached balance of the node's wallet. *)
Definition finalize_training (node : training_node_t) : training_node_t :=
  let completion_bonus := 0.1 in
  mk_training_node (node_id node) (task node)
    (set_balance (wallet node) (balance (wallet node) + completion_bonus))
    (mining_contribution node) (blocks_contributed node).

(** ** qenex_coin.h: the mining pool *)

(** [x <= y] on doubles. *)
Definition Rleb (x y : R) : bool := if Rle_dec x y then true else false.

Record pool_training_metrics_t : Type := mk_pool_training_metrics {
  pm_active_nodes : Z;
  pm_total_flops : R;
  pm_models_trained : Z;
  pm_average_accuracy : R;
  pm_training_speed_tps : R
}.

Record pool_rewards_t : Type := mk_pool_rewards {
  pool_balance : R;
  pending_rewards : R;
  payout_interval : Z
}.

Record mining_pool_t : Type := mk_mining_pool {
  pool_id : string;
  active_miners : Z;
  total_hashrate : R;
  training_metrics : pool_training_metrics_t;
  rewards : pool_rewards_t
}.

(** ** continuous_trainer.c: the registry, the repository, the metrics *)

Definition MAX_TRAINING_NODES : Z := 1000.
Definition TRAINING_PORT : Z := 9547.

Definition u16 (z : Z) : Z := (z mod 2 ^ 16)%Z.

Record node_resources_t : Type := mk_node_resources {
  cpu_cores : Z;
  gpu_count : Z;
  memory_gb : Z;
  tflops : R;
  current_utilization : R
}.

(** One element of [training_system.nodes]: the fields of the C
    [training_node_t] that the ledger does not see, around the ones it
    does. *)
Record node_slot_t : Type := mk_node_slot {
  active : Z;
  ip_address : string;
  port : Z;
  resources : node_resources_t;
  slot_node : training_node_t
}.

Record training_metrics_t : Type := mk_training_metrics {
  total_improvements : Z;
  cumulative_accuracy_gain : R;
  total_epochs_trained : Z;
  total_qxc_mined : R
}.

(** [training_system]: the node array, the active count, the model
    repository ([models] and [best_accuracies] side by side, [model_count]
    entries, capacity 100) and the metrics. *)
Record training_system_t : Type := mk_training_system {
  nodes : list node_slot_t;
  active_nodes : Z;
  repository : list (string * R);
  system_metrics : training_metrics_t
}.

Definition REPOSITORY_CAPACITY : nat := 100.

Definition set_task (n : training_node_t) (t : training_task_t)
    : training_node_t :=
  mk_training_node (node_id n) t (wallet n) (mining_contribution n)
                   (blocks_contributed n).

Definition set_slot_node (slot : node_slot_t) (n : training_node_t)
    : node_slot_t :=
  mk_node_slot (active slot) (ip_address slot) (port slot) (resources slot) n.

Definition set_repository (ts : training_system_t) (repo : list (string * R))
    : training_system_t :=
  mk_training_system (nodes ts) (active_nodes ts) repo (system_metrics ts).

(** The first [i] with [strcmp(models[i], model) == 0]. *)
Fixpoint find_model (repo : list (string * R)) (model : string) : option nat :=
  match repo with
  | [] => None
  | (m, _) :: rest =>
      if String.eqb m model then Some O
      else option_map S (find_model rest model)
  end.

(** [best_accuracies[idx]]. *)
Definition best_accuracy (repo : list (string * R)) (idx : nat) : R :=
  nth idx (map snd repo) 0.

(** [best_accuracies[idx] = x]. *)
Fixpoint set_best_accuracy (repo : list (string * R)) (idx : nat) (x : R)
    : list (string * R) :=
  match repo, idx with
  | [], _ => []
  | (m, _) :: rest, O => (m, x) :: rest
  | e :: rest, S i => e :: set_best_accuracy rest i x
  end.

(** The first slot with [!nodes[i].active], with its position. *)
Fixpoint first_inactive (slots : list node_slot_t) (i : nat) : option nat :=
  match slots with
  | [] => None
  | slot :: rest =>
      if (active slot =? 0)%Z then Some i else first_inactive rest (S i)
  end.

(** [nodes[i] = slot]. *)
Fixpoint set_slot (slots : list node_slot_t) (i : nat) (slot : node_slot_t)
    : list node_slot_t :=
  match slots, i with
  | [], _ => []
  | _ :: rest, O => slot :: rest
  | e :: rest, S i' => e :: set_slot rest i' slot
  end.

(** A registry of [n] slots as static storage starts: zeroed. *)
Definition zero_slot : node_slot_t :=
  mk_node_slot 0 "" 0 (mk_node_resources 0 0 0 0 0)
    (mk_training_node "" (mk_training_task "" 0 0 0 0 0 0)
       (mk_wallet "" "" "" 0 (mk_mining_stats 0 0 0 0 0 0)) 0 0).

(** ** Outcomes *)

(** What [mine_block] does: return [NULL] after a failed verification,
    dereference a null [blockchain_tail] (before [qxc_init]), still be
    searching when the fuel runs out, or return the appended block, with
    the globals and the miner's wallet as it leaves them. *)
Inductive mine_result : Type :=
| MineRejected
| MineNoTail
| MineSearching
| Mined (b : block_t) (s' : chain_state) (w' : wallet_t).

(** What [verify_blockchain_integrity] reports: the line it prints with
    the index it names, and with it the value returned ([return_code]). *)
Inductive integrity_report : Type :=
| HashMismatchAt (idx : Z)
| InvalidHashAt (idx : Z)
| ChainVerified (verified_blocks : Z).

Definition return_code (r : integrity_report) : Z :=
  match r with
  | ChainVerified _ => 1%Z
  | _ => 0%Z
  end.

(** The last element of the list: [blockchain_tail]. *)
Fixpoint tail_block (chain : list block_t) : option block_t :=
  match chain with
  | [] => None
  | [b] => Some b
  | _ :: rest => tail_block rest
  end.

(** [for (i = 0; i < n && p->prev; i++) p = p->prev;] with the
    predecessors of [p] listed nearest first. *)
Fixpoint walk_prev (n : nat) (p : block_t) (before : list block_t) : block_t :=
  match n, before with
  | S n', q :: before' => walk_prev n' q before'
  | _, _ => p
  end.

(** ** Further concrete inputs used by the examples *)

(** An address derivation that keeps the owner identifier. *)
Definition plain_address (owner : string) : string := owner.


Definition sample_task : training_task_t :=
  mk_training_task "mlp_classifier_0" 0 50 10 0 0 0.

Definition sample_node : training_node_t :=
  mk_training_node "node" sample_task sample_wallet 0 0.

(** A node ten epochs into its task, at accuracy 0.9. *)
Definition trained_node : training_node_t :=
  mk_training_node "node"
    (mk_training_task "mlp_classifier_0" 10 50 1 0.9 0 500000)
    sample_wallet 0 0.

(** An address as create_wallet leaves it: 64 hexadecimal digits. *)
Definition hex_address : string :=
  "3a7bd3e2360a3d29eea436fcfb7e44c735d117c42d1c1835420b6b9942dd4f1b".

Definition hex_wallet : wallet_t :=
  mk_wallet hex_address "" "" 0 (mk_mining_stats 0 0 0 0 0 0).

(** [trained_node] with a wallet of create_wallet's kind. *)
Definition hex_node : training_node_t :=
  mk_training_node "node"
    (mk_training_task "mlp_classifier_0" 10 50 1 0.9 0 500000)
    hex_wallet 0 0.

Definition sample_slot : node_slot_t :=
  mk_node_slot 1 "127.0.0.1" 9547 (mk_node_resources 8 0 32 10 0) sample_node.

(** A system that knows the model of [trained_node] at accuracy 0.5. *)
Definition sample_system (active : Z) : training_system_t :=
  mk_training_system [] active [("mlp_classifier_0", 0.5)]
    (mk_training_metrics 0 0 0 0).

Definition empty_registry : training_system_t :=
  mk_training_system (repeat zero_slot 1000) 0 [] (mk_training_metrics 0 0 0 0).

(** A pool of two miners with 10 coins pending. *)
Definition sample_pool : mining_pool_t :=
  mk_mining_pool "pool" 2 0 (mk_pool_training_metrics 0 0 0 0 0)
    (mk_pool_rewards 0 10 100).

(** A transfer of minus 5 coins, without fee, out of an address that
    owns nothing. *)
Definition negative_transfer : transaction_t :=
  mk_transaction "tx" "mallory" "bob" (-5) 0 0 ""
    (mk_ai_contribution 0%Z 0 "").

(** A block claimed by alice that carries [sample_transfer]. *)
Definition transfer_block : block_t :=
  mk_block 1 0 "" "" 0 4 (mk_ai_mining_data 0%Z 1 "alice" "" 50)
    [sample_transfer].

(** The value of [RAND_MAX] in the GNU C library. *)
Definition GLIBC_RAND_MAX : Z := 2147483647.

(** ** kernel_crypto_integration.c: the detectors that feed the miner *)

(** [x == y] on doubles. *)
Definition Reqb (x y : R) : bool := if Req_dec_T x y then true else false.

Record kernel_stats_t : Type := mk_kernel_stats {
  uptime_seconds : Z;
  blocks_mined : Z;
  improvements_made : Z;
  qxc_earned : R;
  active_processes : Z;
  cpu_efficiency : R;
  memory_efficiency : R
}.

(** detect_performance_improvement (kernel_crypto_integration.c:217).
    [baseline] is the function's static [baseline_performance]; the result
    is the return value, the static afterwards, and the caller's claim as
    the function leaves it. *)
Definition detect_performance_improvement
    (stats : kernel_stats_t) (baseline : R) (verification : ai_verification_t)
    : bool * R * ai_verification_t :=
  let current_performance := cpu_efficiency stats * memory_efficiency stats in
  if Reqb baseline 0.0 then (false, current_performance, verification)
  else
    let improvement :=
      (current_performance - baseline) / baseline * 100 in
    if Rgtb improvement 1.0 then
      (true, current_performance,
       mk_ai_verification "KERNEL_PERFORMANCE" baseline current_performance
         improvement
         (mk_metrics (active_processes stats) (1.0 / current_performance)
            current_performance (cpu_efficiency stats)
            (memory_efficiency stats) (uptime_seconds stats))
         (mk_consensus 5 3 0.9))
    else (false, baseline, verification).

(** detect_memory_optimization (kernel_crypto_integration.c:255).
    [memory_freed] is what [get_freed_memory_pages] returned and [prev]
    the static [prev_memory_freed], both [uint64_t]. *)
Definition detect_memory_optimization
    (memory_freed prev : Z) (verification : ai_verification_t)
    : bool * Z * ai_verification_t :=
  if (u64 (prev + 1000) <? memory_freed)%Z then
    let improvement := IZR (u64 (memory_freed - prev)) / 1000 * 10 in
    (true, memory_freed,
     mk_ai_verification "MEMORY_OPTIMIZER" 0.5 (0.5 + improvement / 100)
       improvement
       (mk_metrics (u32 memory_freed) 0.1 0.8 0.85 0.75
          (verification_time (metrics verification)))
       (mk_consensus 5 3 0.85))
  else (false, prev, verification).

(** detect_scheduler_improvement (kernel_crypto_integration.c:285).
    [scheduler_efficiency] is what [get_scheduler_efficiency] returned and
    [prev] the static [prev_scheduler_efficiency]. *)
Definition detect_scheduler_improvement
    (stats : kernel_stats_t) (scheduler_efficiency prev : R)
    (verification : ai_verification_t) : bool * R * ai_verification_t :=
  let improvement := scheduler_efficiency - prev in
  if Rgtb improvement 0.02 then
    (true, scheduler_efficiency,
     mk_ai_verification "SCHEDULER_AI" prev scheduler_efficiency
       (improvement * 100)
       (mk_metrics (active_processes stats) 0.05 scheduler_efficiency
          0.9 0.85 (verification_time (metrics verification)))
       (mk_consensus 5 3 0.88))
  else (false, prev, verification).

Definition sample_stats : kernel_stats_t :=
  mk_kernel_stats 60 0 0 0 10 0.9 0.8.

(** The test of the proof-of-work loop:
    [memcmp(hash, target, difficulty) <= 0]. *)
Definition meets_target (candidate : block_t) : bool :=
  let d := Z.to_nat (difficulty candidate) in
  (memcmp (hash candidate) (zero_target d) d <=? 0)%Z.

(** No byte of the string is below the character 0 (as in a string of
    hexadecimal digits). *)
Fixpoint no_byte_below_zero (h : string) : bool :=
  match h with
  | EmptyString => true
  | String c r => (48 <=? N_of_ascii c)%N && no_byte_below_zero r
  end.

(** The block index a failure report names. *)
Definition report_index (r : integrity_report) : option Z :=
  match r with
  | HashMismatchAt idx => Some idx
  | InvalidHashAt idx => Some idx
  | ChainVerified _ => None
  end.

(** The rewards embedded in the blocks of a chain. *)
Definition chain_rewards (chain : list block_t) : list R :=
  map (fun b => reward_amount (ai_mining_data b)) chain.

(** ** A run that exhausts the supply

    A claim of a 90% improvement: its improvement factor is
    [1 + log10 10 = 2], so that before the first halving a block of the
    default type is worth 200 coins. *)
Definition ninety_percent_proof : ai_verification_t :=
  mk_ai_verification "model" 0.05 0.95 90
    (mk_metrics 1000 0.1 0.9 0.9 0.9 0)
    (mk_consensus 5 3 0.8).

(** The state after [z] blocks mined one minute apart for that claim,
    on top of a genesis block of time 0; the blocks are listed newest
    first.  Every block has difficulty 4 and the supply is
    [100 + 200 * z], cut at the maximum supply. *)
Definition minute_chain (s : chain_state) (z : Z) : Prop :=
  exists t l,
    blockchain s = rev (t :: l) /\
    blockchain_height s = (z + 1)%Z /\
    Z.of_nat (List.length (t :: l)) = (z + 1)%Z /\
    (forall k b, nth_error (t :: l) k = Some b ->
                 timestamp b = (60 * (z - Z.of_nat k))%Z /\
                 difficulty b = 4%Z) /\
    total_supply s = Rmin MAX_SUPPLY (100 + 200 * IZR z).

Section Ledger.

(** SHA-256 of a message, rendered as 64 hexadecimal digits. *)
Variable SHA256_hex : string -> string.

(** [sprintf]'s ["%f"] rendering of a double. *)
Variable fmt_f : R -> string.

(** The address [create_wallet] derives from the owner identifier. *)
Variable derive_address : string -> string.

(** [verify_transaction_signature]: declared nowhere under the sources,
    a predicate on the transaction. *)
Variable verify_transaction_signature : transaction_t -> bool.

(** [record_ai_contribution]: not under the sources either; it acts on
    a store of its own. *)
Variable contribution_store : Type.
Variable record_ai_contribution :
  string -> ai_contribution_t -> contribution_store -> contribution_store.

(** ["%u"] and ["%lu"]. *)
Definition fmt_u (z : Z) : string :=
  NilZero.string_of_uint (N.to_uint (Z.to_N z)).

(** The [sprintf] of calculate_block_hash (qenex_coin.c:318). *)
Definition block_data (block : block_t) : string :=
  (fmt_u (index block) ++ fmt_u (timestamp block) ++ prev_hash block
   ++ fmt_u (nonce block)
   ++ fmt_f (improvement_metric (ai_mining_data block))
   ++ developer_id (ai_mining_data block)
   ++ fmt_f (reward_amount (ai_mining_data block)))%string.

(** calculate_block_hash (qenex_coin.c:316): overwrites [block->hash]. *)
Definition calculate_block_hash (block : block_t) : block_t :=
  set_hash block (SHA256_hex (block_data block)).

(** qxc_init (qenex_coin.c:31), up to the start of the training thread. *)
Definition genesis_block (now : Z) : block_t :=
  calculate_block_hash
    (mk_block 0 (u64 now) "0" "" 0 4
       (mk_ai_mining_data MINING_TYPE_KERNEL_ENHANCE 100.0
          "QENEX_FOUNDATION" "" INITIAL_REWARD)
       []).

Definition qxc_init (now : Z) : chain_state :=
  mk_chain_state [genesis_block now] 1 INITIAL_REWARD.

(** create_wallet (qenex_coin.c:60): a [calloc]ed wallet with its
    address filled in. *)
Definition create_wallet (owner : string) : wallet_t :=
  mk_wallet (derive_address owner) "" "" 0.0
    (mk_mining_stats 0 0.0 0 0 0 0).

(** calculate_difficulty (qenex_coin.c:337), given the tail block. *)
Definition calculate_difficulty (s : chain_state) (tail : block_t) : Z :=
  if negb (blockchain_height s mod DIFFICULTY_ADJUSTMENT_INTERVAL =? 0)%Z
  then difficulty tail
  else
    let prev_adjustment :=
      walk_prev (Z.to_nat (DIFFICULTY_ADJUSTMENT_INTERVAL - 1)) tail
                (List.tl (rev (blockchain s))) in
    let time_diff := u64 (timestamp tail - timestamp prev_adjustment) in
    let expected_time := (DIFFICULTY_ADJUSTMENT_INTERVAL * 60)%Z in
    let new_difficulty := difficulty tail in
    if (time_diff <? expected_time / 2)%Z then u32 (new_difficulty + 1)
    else if (expected_time * 2 <? time_diff)%Z then
      if (1 <? new_difficulty)%Z then (new_difficulty - 1)%Z
      else new_difficulty
    else new_difficulty.

(** The [while (1)] of mine_block (qenex_coin.c:119): set the nonce,
    hash, compare the first [difficulty] bytes with the target. *)
Fixpoint nonce_search (fuel : nat) (new_block : block_t) (n : Z)
    : option block_t :=
  match fuel with
  | O => None
  | S fuel' =>
      let candidate := calculate_block_hash (set_nonce new_block n) in
      let d := Z.to_nat (difficulty candidate) in
      if (memcmp (hash candidate) (zero_target d) d <=? 0)%Z
      then Some candidate
      else nonce_search fuel' candidate (u32 (n + 1))
  end.

(** The statistics update of mine_block (qenex_coin.c:136). *)
Definition credit_miner
    (miner : wallet_t) (ai_proof : ai_verification_t) (reward : R)
    : wallet_t :=
  let st := mining_stats miner in
  let improved :=
    Rgtb (precision (metrics ai_proof))
         (validation_loss (metrics ai_proof)) in
  mk_wallet (address miner) (public_key miner) (private_key miner)
    (balance miner + reward)
    (mk_mining_stats
       (u64 (total_contributions st + 1))
       (total_mined st + reward)
       (if improved
        then accuracy_improvements st + improvement_percentage ai_proof
        else accuracy_improvements st)
       (speed_improvements st)
       (if improved then u32 (models_improved st + 1)
        else models_improved st)
       (algorithms_created st)).

(** mine_block (qenex_coin.c:85). *)
Definition mine_block
    (fuel : nat) (now : Z) (miner : wallet_t) (ai_proof : ai_verification_t)
    (s : chain_state) : mine_result :=
  if negb (verify_ai_improvement ai_proof) then MineRejected
  else
    match tail_block (blockchain s) with
    | None => MineNoTail
    | Some tail =>
        let type := 0%Z in
        let reward :=
          calculate_mining_reward s type (improvement_percentage ai_proof) in
        let new_block :=
          mk_block (blockchain_height s) (u64 now) (hash tail) "" 0
            (calculate_difficulty s tail)
            (mk_ai_mining_data type (improvement_percentage ai_proof)
               (strcpy_developer_id (address miner) (model_id ai_proof))
               (model_id ai_proof) reward)
            [] in
        match nonce_search fuel new_block 0 with
        | None => MineSearching
        | Some mined =>
            Mined mined
              (mk_chain_state (blockchain s ++ [mined])
                 (u32 (blockchain_height s + 1))
                 (total_supply s + reward))
              (credit_miner miner ai_proof reward)
        end
    end.

(** verify_blockchain_integrity (qenex_coin.c:469).  The walk returns
    the report together with the chain, whose visited blocks have had
    their hash recomputed in place. *)
Fixpoint integrity_walk (chain : list block_t) (verified_blocks : Z)
    : integrity_report * list block_t :=
  match chain with
  | current :: ((next :: _) as rest) =>
      if negb (String.eqb (hash current) (prev_hash next))
      then (HashMismatchAt (index current), chain)
      else
        let original_hash := hash current in
        let current' := calculate_block_hash current in
        if negb (String.eqb original_hash (hash current'))
        then (InvalidHashAt (index current), current' :: rest)
        else
          let (report, rest') :=
            integrity_walk rest (u32 (verified_blocks + 1)) in
          (report, current' :: rest')
  | _ => (ChainVerified verified_blocks, chain)
  end.

Definition verify_blockchain_integrity (chain : list block_t)
    : integrity_report * list block_t :=
  integrity_walk chain 0.

(** *** Transaction ledger *)

(** What process_transaction reads and writes: the chain its balance
    check scans, the balances [update_balance] maintains, and the store
    of [record_ai_contribution]. *)
Record ledger_t : Type := mk_ledger {
  ledger_chain : list block_t;
  ledger_balances : string -> R;
  ledger_contributions : contribution_store
}.

(** Modelled from the spec: [update_balance], which process_transaction
    calls and no source file defines.  Section 4.6 has a transfer debit
    the sender and credit the receiver: the balance kept for [addr]
    moves by [delta] and no other balance moves. *)
Definition update_balance
    (addr : string) (delta : R) (balances : string -> R) : string -> R :=
  fun a => if String.eqb a addr then balances a + delta else balances a.

(** process_transaction (qenex_coin.c:417); [false] is the C 0. *)
Definition process_transaction (tx : transaction_t) (l : ledger_t)
    : bool * ledger_t :=
  if negb (verify_transaction_signature tx) then (false, l)
  else
    let sender_balance := get_wallet_balance (ledger_chain l) (sender tx) in
    if Rltb sender_balance (amount tx + fee tx) then (false, l)
    else
      let balances :=
        update_balance (sender tx) (- (amount tx + fee tx))
                       (ledger_balances l) in
      let balances := update_balance (receiver tx) (amount tx) balances in
      let contributions :=
        if Rgtb (contribution_score (ai_contribution tx)) 0
        then record_ai_contribution (receiver tx) (ai_contribution tx)
                                    (ledger_contributions l)
        else ledger_contributions l in
      (true, mk_ledger (ledger_chain l) balances contributions).

(** *** Reachable states *)

(** The chain states the program reaches: [qxc_init], then blocks
    appended by [mine_block] and walks of
    [verify_blockchain_integrity], the only writers of the globals. *)
Inductive reachable : chain_state -> Prop :=
| reachable_init : forall now, reachable (qxc_init now)
| reachable_mine : forall s fuel now miner ai_proof b s' w',
    reachable s ->
    mine_block fuel now miner ai_proof s = Mined b s' w' ->
    reachable s'
| reachable_verify : forall s,
    reachable s ->
    reachable (mk_chain_state
                 (snd (verify_blockchain_integrity (blockchain s)))
                 (blockchain_height s) (total_supply s)).

(** The ledger together with one training node and its wallet. *)
Record system_t : Type := mk_system {
  sys_chain : chain_state;
  sys_node : training_node_t
}.

(** The node after a rewarded improvement
    (continuous_trainer.c:356-366) with the wallet [mine_block] left. *)
Definition rewarded_node
    (node : training_node_t) (w' : wallet_t) (improvement : R)
    : training_node_t :=
  mk_training_node (node_id node) (task node) w'
    (mining_contribution node + improvement)
    (u64 (blocks_contributed node + 1)).

(** Start-up ([qxc_init], then a node registered with a fresh wallet and
    a task), rewarded improvements and completed trainings. *)
Inductive sys_reachable : system_t -> Prop :=
| sys_boot : forall now id t,
    sys_reachable
      (mk_system (qxc_init now)
                 (mk_training_node id t (create_wallet id) 0 0))
| sys_mined : forall sys fuel now ai_proof b s' w',
    sys_reachable sys ->
    mine_block fuel now (wallet (sys_node sys)) ai_proof (sys_chain sys)
      = Mined b s' w' ->
    sys_reachable
      (mk_system s'
         (rewarded_node (sys_node sys) w'
                        (improvement_percentage ai_proof)))
| sys_finalized : forall sys,
    sys_reachable sys ->
    sys_reachable
      (mk_system (sys_chain sys) (finalize_training (sys_node sys))).

(** *** Invariants of the hash chain *)

(** The stored hash is the digest of the block's own fields. *)
Definition hash_ok (b : block_t) : Prop :=
  hash b = SHA256_hex (block_data b).

(** Every block's [prev_hash] is the stored hash of its predecessor. *)
Fixpoint linked (chain : list block_t) : Prop :=
  match chain with
  | b :: ((next :: _) as rest) => hash b = prev_hash next /\ linked rest
  | _ => True
  end.

(** Block [i] carries index [i] (as a [uint32_t]), counting from
    [start]. *)
Fixpoint indexed_from (start : nat) (chain : list block_t) : Prop :=
  match chain with
  | [] => True
  | b :: rest => index b = u32 (Z.of_nat start) /\ indexed_from (S start) rest
  end.

Record chain_inv (s : chain_state) : Prop := mk_chain_inv {
  inv_nonempty : blockchain s <> [];
  inv_hashes : Forall hash_ok (blockchain s);
  inv_linked : linked (blockchain s);
  inv_indexed : indexed_from 0 (blockchain s);
  inv_height :
    blockchain_height s = u32 (Z.of_nat (List.length (blockchain s)));
  inv_supply : total_supply s <= MAX_SUPPLY
}.

(** *** submit_ai_improvement (qenex_coin.c:362) *)

(** [request_distributed_verification]: not under the sources; it is
    handed the claim by pointer and may rewrite it. *)
Variable request_distributed_verification :
  ai_verification_t -> ai_verification_t.

(** [while (confirmations < 3 && attempts < 30) { sleep(1); attempts++; }]:
    the number of one-second sleeps.  This thread does not write the claim
    while it waits; writes by other threads are outside the model. *)
Fixpoint consensus_wait (budget : nat) (improvement : ai_verification_t)
    (attempts : Z) : Z :=
  match budget with
  | O => attempts
  | S budget' =>
      if (confirmations (consensus improvement) <? 3)%Z
         && (attempts <? 30)%Z
      then consensus_wait budget' improvement (attempts + 1)%Z
      else attempts
  end.

(** The sleeps, then what happened: [MineRejected] is the C return value
    0 with nothing written, [Mined] is the return value 1. *)
Definition submit_ai_improvement
    (fuel : nat) (now : Z) (developer : wallet_t)
    (improvement : ai_verification_t) (s : chain_state) : Z * mine_result :=
  let improvement := request_distributed_verification improvement in
  let attempts := consensus_wait 30 improvement 0 in
  if (3 <=? confirmations (consensus improvement))%Z
  then (attempts, mine_block fuel now developer improvement s)
  else (attempts, MineRejected).

(** *** distribute_training_rewards (qenex_coin.c:284) *)

(** [calculate_miner_contribution], [get_miner_address] and
    [generate_transaction_id] are not under the sources.  The last one
    works on the uninitialised local [tx]. *)
Variable calculate_miner_contribution : mining_pool_t -> Z -> R.
Variable get_miner_address : mining_pool_t -> Z -> string.
Variable generate_transaction_id : transaction_t -> transaction_t.

(** The transaction built in one turn of the loop; [tx0] is what the
    local [tx] holds before any field is written. *)
Definition reward_transaction
    (pool : mining_pool_t) (i : Z) (reward_per_miner : R) (now : Z)
    (tx0 : transaction_t) : transaction_t :=
  let contribution_factor := calculate_miner_contribution pool i in
  let individual_reward := reward_per_miner * contribution_factor in
  let tx := generate_transaction_id tx0 in
  mk_transaction (tx_id tx) "MINING_POOL" (get_miner_address pool i)
    individual_reward TRANSACTION_FEE (u64 now) (signature tx)
    (mk_ai_contribution MINING_TYPE_TRAINING_SPEED contribution_factor
       (ai_model_ref (ai_contribution tx))).

(** [for (i = 0; i < pool->active_miners; i++)], [n] turns left; the
    result of [process_transaction] is dropped, as in the C code. *)
Fixpoint distribute_loop
    (n : nat) (i : Z) (pool : mining_pool_t) (reward_per_miner : R)
    (clock : Z -> Z) (stack : Z -> transaction_t) (l : ledger_t)
    : ledger_t :=
  match n with
  | O => l
  | S n' =>
      let tx := reward_transaction pool i reward_per_miner (clock i)
                                   (stack i) in
      let l' := snd (process_transaction tx l) in
      distribute_loop n' (i + 1)%Z pool reward_per_miner clock stack l'
  end.

Definition distribute_training_rewards
    (clock : Z -> Z) (stack : Z -> transaction_t)
    (pool : mining_pool_t) (l : ledger_t)
    : bool * mining_pool_t * ledger_t :=
  if Rleb (pending_rewards (rewards pool)) 0 then (false, pool, l)
  else
    let reward_per_miner :=
      pending_rewards (rewards pool) / IZR (active_miners pool) in
    let l' := distribute_loop (Z.to_nat (active_miners pool)) 0 pool
                              reward_per_miner clock stack l in
    (true,
     mk_mining_pool (pool_id pool) (active_miners pool) (total_hashrate pool)
       (training_metrics pool)
       (mk_pool_rewards (pool_balance (rewards pool)) 0
                        (payout_interval (rewards pool))),
     l').

(** *** continuous_trainer.c *)

(** [RAND_MAX] of the C library; each [rand()] result is an argument. *)
Variable RAND_MAX : Z.

(** simulate_training_progress (continuous_trainer.c:291); [r1] and [r2]
    are its two [rand()] results. *)
Definition simulate_training_progress
    (r1 r2 : Z) (slot : node_slot_t) (m : training_metrics_t)
    : node_slot_t * training_metrics_t :=
  let t := task (slot_node slot) in
  let epoch := u32 (current_epoch t + 1) in
  let learning_rate := 0.01 in
  let noise := (IZR r1 / IZR RAND_MAX - 0.5) * 0.1 in
  let loss1 := loss t * (1.0 - learning_rate + noise) in
  let loss2 := if Rltb loss1 0.01 then 0.01 else loss1 in
  let acc1 := 1.0 - loss2 / 10.0 in
  let acc2 := if Rgtb acc1 0.99 then 0.99 else acc1 in
  let t' := mk_training_task (task_model_id t) epoch (total_epochs t)
              loss2 acc2 (start_time t)
              (u64 (samples_processed t + 50000)) in
  let res := resources slot in
  let res' := mk_node_resources (cpu_cores res) (gpu_count res)
                (memory_gb res) (tflops res)
                (0.7 + IZR r2 / IZR RAND_MAX * 0.3) in
  (mk_node_slot (active slot) (ip_address slot) (port slot) res'
                (set_task (slot_node slot) t'),
   mk_training_metrics (total_improvements m) (cumulative_accuracy_gain m)
     (u64 (total_epochs_trained m + 1)) (total_qxc_mined m)).

(** The [ai_verification_t] filled in by check_and_reward_improvement
    (continuous_trainer.c:336-353); [r] is the [rand()] result. *)
Definition improvement_claim
    (node : training_node_t) (prev_accuracy improvement : R)
    (active : Z) (r : Z) (now : Z) : ai_verification_t :=
  let t := task node in
  mk_ai_verification (task_model_id t) prev_accuracy (accuracy t) improvement
    (mk_metrics (u32 (samples_processed t)) (loss t)
       (accuracy t * 0.95) (accuracy t * 0.97) (accuracy t * 0.93) now)
    (mk_consensus active
       (if (3 <? active)%Z then (active / 2)%Z else 3%Z)
       (0.85 + IZR r / IZR RAND_MAX * 0.15)).

(** check_and_reward_improvement (continuous_trainer.c:314).  [None]
    stands for a [mine_block] that does not return. *)
Definition check_and_reward_improvement
    (fuel : nat) (now_claim now_mine : Z) (r : Z)
    (node : training_node_t) (ts : training_system_t) (s : chain_state)
    : option (training_node_t * training_system_t * chain_state) :=
  match find_model (repository ts) (task_model_id (task node)) with
  | None => Some (node, ts, s)
  | Some model_idx =>
      let prev_accuracy := best_accuracy (repository ts) model_idx in
      let improvement := (accuracy (task node) - prev_accuracy) * 100.0 in
      if Rgtb improvement 1.0 then
        let verification :=
          improvement_claim node prev_accuracy improvement
                            (active_nodes ts) r now_claim in
        match snd (submit_ai_improvement fuel now_mine (wallet node)
                                         verification s) with
        | Mined b s' w' =>
            let m := system_metrics ts in
            let balance' := get_wallet_balance (blockchain s') (address w') in
            Some (rewarded_node node w' improvement,
                  mk_training_system (nodes ts) (active_nodes ts)
                    (set_best_accuracy (repository ts) model_idx
                                       (accuracy (task node)))
                    (mk_training_metrics
                       (u64 (total_improvements m + 1))
                       (cumulative_accuracy_gain m + improvement)
                       (total_epochs_trained m) balance'),
                  s')
        | MineRejected => Some (node, ts, s)
        | MineNoTail => None
        | MineSearching => None
        end
      else Some (node, ts, s)
  end.

(** assign_training_task (continuous_trainer.c:211); [r] is the
    [rand()] result. *)
Definition assign_training_task
    (r now : Z) (slot : node_slot_t) (ts : training_system_t)
    : node_slot_t * training_system_t :=
  let gpu := (0 <? gpu_count (resources slot))%Z in
  let suffix := fmt_u (u32 (Z.rem r 10)) in
  let model := if gpu then ("transformer_gpt_" ++ suffix)%string
               else ("mlp_classifier_" ++ suffix)%string in
  let total := if gpu then 100%Z else 50%Z in
  let t := mk_training_task model 0 total 10.0 0.0 now 0 in
  let found := match find_model (repository ts) model with
               | Some _ => true
               | None => false
               end in
  let repo :=
    if negb found
       && (List.length (repository ts) <? REPOSITORY_CAPACITY)%nat
    then repository ts ++ [(model, 0.0)]
    else repository ts in
  (set_slot_node slot (set_task (slot_node slot) t), set_repository ts repo).

(** add_training_node (continuous_trainer.c:420); [false] is the C 0. *)
Definition add_training_node
    (r now : Z) (id ip : string) (ts : training_system_t)
    : bool * training_system_t :=
  match first_inactive
          (firstn (Z.to_nat MAX_TRAINING_NODES) (nodes ts)) 0 with
  | None => (false, ts)
  | Some i =>
      let old := slot_node (nth i (nodes ts) zero_slot) in
      let node := mk_training_node id (task old) (create_wallet id)
                    (mining_contribution old) (blocks_contributed old) in
      let slot := mk_node_slot 1 ip (u16 (TRAINING_PORT + Z.of_nat i))
                    (mk_node_resources 8 1 32 10.0 0.0) node in
      let (slot', ts') := assign_training_task r now slot ts in
      (true,
       mk_training_system (set_slot (nodes ts') i slot')
         (u32 (active_nodes ts' + 1)) (repository ts') (system_metrics ts'))
  end.

(** One turn of the [for] loop of sync_thread_func
    (continuous_trainer.c:259-279) on one slot. *)
Definition sync_node
    (fuel : nat) (now_claim now_mine now_task : Z) (r1 r2 r3 r4 : Z)
    (slot : node_slot_t) (ts : training_system_t) (s : chain_state)
    : option (node_slot_t * training_system_t * chain_state) :=
  if (active slot =? 0)%Z then Some (slot, ts, s)
  else
    let (slot1, m1) := simulate_training_progress r1 r2 slot
                                                  (system_metrics ts) in
    let ts1 := mk_training_system (nodes ts) (active_nodes ts)
                                  (repository ts) m1 in
    let epoch := current_epoch (task (slot_node slot1)) in
    let checked :=
      if (0 <? epoch)%Z && (Z.rem epoch 10 =? 0)%Z
      then check_and_reward_improvement fuel now_claim now_mine r3
                                        (slot_node slot1) ts1 s
      else Some (slot_node slot1, ts1, s) in
    match checked with
    | None => None
    | Some (node2, ts2, s2) =>
        let slot2 := set_slot_node slot1 node2 in
        if (total_epochs (task node2) <=? current_epoch (task node2))%Z
        then
          let slot3 := set_slot_node slot2 (finalize_training node2) in
          let (slot4, ts4) := assign_training_task r4 now_task slot3 ts2 in
          Some (slot4, ts4, s2)
        else Some (slot2, ts2, s2)
    end.

(** ** Lemmas on the primitives *)

Lemma Rltb_true (x y : R) : Rltb x y = true <-> x < y.
Proof.
  unfold Rltb. destruct (Rlt_dec x y); split; intro H;
    solve [assumption | reflexivity | discriminate | contradiction].
Qed.

Lemma Rltb_false (x y : R) : Rltb x y = false <-> y <= x.
Proof.
  unfold Rltb. destruct (Rlt_dec x y) as [Hlt | Hge]; split; intro H;
    try reflexivity; try discriminate.
  - lra.
  - lra.
Qed.

Lemma Rgtb_true (x y : R) : Rgtb x y = true <-> y < x.
Proof. unfold Rgtb. apply Rltb_true. Qed.

Lemma Rgtb_false (x y : R) : Rgtb x y = false <-> x <= y.
Proof. unfold Rgtb. apply Rltb_false. Qed.

Lemma ln_10_pos : 0 < ln 10.
Proof. rewrite <- ln_1. apply ln_increasing; lra. Qed.

Lemma log10_pos (x : R) : 1 < x -> 0 < log10 x.
Proof.
  intro Hx. unfold log10. apply Rdiv_lt_0_compat.
  - rewrite <- ln_1. apply ln_increasing; lra.
  - apply ln_10_pos.
Qed.

Lemma spec_improvement_factor_gt_1 (improvement : R) :
  1 <= improvement -> 1 < spec_improvement_factor improvement.
Proof.
  intro H. unfold spec_improvement_factor.
  assert (0 < log10 (1 + improvement / 10)) by (apply log10_pos; lra).
  lra.
Qed.

Lemma type_multiplier_pos (type : mining_type_t) : 0 < type_multiplier type.
Proof.
  unfold type_multiplier.
  repeat match goal with
         | |- context [match ?x with _ => _ end] => destruct x
         end; lra.
Qed.

Lemma pow2_pos (n : nat) : 0 < 2 ^ n.
Proof. apply pow_lt. lra. Qed.

Lemma halving_loop_pow (n : nat) (x : R) : halving_loop n x = x / 2 ^ n.
Proof.
  revert x. induction n as [| n IH]; intro x; simpl.
  - field.
  - rewrite IH. replace (2.0) with 2 by lra.
    field. apply Rgt_not_eq, pow2_pos.
Qed.

Lemma spec_base_pos (height : Z) : 0 < spec_base height.
Proof.
  unfold spec_base, INITIAL_REWARD.
  apply Rdiv_lt_0_compat; [lra | apply pow2_pos].
Qed.

Lemma spec_unclamped_reward_pos type improvement height :
  1 <= improvement -> 0 < spec_unclamped_reward type improvement height.
Proof.
  intro H. unfold spec_unclamped_reward.
  pose proof (spec_base_pos height).
  pose proof (type_multiplier_pos type).
  pose proof (spec_improvement_factor_gt_1 improvement H).
  apply Rmult_lt_0_compat; [apply Rmult_lt_0_compat |]; lra.
Qed.

(** The C function, with its loop and its [if], in closed form. *)
Lemma calculate_mining_reward_unfold s type improvement :
  calculate_mining_reward s type improvement =
  let r := spec_unclamped_reward type improvement (blockchain_height s) in
  if Rgtb (total_supply s + r) MAX_SUPPLY
  then MAX_SUPPLY - total_supply s else r.
Proof.
  unfold calculate_mining_reward, spec_unclamped_reward, spec_base,
    spec_improvement_factor.
  rewrite halving_loop_pow.
  replace (1.0) with 1 by lra. replace (10.0) with 10 by lra.
  reflexivity.
Qed.

Lemma calculate_mining_reward_cap s type improvement :
  total_supply s + calculate_mining_reward s type improvement <= MAX_SUPPLY.
Proof.
  rewrite calculate_mining_reward_unfold. cbv zeta.
  destruct (Rgtb _ _) eqn:E.
  - lra.
  - apply Rgtb_false in E. exact E.
Qed.

(** ** Lemmas on the hash chain *)

Lemma block_data_set_hash (b : block_t) (h : string) :
  block_data (set_hash b h) = block_data b.
Proof. reflexivity. Qed.

Lemma calculate_block_hash_ok (b : block_t) : hash_ok (calculate_block_hash b).
Proof. unfold hash_ok, calculate_block_hash. reflexivity. Qed.

(** Recomputing the hash of a block whose stored hash is right leaves
    the block as it is. *)
Lemma calculate_block_hash_fixed (b : block_t) :
  hash_ok b -> calculate_block_hash b = b.
Proof.
  unfold hash_ok, calculate_block_hash, set_hash. intro H.
  rewrite <- H. destruct b; reflexivity.
Qed.

(** A block found by the search is the candidate with a nonce and the
    matching hash; no other field moved. *)
Lemma nonce_search_fields (fuel : nat) :
  forall new_block n mined,
    nonce_search fuel new_block n = Some mined ->
    index mined = index new_block /\
    timestamp mined = timestamp new_block /\
    prev_hash mined = prev_hash new_block /\
    difficulty mined = difficulty new_block /\
    ai_mining_data mined = ai_mining_data new_block /\
    transactions mined = transactions new_block /\
    hash_ok mined.
Proof.
  induction fuel as [| fuel IH]; intros new_block n mined H; simpl in H.
  - discriminate.
  - destruct (_ <=? 0)%Z.
    + injection H as <-. repeat split.
    + apply IH in H. simpl in H. exact H.
Qed.

Lemma tail_block_snoc (chain : list block_t) (b : block_t) :
  tail_block (chain ++ [b]) = Some b.
Proof.
  induction chain as [| c chain IH]; [reflexivity |].
  simpl. rewrite IH. destruct (chain ++ [b]) eqn:E; [| reflexivity].
  destruct chain; discriminate.
Qed.

Lemma linked_snoc (chain : list block_t) (tail b : block_t) :
  linked chain -> tail_block chain = Some tail ->
  prev_hash b = hash tail -> linked (chain ++ [b]).
Proof.
  intros Hl Ht Hb. induction chain as [| c chain IH]; [discriminate |].
  destruct chain as [| c' chain].
  - simpl in Ht. injection Ht as ->. simpl. auto.
  - destruct Hl as [Hc Hl]. split; [exact Hc |].
    apply IH; assumption.
Qed.

Lemma indexed_from_snoc (chain : list block_t) (b : block_t) :
  forall start,
    indexed_from start chain ->
    index b = u32 (Z.of_nat (start + List.length chain)) ->
    indexed_from start (chain ++ [b]).
Proof.
  induction chain as [| c chain IH]; intros start Hi Hb; simpl in *.
  - rewrite Nat.add_0_r in Hb. auto.
  - destruct Hi as [Hc Hi]. split; [exact Hc |].
    apply IH; [exact Hi |].
    rewrite Hb. f_equal. f_equal. lia.
Qed.

Lemma indexed_from_nth (chain : list block_t) :
  forall start i b,
    indexed_from start chain -> nth_error chain i = Some b ->
    index b = u32 (Z.of_nat (start + i)).
Proof.
  induction chain as [| c chain IH]; intros start i b Hi Hn.
  - destruct i; discriminate.
  - destruct Hi as [Hc Hi]. destruct i as [| i]; simpl in Hn.
    + injection Hn as <-. rewrite Nat.add_0_r. exact Hc.
    + rewrite (IH _ _ _ Hi Hn). f_equal. f_equal. lia.
Qed.

Lemma u32_succ (z : Z) : u32 (u32 z + 1) = u32 (z + 1).
Proof. unfold u32. apply Zplus_mod_idemp_l. Qed.

Lemma u32_small (z : Z) : (0 <= z < 2 ^ 32)%Z -> u32 z = z.
Proof. intro H. unfold u32. apply Z.mod_small. exact H. Qed.

(** One turn of the [while] loop of the walk. *)
Lemma integrity_walk_step current next rest verified :
  integrity_walk (current :: next :: rest) verified =
  if negb (String.eqb (hash current) (prev_hash next))
  then (HashMismatchAt (index current), current :: next :: rest)
  else
    if negb (String.eqb (hash current) (hash (calculate_block_hash current)))
    then (InvalidHashAt (index current),
          calculate_block_hash current :: next :: rest)
    else
      let (report, rest') :=
        integrity_walk (next :: rest) (u32 (verified + 1)) in
      (report, calculate_block_hash current :: rest').
Proof. reflexivity. Qed.

(** On a chain whose hashes and links are right the walk reports
    success and leaves every block as it was. *)
Lemma integrity_walk_ok (chain : list block_t) :
  Forall hash_ok chain -> linked chain ->
  forall verified,
    exists verified',
      integrity_walk chain verified = (ChainVerified verified', chain).
Proof.
  induction chain as [| current rest IH]; intros Hh Hl verified.
  - exists verified. reflexivity.
  - destruct rest as [| next rest'].
    + exists verified. reflexivity.
    + destruct Hl as [Hc Hl].
      pose proof (Forall_inv Hh) as Hcur.
      pose proof (Forall_inv_tail Hh) as Hrest.
      destruct (IH Hrest Hl (u32 (verified + 1))) as [v' Hv'].
      exists v'.
      rewrite integrity_walk_step.
      rewrite Hv'.
      rewrite (calculate_block_hash_fixed current Hcur).
      rewrite Hc, !String.eqb_refl. reflexivity.
Qed.

(** What a successful [mine_block] did. *)
Lemma mine_block_mined fuel now miner ai_proof s b s' w' :
  mine_block fuel now miner ai_proof s = Mined b s' w' ->
  exists tail,
    verify_ai_improvement ai_proof = true /\
    tail_block (blockchain s) = Some tail /\
    index b = blockchain_height s /\
    prev_hash b = hash tail /\
    hash_ok b /\
    developer_id (ai_mining_data b)
    = strcpy_developer_id (address miner) (model_id ai_proof) /\
    reward_amount (ai_mining_data b) =
      calculate_mining_reward s 0%Z (improvement_percentage ai_proof) /\
    transactions b = [] /\
    s' = mk_chain_state (blockchain s ++ [b])
           (u32 (blockchain_height s + 1))
           (total_supply s + reward_amount (ai_mining_data b)) /\
    balance w' = balance miner + reward_amount (ai_mining_data b) /\
    address w' = address miner.
Proof.
  unfold mine_block. intro H.
  destruct (verify_ai_improvement ai_proof) eqn:Hv; [| discriminate].
  simpl in H.
  destruct (tail_block (blockchain s)) as [tail |] eqn:Ht; [| discriminate].
  destruct (nonce_search _ _ _) as [mined |] eqn:Hn; [| discriminate].
  apply nonce_search_fields in Hn. simpl in Hn.
  destruct Hn as (Hi & _ & Hp & _ & Hd & Htx & Hh).
  injection H as <- <- <-.
  exists tail. rewrite Hd. simpl. repeat split; assumption.
Qed.

(** The invariant holds after [qxc_init] and is kept by every writer. *)
Lemma qxc_init_inv (now : Z) : chain_inv (qxc_init now).
Proof.
  constructor; simpl.
  - discriminate.
  - constructor; [apply calculate_block_hash_ok | constructor].
  - exact I.
  - split; [reflexivity | exact I].
  - reflexivity.
  - unfold INITIAL_REWARD, MAX_SUPPLY. lra.
Qed.

Lemma mine_block_inv fuel now miner ai_proof s b s' w' :
  chain_inv s ->
  mine_block fuel now miner ai_proof s = Mined b s' w' ->
  chain_inv s'.
Proof.
  intros [Hne Hh Hl Hi Hht Hs] H.
  apply mine_block_mined in H.
  destruct H as (tail & _ & Ht & Hidx & Hp & Hok & _ & Hr & _ & -> & _).
  constructor; simpl.
  - destruct (blockchain s); discriminate.
  - apply Forall_app. split; [exact Hh | constructor; [exact Hok | constructor]].
  - eapply linked_snoc; eassumption.
  - apply indexed_from_snoc; [exact Hi |]. simpl. rewrite Hidx. exact Hht.
  - rewrite Hht, u32_succ, length_app. simpl. f_equal. lia.
  - rewrite Hr. apply calculate_mining_reward_cap.
Qed.

Lemma verify_blockchain_integrity_inv s :
  chain_inv s ->
  mk_chain_state (snd (verify_blockchain_integrity (blockchain s)))
                 (blockchain_height s) (total_supply s) = s.
Proof.
  intros [Hne Hh Hl Hi Hht Hs].
  destruct (integrity_walk_ok (blockchain s) Hh Hl 0%Z) as [v Hv].
  unfold verify_blockchain_integrity. rewrite Hv. simpl.
  destruct s; reflexivity.
Qed.

Lemma reachable_inv s : reachable s -> chain_inv s.
Proof.
  induction 1 as [now | s fuel now miner ai_proof b s' w' _ IH Hm | s _ IH].
  - apply qxc_init_inv.
  - eapply mine_block_inv; eassumption.
  - rewrite verify_blockchain_integrity_inv; assumption.
Qed.

(** ** The improvement verification gate *)

Ltac read_comparisons :=
  repeat match goal with
         | H : true = true <-> _ |- _ =>
             pose proof (proj1 H eq_refl); clear H
         | H : false = false <-> _ |- _ =>
             pose proof (proj1 H eq_refl); clear H
         | H : true = false <-> _ |- _ => clear H
         | H : false = true <-> _ |- _ => clear H
         end.

Lemma verify_ai_improvement_true_iff (v : ai_verification_t) :
  verify_ai_improvement v = true <->
  1.0 <= improvement_percentage v /\
  (3 <= confirmations (consensus v))%Z /\
  0.75 <= consensus_score (consensus v) /\
  0.5 <= f1_score (metrics v).
Proof.
  unfold verify_ai_improvement.
  pose proof (Rltb_true (improvement_percentage v) 1.0) as T1.
  pose proof (Rltb_false (improvement_percentage v) 1.0) as F1.
  pose proof (Rltb_true (consensus_score (consensus v)) 0.75) as T2.
  pose proof (Rltb_false (consensus_score (consensus v)) 0.75) as F2.
  pose proof (Rltb_true (f1_score (metrics v)) 0.5) as T3.
  pose proof (Rltb_false (f1_score (metrics v)) 0.5) as F3.
  destruct (Rltb (improvement_percentage v) 1.0);
    destruct (Z.ltb_spec (confirmations (consensus v)) 3);
    destruct (Rltb (consensus_score (consensus v)) 0.75);
    destruct (Rltb (f1_score (metrics v)) 0.5);
    read_comparisons;
    (split; [intro Hd; try discriminate Hd
            | intros (G1 & G2 & G3 & G4); try reflexivity; exfalso;
              solve [lra | lia]]).
  repeat split; assumption.
Qed.

(** C1. The gate admits a claim exactly when the improvement is at
    least 1.0, the confirmations at least 3, the consensus score at
    least 0.75 and the F1 score at least 0.5; a claim with two
    confirmations is rejected whatever its other fields, and the claim
    with improvement 10, three confirmations, score 0.8 and F1 0.6 is
    admitted. *)
Theorem verify_ai_improvement_gate (v : ai_verification_t) :
  (verify_ai_improvement v = true <->
     1.0 <= improvement_percentage v /\
     (3 <= confirmations (consensus v))%Z /\
     0.75 <= consensus_score (consensus v) /\
     0.5 <= f1_score (metrics v))
  /\ (confirmations (consensus v) = 2%Z -> verify_ai_improvement v = false)
  /\ (improvement_percentage v = 10 ->
      confirmations (consensus v) = 3%Z ->
      consensus_score (consensus v) = 0.8 ->
      f1_score (metrics v) = 0.6 ->
      verify_ai_improvement v = true).
Proof.
  pose proof (verify_ai_improvement_true_iff v) as Hiff.
  split; [exact Hiff |]. split.
  - intro Hc. destruct (verify_ai_improvement v); [| reflexivity].
    destruct (proj1 Hiff eq_refl) as (_ & H2 & _). lia.
  - intros H1 H2 H3 H4. apply Hiff. rewrite H1, H2, H3, H4.
    repeat split; try lra; lia.
Qed.

(** ** The reward policy *)

(** The reward under a supply within the cap: the closed formula,
    clamped, and never negative. *)
Lemma calculate_mining_reward_within_cap
    (s : chain_state) (type : mining_type_t) (improvement : R) :
  1.0 <= improvement ->
  total_supply s <= MAX_SUPPLY ->
  calculate_mining_reward s type improvement =
    spec_clamp (total_supply s)
      (spec_unclamped_reward type improvement (blockchain_height s))
  /\ total_supply s + calculate_mining_reward s type improvement
       <= MAX_SUPPLY
  /\ 0 <= calculate_mining_reward s type improvement
  /\ (total_supply s = MAX_SUPPLY ->
      calculate_mining_reward s type improvement = 0).
Proof.
  intros Himp Hsup.
  assert (Hpos : 0 < spec_unclamped_reward type improvement
                       (blockchain_height s))
    by (apply spec_unclamped_reward_pos; lra).
  rewrite calculate_mining_reward_unfold. cbv zeta.
  unfold spec_clamp, Rmin.
  destruct (Rgtb _ _) eqn:E;
    [apply Rgtb_true in E | apply Rgtb_false in E];
    destruct (Rle_dec _ _); repeat split; try lra.
Qed.


(** C8, amended. For one type, one improvement at or above the gate
    minimum and one supply, the reward never grows with the chain
    height; and across a halving boundary (the height before it is one
    short of a multiple of [HALVING_INTERVAL]) the reward is exactly
    half of the reward before the boundary, and strictly smaller,
    whenever the reward before the boundary was not clamped by the
    supply cap. *)
Theorem calculate_mining_reward_halving
    (type : mining_type_t) (improvement supply : R) :
  1.0 <= improvement ->
  (forall chain1 chain2 h1 h2,
      (0 <= h1 <= h2)%Z ->
      calculate_mining_reward (mk_chain_state chain2 h2 supply)
                              type improvement
      <= calculate_mining_reward (mk_chain_state chain1 h1 supply)
                                 type improvement)
  /\ (forall chain1 chain2 h,
        (0 <= h)%Z ->
        ((h + 1) mod HALVING_INTERVAL = 0)%Z ->
        supply + spec_unclamped_reward type improvement h <= MAX_SUPPLY ->
        calculate_mining_reward (mk_chain_state chain2 (h + 1) supply)
                                type improvement
        = calculate_mining_reward (mk_chain_state chain1 h supply)
                                  type improvement / 2
        /\ calculate_mining_reward (mk_chain_state chain2 (h + 1) supply)
                                   type improvement
           < calculate_mining_reward (mk_chain_state chain1 h supply)
                                     type improvement).
Proof.
  intro Himp.
  pose proof (type_multiplier_pos type) as Hm.
  pose proof (spec_improvement_factor_gt_1 improvement) as Hf.
  assert (Hk : 0 < type_multiplier type * spec_improvement_factor improvement)
    by (apply Rmult_lt_0_compat; lra).
  split.
  - intros chain1 chain2 h1 h2 Hh.
    assert (Hle : spec_unclamped_reward type improvement h2
                  <= spec_unclamped_reward type improvement h1).
    { unfold spec_unclamped_reward. rewrite !Rmult_assoc.
      apply Rmult_le_compat_r; [lra |].
      unfold spec_base, INITIAL_REWARD.
      apply Rmult_le_compat_l; [lra |].
      apply Rinv_le_contravar; [apply pow2_pos |].
      apply Rle_pow; [lra |].
      apply Z2Nat.inj_le.
      - apply Z.div_pos; unfold HALVING_INTERVAL; lia.
      - apply Z.div_pos; unfold HALVING_INTERVAL; lia.
      - apply Z.div_le_mono; unfold HALVING_INTERVAL; lia. }
    rewrite !calculate_mining_reward_unfold. cbv zeta. simpl.
    destruct (Rgtb (supply + spec_unclamped_reward type improvement h2) _)
      eqn:E2;
      [apply Rgtb_true in E2 | apply Rgtb_false in E2];
      destruct (Rgtb (supply + spec_unclamped_reward type improvement h1) _)
        eqn:E1;
      [apply Rgtb_true in E1 | apply Rgtb_false in E1 |
       apply Rgtb_true in E1 | apply Rgtb_false in E1]; lra.
  - intros chain1 chain2 h Hh Hb Hfree.
    assert (Hhalf : spec_unclamped_reward type improvement (h + 1)
                    = spec_unclamped_reward type improvement h / 2).
    { unfold spec_unclamped_reward, spec_base.
      assert (Hq : ((h + 1) / HALVING_INTERVAL
                    = h / HALVING_INTERVAL + 1)%Z).
      { unfold HALVING_INTERVAL in *.
        pose proof (Z.div_mod (h + 1) 210000 ltac:(lia)) as D1.
        pose proof (Z.div_mod h 210000 ltac:(lia)) as D2.
        pose proof (Z.mod_pos_bound h 210000 ltac:(lia)) as B2.
        rewrite Hb in D1. nia. }
      rewrite Hq, Z2Nat.inj_add;
        [| apply Z.div_pos; unfold HALVING_INTERVAL; lia | lia].
      rewrite pow_add. simpl (2 ^ Z.to_nat 1).
      field. apply Rgt_not_eq, pow2_pos. }
    pose proof (spec_unclamped_reward_pos type improvement h
                  ltac:(lra)) as Hpos.
    rewrite !calculate_mining_reward_unfold. cbv zeta. simpl.
    rewrite Hhalf.
    destruct (Rgtb (supply + spec_unclamped_reward type improvement h / 2) _)
      eqn:E2;
      [apply Rgtb_true in E2 | apply Rgtb_false in E2];
      destruct (Rgtb (supply + spec_unclamped_reward type improvement h) _)
        eqn:E1;
      [apply Rgtb_true in E1 | apply Rgtb_false in E1 |
       apply Rgtb_true in E1 | apply Rgtb_false in E1]; split; lra.
Qed.

(** ** The mining engine and the hash chain *)

(** C3. The reward embedded in a block appended by [mine_block] keeps
    the supply before the append plus the reward within [MAX_SUPPLY],
    the supply after the append is that sum, and so the circulating
    supply of every reachable chain state is within [MAX_SUPPLY]. *)
Theorem total_supply_capped :
  (forall s fuel now miner ai_proof b s' w',
      mine_block fuel now miner ai_proof s = Mined b s' w' ->
      total_supply s + reward_amount (ai_mining_data b) <= MAX_SUPPLY /\
      total_supply s' = total_supply s + reward_amount (ai_mining_data b))
  /\ (forall s, reachable s -> total_supply s <= MAX_SUPPLY).
Proof.
  split.
  - intros s fuel now miner ai_proof b s' w' H.
    apply mine_block_mined in H.
    destruct H as (tail & _ & _ & _ & _ & _ & _ & Hr & _ & -> & _).
    split; [| reflexivity].
    rewrite Hr. apply calculate_mining_reward_cap.
  - intros s Hs. apply reachable_inv in Hs. apply (inv_supply s Hs).
Qed.

(** C4. Every chain grown from the genesis block by successful
    [mine_block] calls is reported valid by
    [verify_blockchain_integrity], which returns 1 and leaves the chain
    as it was. *)
Theorem mined_chain_verifies (s : chain_state) :
  reachable s ->
  return_code (fst (verify_blockchain_integrity (blockchain s))) = 1%Z /\
  snd (verify_blockchain_integrity (blockchain s)) = blockchain s.
Proof.
  intro Hs. apply reachable_inv in Hs.
  destruct (integrity_walk_ok (blockchain s)
              (inv_hashes s Hs) (inv_linked s Hs) 0%Z) as [v Hv].
  unfold verify_blockchain_integrity. rewrite Hv. split; reflexivity.
Qed.

Lemma append_neq (s t : string) :
  t <> EmptyString -> (s ++ t)%string <> s.
Proof.
  intros Ht. induction s as [| c s IH]; simpl.
  - exact Ht.
  - intro H. injection H as H. exact (IH H).
Qed.

(** C5, at the failing input. A chain that holds only a genesis block
    whose stored hash was altered is reported valid, with no block
    verified and return value 1, although recomputing the hash of that
    block gives another string than the stored one. *)
Theorem verify_blockchain_integrity_skips_tail (now : Z) :
  let tampered :=
    set_hash (genesis_block now) (hash (genesis_block now) ++ "x")%string in
  verify_blockchain_integrity [tampered] = (ChainVerified 0, [tampered])
  /\ return_code (fst (verify_blockchain_integrity [tampered])) = 1%Z
  /\ hash (calculate_block_hash tampered) <> hash tampered.
Proof.
  cbv zeta. split; [reflexivity |]. split; [reflexivity |].
  intro H. symmetry in H. revert H.
  change (hash (set_hash (genesis_block now)
                  (hash (genesis_block now) ++ "x")%string))
    with (hash (genesis_block now) ++ "x")%string.
  change (hash (calculate_block_hash
                  (set_hash (genesis_block now)
                     (hash (genesis_block now) ++ "x")%string)))
    with (hash (genesis_block now)).
  apply append_neq. discriminate.
Qed.

Lemma fst_walk_cons (p : integrity_report * list block_t) (c : block_t) :
  fst (let (report, rest') := p in (report, c :: rest')) = fst p.
Proof. destruct p; reflexivity. Qed.

(** The stored hash of the last block is never looked at: whatever it
    is replaced with, the report stays the same. *)
Lemma integrity_walk_tail_hash (chain : list block_t) (b : block_t) (h : string) :
  forall verified,
    fst (integrity_walk (chain ++ [set_hash b h]) verified)
    = fst (integrity_walk (chain ++ [b]) verified).
Proof.
  induction chain as [| c chain IH]; intro verified; [reflexivity |].
  specialize (IH (u32 (verified + 1))).
  destruct chain as [| c' chain].
  - change ([c] ++ [set_hash b h]) with [c; set_hash b h].
    change ([c] ++ [b]) with [c; b].
    rewrite !integrity_walk_step.
    change (prev_hash (set_hash b h)) with (prev_hash b).
    destruct (negb _); [reflexivity |].
    destruct (negb _); reflexivity.
  - change ((c :: c' :: chain) ++ [set_hash b h])
      with (c :: c' :: (chain ++ [set_hash b h])).
    change ((c :: c' :: chain) ++ [b]) with (c :: c' :: (chain ++ [b])).
    rewrite !integrity_walk_step.
    destruct (negb _); [reflexivity |].
    destruct (negb _); [reflexivity |].
    rewrite !fst_walk_cons. exact IH.
Qed.

(** What the walk accepts, exactly: every link holds and every block
    that has a successor carries the digest of its fields.  The last
    block's stored hash takes no part. *)
Lemma integrity_walk_valid_iff (chain : list block_t) :
  forall verified,
    (exists n, fst (integrity_walk chain verified) = ChainVerified n) <->
    Forall hash_ok (removelast chain) /\ linked chain.
Proof.
  induction chain as [| c chain IH]; intro verified.
  - simpl. split; [intros _; split; [constructor | exact I] | eauto].
  - destruct chain as [| next rest].
    + simpl. split; [intros _; split; [constructor | exact I] | eauto].
    + rewrite integrity_walk_step.
      change (removelast (c :: next :: rest))
        with (c :: removelast (next :: rest)).
      change (linked (c :: next :: rest))
        with (hash c = prev_hash next /\ linked (next :: rest)).
      change (hash (calculate_block_hash c)) with (SHA256_hex (block_data c)).
      destruct (String.eqb_spec (hash c) (prev_hash next)) as [Hl | Hl]; simpl.
      * destruct (String.eqb_spec (hash c) (SHA256_hex (block_data c)))
          as [Hh | Hh]; simpl.
        -- rewrite fst_walk_cons, (IH (u32 (verified + 1))).
           split.
           ++ intros [Hf Hk]. split; [constructor; assumption | tauto].
           ++ intros [Hf [_ Hk]]. split; [exact (Forall_inv_tail Hf) | exact Hk].
        -- split; [intros [n Hn]; discriminate |].
           intros [Hf _]. exfalso. exact (Hh (Forall_inv Hf)).
      * split; [intros [n Hn]; discriminate |].
        intros [_ [Hk _]]. contradiction.
Qed.

(** ** The transaction ledger *)

Lemma scan_transactions_sum (txs : list transaction_t) (addr : string) :
  forall bal,
    scan_transactions txs addr bal =
    bal
    + Rsum (map amount (filter (fun tx => String.eqb (receiver tx) addr) txs))
    - Rsum (map (fun tx => amount tx + fee tx)
                (filter (fun tx => String.eqb (sender tx) addr) txs)).
Proof.
  induction txs as [| tx rest IH]; intro bal; simpl.
  - lra.
  - rewrite IH.
    destruct (String.eqb (receiver tx) addr);
      destruct (String.eqb (sender tx) addr); simpl; lra.
Qed.

Lemma Rsum_app (l1 l2 : list R) : Rsum (l1 ++ l2) = Rsum l1 + Rsum l2.
Proof. induction l1 as [| x l1 IH]; simpl; [| rewrite IH]; lra. Qed.

Lemma scan_blocks_sum (chain : list block_t) (addr : string) :
  forall bal, scan_blocks chain addr bal = bal + spec_balance chain addr.
Proof.
  unfold spec_balance, reward_credits, transfer_credits, transfer_debits,
    all_transactions.
  induction chain as [| current rest IH]; intro bal; simpl.
  - lra.
  - rewrite IH, scan_transactions_sum.
    rewrite !filter_app, !map_app, !Rsum_app.
    destruct (String.eqb (developer_id (ai_mining_data current)) addr);
      simpl; lra.
Qed.

(** C6. For every chain and every address, [get_wallet_balance] is the
    sum over the whole chain of the rewards of the blocks whose
    claimant is the address, plus the amounts of the transactions
    received by the address, minus amount plus fee of the transactions
    sent by it. *)
Theorem get_wallet_balance_full_scan (chain : list block_t) (addr : string) :
  get_wallet_balance chain addr =
  reward_credits chain addr + transfer_credits chain addr
  - transfer_debits chain addr.
Proof.
  unfold get_wallet_balance. rewrite scan_blocks_sum.
  unfold spec_balance. lra.
Qed.

(** C7, amended. A transfer fails and leaves the ledger as it was when
    the sender's derived balance is below amount plus fee, and also
    when the signature check rejects the transaction; when the
    signature passes and the derived balance covers amount plus fee it
    succeeds, the sender's kept balance goes down by amount plus fee,
    the receiver's goes up by the amount, and no other balance moves. *)
Theorem process_transaction_outcome (tx : transaction_t) (l : ledger_t) :
  (get_wallet_balance (ledger_chain l) (sender tx) < amount tx + fee tx ->
   process_transaction tx l = (false, l))
  /\ (verify_transaction_signature tx = false ->
      process_transaction tx l = (false, l))
  /\ (verify_transaction_signature tx = true ->
      amount tx + fee tx <= get_wallet_balance (ledger_chain l) (sender tx) ->
      fst (process_transaction tx l) = true /\
      ledger_chain (snd (process_transaction tx l)) = ledger_chain l /\
      forall a,
        ledger_balances (snd (process_transaction tx l)) a =
        ledger_balances l a
        - (if String.eqb a (sender tx) then amount tx + fee tx else 0)
        + (if String.eqb a (receiver tx) then amount tx else 0)).
Proof.
  unfold process_transaction. split; [| split].
  - intro Hlow. apply Rltb_true in Hlow. rewrite Hlow.
    destruct (verify_transaction_signature tx); reflexivity.
  - intros ->. reflexivity.
  - intros -> Hcover. apply Rltb_false in Hcover. rewrite Hcover. simpl.
    split; [reflexivity |]. split; [reflexivity |].
    intro a. unfold update_balance.
    destruct (String.eqb a (sender tx)); destruct (String.eqb a (receiver tx));
      lra.
Qed.

(** C10. The genesis block has index 0 and leaves the height at 1; a
    successful [mine_block] appends one block whose index is the height
    before the append and raises the height by exactly one; so in every
    reachable chain state the height is the number of blocks and the
    block at position [i] has index [i].  Height and index are
    [uint32_t]: the statement is for chains of fewer than 2^32 blocks. *)
Theorem block_indices_consecutive :
  (forall now,
      blockchain (qxc_init now) = [genesis_block now] /\
      index (genesis_block now) = 0%Z /\
      blockchain_height (qxc_init now) = 1%Z)
  /\ (forall s fuel now miner ai_proof b s' w',
        reachable s ->
        (blockchain_height s + 1 < 2 ^ 32)%Z ->
        mine_block fuel now miner ai_proof s = Mined b s' w' ->
        index b = blockchain_height s /\
        blockchain_height s' = (blockchain_height s + 1)%Z /\
        blockchain s' = blockchain s ++ [b])
  /\ (forall s,
        reachable s ->
        (Z.of_nat (List.length (blockchain s)) < 2 ^ 32)%Z ->
        blockchain_height s = Z.of_nat (List.length (blockchain s)) /\
        forall i b,
          nth_error (blockchain s) i = Some b -> index b = Z.of_nat i).
Proof.
  split; [| split].
  - intro now. repeat split.
  - intros s fuel now miner ai_proof b s' w' Hs Hroom Hm.
    apply reachable_inv in Hs.
    pose proof (inv_height s Hs) as Hh.
    apply mine_block_mined in Hm.
    destruct Hm as (tail & _ & _ & Hidx & _ & _ & _ & _ & _ & -> & _).
    simpl. repeat split; [exact Hidx |].
    apply u32_small.
    assert (0 <= blockchain_height s)%Z
      by (rewrite Hh; unfold u32; apply Z.mod_pos_bound; lia).
    lia.
  - intros s Hs Hlen. apply reachable_inv in Hs.
    split.
    + rewrite (inv_height s Hs). apply u32_small. lia.
    + intros i b Hn.
      rewrite (indexed_from_nth _ _ _ _ (inv_indexed s Hs) Hn).
      assert (i < List.length (blockchain s))%nat
        by (apply nth_error_Some; rewrite Hn; discriminate).
      apply u32_small. simpl. lia.
Qed.

(** ** Cached balance against derived balance *)

(** C9. The cached [balance] field of a wallet and the balance derived
    from the chain are not the same quantity: after start-up and one
    completed training, whose bonus goes to the cached field only, the
    two differ for the node's wallet. *)
Theorem cached_balance_diverges :
  exists sys,
    sys_reachable sys /\
    balance (wallet (sys_node sys)) <>
    get_wallet_balance (blockchain (sys_chain sys))
                       (address (wallet (sys_node sys))).
Proof.
  set (t := mk_training_task "mlp_classifier_0" 50 50 10.0 0.0 0 0).
  set (boot := mk_system (qxc_init 0)
                 (mk_training_node "node" t (create_wallet "node") 0 0)).
  exists (mk_system (sys_chain boot) (finalize_training (sys_node boot))).
  split.
  - apply sys_finalized. apply sys_boot.
  - unfold get_wallet_balance. cbn -[String.eqb].
    destruct (String.eqb _ _); unfold INITIAL_REWARD; lra.
Qed.

(** ** Further properties of the ledger *)

(** *** Difficulty *)

Lemma tail_block_nth (chain : list block_t) (tail : block_t) :
  tail_block chain = Some tail ->
  nth_error chain (Nat.pred (List.length chain)) = Some tail.
Proof.
  induction chain as [| c chain IH]; [discriminate |].
  destruct chain as [| c' chain].
  - simpl. intro H. exact H.
  - intro H. apply IH in H. exact H.
Qed.

(** The block the search returns passed the test of the loop. *)
Lemma nonce_search_meets_target (fuel : nat) :
  forall new_block n mined,
    nonce_search fuel new_block n = Some mined -> meets_target mined = true.
Proof.
  induction fuel as [| fuel IH]; intros new_block n mined H; simpl in H.
  - discriminate.
  - destruct (_ <=? 0)%Z eqn:E.
    + injection H as <-. exact E.
    + eapply IH. exact H.
Qed.

(** Everything a successful [mine_block] fixes about the block, the
    globals and the wallet. *)
Lemma mine_block_shape fuel now miner ai_proof s b s' w' :
  mine_block fuel now miner ai_proof s = Mined b s' w' ->
  exists tail,
    tail_block (blockchain s) = Some tail /\
    verify_ai_improvement ai_proof = true /\
    timestamp b = u64 now /\
    difficulty b = calculate_difficulty s tail /\
    ai_mining_data b =
      mk_ai_mining_data 0%Z (improvement_percentage ai_proof)
        (strcpy_developer_id (address miner) (model_id ai_proof))
        (model_id ai_proof)
        (calculate_mining_reward s 0%Z (improvement_percentage ai_proof)) /\
    meets_target b = true /\
    s' = mk_chain_state (blockchain s ++ [b])
           (u32 (blockchain_height s + 1))
           (total_supply s + reward_amount (ai_mining_data b)) /\
    w' = credit_miner miner ai_proof (reward_amount (ai_mining_data b)).
Proof.
  unfold mine_block. intro H.
  destruct (verify_ai_improvement ai_proof) eqn:Hv; [| discriminate].
  simpl in H.
  destruct (tail_block (blockchain s)) as [tail |] eqn:Ht; [| discriminate].
  destruct (nonce_search _ _ _) as [mined |] eqn:Hn; [| discriminate].
  pose proof (nonce_search_meets_target _ _ _ _ Hn) as Hm.
  apply nonce_search_fields in Hn. simpl in Hn.
  destruct Hn as (_ & Hts & _ & Hdf & Hd & _ & _).
  injection H as <- <- <-.
  exists tail. rewrite Hd. simpl. repeat split; assumption.
Qed.

(** X1. Away from a retarget boundary [calculate_difficulty] returns the
    tail block's difficulty as it is; at a boundary it moves it by at most
    one, and never below 1. *)
Theorem calculate_difficulty_step (s : chain_state) (tail : block_t) :
  (1 <= difficulty tail < 2 ^ 32 - 1)%Z ->
  ((blockchain_height s mod DIFFICULTY_ADJUSTMENT_INTERVAL <> 0)%Z ->
   calculate_difficulty s tail = difficulty tail)
  /\ (1 <= calculate_difficulty s tail)%Z
  /\ (difficulty tail - 1 <= calculate_difficulty s tail
      <= difficulty tail + 1)%Z.
Proof.
  intro Hd. unfold calculate_difficulty.
  destruct (Z.eqb_spec (blockchain_height s mod DIFFICULTY_ADJUSTMENT_INTERVAL)
                       0) as [E | E]; simpl.
  - split; [intro; contradiction |].
    destruct (_ <? _)%Z.
    + rewrite u32_small by lia. lia.
    + destruct (_ <? _)%Z; [destruct (Z.ltb_spec 1 (difficulty tail)) |]; lia.
  - split; [reflexivity | lia].
Qed.

Lemma calculate_difficulty_growth (s : chain_state) (tail : block_t) :
  (1 <= difficulty tail < 2 ^ 32 - 1)%Z ->
  (1 <= calculate_difficulty s tail)%Z /\
  (calculate_difficulty s tail <=
   difficulty tail
   + (if (blockchain_height s mod DIFFICULTY_ADJUSTMENT_INTERVAL =? 0)%Z
      then 1 else 0))%Z.
Proof.
  intro Hd. unfold calculate_difficulty.
  destruct (Z.eqb_spec (blockchain_height s mod DIFFICULTY_ADJUSTMENT_INTERVAL)
                       0) as [E | E]; simpl.
  - destruct (_ <? _)%Z.
    + rewrite u32_small by lia. lia.
    + destruct (_ <? _)%Z; [destruct (Z.ltb_spec 1 (difficulty tail)) |]; lia.
  - lia.
Qed.

(** X2. In a reachable chain of fewer than 2^32 blocks every block has a
    difficulty of at least 1, and the block at position [i] has a
    difficulty of at most [4 + i / 100]: the genesis value, raised at most
    once per adjustment interval. *)
Theorem difficulty_bounded (s : chain_state) :
  reachable s ->
  (Z.of_nat (List.length (blockchain s)) < 2 ^ 32)%Z ->
  forall i b,
    nth_error (blockchain s) i = Some b ->
    (1 <= difficulty b <= 4 + Z.of_nat i / 100)%Z.
Proof.
  induction 1 as [now | s fuel now miner ai_proof b s' w' Hs IH Hm | s Hs IH].
  - intros _ i b Hn. destruct i as [| i]; simpl in Hn.
    + injection Hn as <-. simpl. lia.
    + destruct i; discriminate.
  - pose proof (reachable_inv s Hs) as Hinv.
    apply mine_block_shape in Hm.
    destruct Hm as (tail & Ht & _ & _ & Hd & _ & _ & -> & _).
    cbn [blockchain]. rewrite length_app. cbn [List.length].
    intros Hlen i c Hn.
    assert (Hlen0 : (Z.of_nat (List.length (blockchain s)) < 2 ^ 32)%Z)
      by lia.
    specialize (IH Hlen0).
    destruct (Nat.lt_ge_cases i (List.length (blockchain s))) as [Hi | Hi].
    + rewrite nth_error_app1 in Hn by exact Hi. exact (IH i c Hn).
    + rewrite nth_error_app2 in Hn by exact Hi.
      destruct (i - List.length (blockchain s))%nat as [| k] eqn:Ek;
        simpl in Hn; [| destruct k; discriminate].
      injection Hn as <-.
      assert (i = List.length (blockchain s)) by lia. subst i.
      pose proof (tail_block_nth _ _ Ht) as Htn.
      pose proof (IH _ _ Htn) as Hb.
      assert (Hpos : (0 < List.length (blockchain s))%nat).
      { destruct (blockchain s); [discriminate | simpl; lia]. }
      assert (Hq : (Z.of_nat (Nat.pred (List.length (blockchain s))) / 100
                    <= 2 ^ 32 / 100)%Z)
        by (apply Z.div_le_mono; lia).
      change (2 ^ 32 / 100)%Z with 42949672%Z in Hq.
      destruct (calculate_difficulty_growth s tail ltac:(lia)) as [Hlo Hhi].
      rewrite Hd. split; [exact Hlo |].
      rewrite (inv_height s Hinv), u32_small in Hhi by lia.
      unfold DIFFICULTY_ADJUSTMENT_INTERVAL in Hhi.
      set (n := Z.of_nat (List.length (blockchain s))) in *.
      replace (Z.of_nat (Nat.pred (List.length (blockchain s))))
        with (n - 1)%Z in * by (unfold n; lia).
      revert Hhi.
      destruct (Z.eqb_spec (n mod 100) 0) as [E | E]; intro Hhi.
      * assert ((n - 1) / 100 = n / 100 - 1)%Z.
        { pose proof (Z.div_mod n 100 ltac:(lia)).
          pose proof (Z.div_mod (n - 1) 100 ltac:(lia)).
          pose proof (Z.mod_pos_bound (n - 1) 100 ltac:(lia)). lia. }
        lia.
      * assert ((n - 1) / 100 <= n / 100)%Z
          by (apply Z.div_le_mono; lia).
        lia.
  - rewrite verify_blockchain_integrity_inv by (apply reachable_inv; exact Hs).
    exact IH.
Qed.


(** *** Proof of work *)

Lemma memcmp_zero_target (h : string) :
  forall d,
    no_byte_below_zero h = true ->
    (d <= String.length h)%nat ->
    (memcmp h (zero_target d) d <= 0)%Z ->
    prefix (zero_target d) h = true.
Proof.
  induction h as [| c r IH]; intros d Hb Hlen Hm.
  - destruct d; [reflexivity | simpl in Hlen; lia].
  - destruct d as [| d]; [reflexivity |].
    simpl in Hb. apply andb_prop in Hb. destruct Hb as [Hc Hr].
    apply N.leb_le in Hc.
    simpl in Hlen.
    cbn [memcmp zero_target] in Hm.
    change (N_of_ascii "0") with 48%N in Hm.
    destruct (N.ltb_spec (N_of_ascii c) 48) as [Hlt | Hge]; [lia |].
    destruct (N.ltb_spec 48 (N_of_ascii c)) as [Hgt | Hle]; [lia |].
    assert (Hc0 : c = "0"%char).
    { rewrite <- (ascii_N_embedding c).
      replace (N_of_ascii c) with 48%N by lia. reflexivity. }
    subst c. cbn [prefix zero_target].
    destruct (ascii_dec "0" "0") as [_ | Hne]; [| contradiction].
    apply IH; [exact Hr | lia | exact Hm].
Qed.

(** X3. The hash of a block appended by [mine_block] passed the test of
    the search loop against the block's own difficulty; when the hash has
    no byte below the digit 0 and at least [difficulty] characters, it
    starts with [difficulty] zero digits. *)
Theorem mined_hash_meets_target fuel now miner ai_proof s b s' w' :
  mine_block fuel now miner ai_proof s = Mined b s' w' ->
  meets_target b = true /\
  (no_byte_below_zero (hash b) = true ->
   (Z.to_nat (difficulty b) <= String.length (hash b))%nat ->
   prefix (zero_target (Z.to_nat (difficulty b))) (hash b) = true).
Proof.
  intro H. apply mine_block_shape in H.
  destruct H as (tail & _ & _ & _ & _ & _ & Hm & _).
  split; [exact Hm |].
  intros Hb Hlen. apply memcmp_zero_target; [exact Hb | exact Hlen |].
  unfold meets_target in Hm. apply Z.leb_le in Hm. exact Hm.
Qed.

Lemma calculate_block_hash_renonce (nb : block_t) (n m : Z) :
  calculate_block_hash (set_nonce (calculate_block_hash (set_nonce nb n)) m)
  = calculate_block_hash (set_nonce nb m).
Proof. reflexivity. Qed.

Lemma nonce_search_from (fuel : nat) :
  forall nb n0,
    (0 <= n0)%Z ->
    (n0 + Z.of_nat fuel <= 2 ^ 32)%Z ->
    match nonce_search fuel nb n0 with
    | Some b =>
        (n0 <= nonce b < n0 + Z.of_nat fuel)%Z /\
        b = calculate_block_hash (set_nonce nb (nonce b)) /\
        meets_target b = true /\
        forall n, (n0 <= n < nonce b)%Z ->
                  meets_target (calculate_block_hash (set_nonce nb n)) = false
    | None =>
        forall n, (n0 <= n < n0 + Z.of_nat fuel)%Z ->
                  meets_target (calculate_block_hash (set_nonce nb n)) = false
    end.
Proof.
  induction fuel as [| fuel IH]; intros nb n0 H0 Hroom.
  - simpl. intros n Hn. lia.
  - cbn [nonce_search].
    set (candidate := calculate_block_hash (set_nonce nb n0)).
    change (memcmp (hash candidate)
              (zero_target (Z.to_nat (difficulty candidate)))
              (Z.to_nat (difficulty candidate)) <=? 0)%Z
      with (meets_target candidate).
    destruct (meets_target candidate) eqn:E.
    + split; [simpl; lia |]. split; [reflexivity |]. split; [exact E |].
      simpl. intros n Hn. lia.
    + destruct fuel as [| fuel'].
      * simpl. intros n Hn. assert (n = n0) by lia. subst n. exact E.
      * rewrite u32_small by lia.
        specialize (IH candidate (n0 + 1)%Z ltac:(lia) ltac:(lia)).
        destruct (nonce_search (S fuel') candidate (n0 + 1)) as [b |].
        -- destruct IH as (Hr & Hb & Hm & Hmin).
           unfold candidate in Hb. rewrite calculate_block_hash_renonce in Hb.
           split; [lia |]. split; [exact Hb |]. split; [exact Hm |].
           intros n Hn.
           destruct (Z.eq_dec n n0) as [-> | Hne]; [exact E |].
           specialize (Hmin n ltac:(lia)). unfold candidate in Hmin.
           rewrite calculate_block_hash_renonce in Hmin. exact Hmin.
        -- intros n Hn.
           destruct (Z.eq_dec n n0) as [-> | Hne]; [exact E |].
           specialize (IH n ltac:(lia)). unfold candidate in IH.
           rewrite calculate_block_hash_renonce in IH. exact IH.
Qed.

(** X4. The nonce search of [mine_block] returns the candidate with the
    least nonce (counting up from 0) whose hash passes the target test,
    and it is still searching after [fuel] turns only if no nonce below
    [fuel] passes.  For at most 2^32 turns, before the nonce wraps. *)
Theorem nonce_search_least (fuel : nat) (new_block : block_t) :
  (Z.of_nat fuel <= 2 ^ 32)%Z ->
  match nonce_search fuel new_block 0 with
  | Some b =>
      (0 <= nonce b < Z.of_nat fuel)%Z /\
      b = calculate_block_hash (set_nonce new_block (nonce b)) /\
      meets_target b = true /\
      forall n, (0 <= n < nonce b)%Z ->
                meets_target (calculate_block_hash (set_nonce new_block n))
                = false
  | None =>
      forall n, (0 <= n < Z.of_nat fuel)%Z ->
                meets_target (calculate_block_hash (set_nonce new_block n))
                = false
  end.
Proof.
  intro Hfuel.
  exact (nonce_search_from fuel new_block 0%Z ltac:(lia) ltac:(lia)).
Qed.

(** *** Minting and accounting *)

(** X5. A successful [mine_block] mints exactly the block's reward: the
    circulating supply, the miner's cached balance and the miner's
    [total_mined] all grow by the reward embedded in the block, the
    contribution counter grows by one, and the address stays. *)
Theorem mine_block_mints_reward fuel now miner ai_proof s b s' w' :
  mine_block fuel now miner ai_proof s = Mined b s' w' ->
  total_supply s' = total_supply s + reward_amount (ai_mining_data b) /\
  balance w' = balance miner + reward_amount (ai_mining_data b) /\
  total_mined (mining_stats w')
  = total_mined (mining_stats miner) + reward_amount (ai_mining_data b) /\
  total_contributions (mining_stats w')
  = u64 (total_contributions (mining_stats miner) + 1) /\
  address w' = address miner.
Proof.
  intro H. apply mine_block_shape in H.
  destruct H as (tail & _ & _ & _ & _ & _ & _ & -> & ->).
  repeat split.
Qed.

Lemma calculate_mining_reward_nonneg s type improvement :
  1 <= improvement -> total_supply s <= MAX_SUPPLY ->
  0 <= calculate_mining_reward s type improvement.
Proof.
  intros Hi Hs. rewrite calculate_mining_reward_unfold. cbv zeta.
  pose proof (spec_unclamped_reward_pos type improvement
                (blockchain_height s) Hi).
  destruct (Rgtb _ _); lra.
Qed.

Lemma mined_reward_nonneg fuel now miner ai_proof s b s' w' :
  total_supply s <= MAX_SUPPLY ->
  mine_block fuel now miner ai_proof s = Mined b s' w' ->
  0 <= reward_amount (ai_mining_data b).
Proof.
  intros Hs H. apply mine_block_shape in H.
  destruct H as (tail & _ & Hv & _ & _ & Hd & _).
  rewrite Hd. simpl. apply calculate_mining_reward_nonneg; [| exact Hs].
  apply verify_ai_improvement_true_iff in Hv. lra.
Qed.

(** Accounting facts of reachable states: the supply is the sum of the
    embedded rewards, no block carries a transaction, no reward is
    negative. *)
Lemma reachable_accounting s :
  reachable s ->
  total_supply s = Rsum (chain_rewards (blockchain s)) /\
  Forall (fun b => transactions b = [] /\
                   0 <= reward_amount (ai_mining_data b))
         (blockchain s).
Proof.
  induction 1 as [now | s fuel now miner ai_proof b s' w' Hs IH Hm | s Hs IH].
  - split.
    + simpl. lra.
    + constructor; [| constructor]. simpl. unfold INITIAL_REWARD.
      split; [reflexivity | lra].
  - destruct IH as [Hsum Hall].
    pose proof (inv_supply s (reachable_inv s Hs)) as Hcap.
    pose proof (mined_reward_nonneg _ _ _ _ _ _ _ _ Hcap Hm) as Hr.
    apply mine_block_mined in Hm.
    destruct Hm as (tail & _ & _ & _ & _ & _ & _ & _ & Htx & -> & _).
    cbn [blockchain total_supply]. split.
    + unfold chain_rewards. rewrite map_app, Rsum_app. simpl.
      fold (chain_rewards (blockchain s)). lra.
    + apply Forall_app. split; [exact Hall |].
      constructor; [split; assumption | constructor].
  - rewrite verify_blockchain_integrity_inv by (apply reachable_inv; exact Hs).
    exact IH.
Qed.

(** X6. In every reachable state the circulating supply is the sum of
    the rewards embedded in the blocks of the chain. *)
Theorem total_supply_is_sum_of_rewards (s : chain_state) :
  reachable s -> total_supply s = Rsum (chain_rewards (blockchain s)).
Proof. intro Hs. exact (proj1 (reachable_accounting s Hs)). Qed.

(** X7. From a reachable state every mined reward is non-negative, so
    the supply never shrinks; and once the supply has reached
    [MAX_SUPPLY], blocks are still appended but carry a reward of 0 and
    leave the supply at the cap. *)
Theorem mined_reward_saturates fuel now miner ai_proof s b s' w' :
  reachable s ->
  mine_block fuel now miner ai_proof s = Mined b s' w' ->
  0 <= reward_amount (ai_mining_data b) /\
  total_supply s <= total_supply s' /\
  (total_supply s = MAX_SUPPLY ->
   reward_amount (ai_mining_data b) = 0 /\ total_supply s' = MAX_SUPPLY).
Proof.
  intros Hs Hm.
  pose proof (inv_supply s (reachable_inv s Hs)) as Hcap.
  pose proof (mined_reward_nonneg _ _ _ _ _ _ _ _ Hcap Hm) as Hr.
  apply mine_block_mined in Hm.
  destruct Hm as (tail & _ & _ & _ & _ & _ & _ & Hrw & _ & -> & _).
  cbn [total_supply]. split; [exact Hr |]. split; [lra |].
  intro Hfull.
  pose proof (calculate_mining_reward_cap s 0%Z
                (improvement_percentage ai_proof)) as Hc.
  rewrite <- Hrw in Hc. split; lra.
Qed.

(** X8. [mine_block] never assigns the block's mining type: the field
    keeps the zero of [calloc], which is no enumerator, so the reward of
    every mined block is computed with the default multiplier 1.0: the
    halved base reward times the improvement factor, clamped to what is
    left under the cap. *)
Theorem mined_reward_uses_default_multiplier
    fuel now miner ai_proof s b s' w' :
  mine_block fuel now miner ai_proof s = Mined b s' w' ->
  mining_type (ai_mining_data b) = 0%Z /\
  reward_amount (ai_mining_data b) =
    spec_clamp (total_supply s)
      (spec_base (blockchain_height s)
       * spec_improvement_factor (improvement_percentage ai_proof)).
Proof.
  intro H. apply mine_block_shape in H.
  destruct H as (tail & _ & _ & _ & _ & Hd & _).
  rewrite Hd. cbn [mining_type reward_amount]. split; [reflexivity |].
  rewrite calculate_mining_reward_unfold. cbv zeta.
  unfold spec_unclamped_reward. change (type_multiplier 0%Z) with 1.0.
  unfold spec_clamp, Rmin.
  destruct (Rgtb _ _) eqn:E;
    [apply Rgtb_true in E | apply Rgtb_false in E];
    destruct (Rle_dec _ _); lra.
Qed.

Lemma scan_blocks_app (c1 c2 : list block_t) (addr : string) :
  forall bal,
    scan_blocks (c1 ++ c2) addr bal
    = scan_blocks c2 addr (scan_blocks c1 addr bal).
Proof.
  induction c1 as [| b c1 IH]; intro bal; [reflexivity |].
  simpl. apply IH.
Qed.

Lemma get_wallet_balance_app (c1 c2 : list block_t) (addr : string) :
  get_wallet_balance (c1 ++ c2) addr
  = get_wallet_balance c1 addr + get_wallet_balance c2 addr.
Proof.
  unfold get_wallet_balance.
  rewrite scan_blocks_app, (scan_blocks_sum c2), (scan_blocks_sum c2 addr 0.0).
  lra.
Qed.

Lemma Rsum_filter_le (A : Type) (f : A -> R) (p : A -> bool) (l : list A) :
  Forall (fun x => 0 <= f x) l ->
  0 <= Rsum (map f (filter p l)) <= Rsum (map f l).
Proof.
  induction 1 as [| x l Hx Hl IH]; simpl; [lra |].
  destruct (p x); simpl; lra.
Qed.

(** X9. No block of a reachable chain carries a transaction (transfers
    are never recorded into blocks), so the derived balance of an address
    is the sum of the rewards of the blocks it claims; it is never
    negative and never above the circulating supply. *)
Theorem reachable_balance_is_mined_rewards (s : chain_state) :
  reachable s ->
  Forall (fun b => transactions b = []) (blockchain s) /\
  forall addr,
    get_wallet_balance (blockchain s) addr
    = reward_credits (blockchain s) addr /\
    0 <= get_wallet_balance (blockchain s) addr <= total_supply s.
Proof.
  intro Hs. destruct (reachable_accounting s Hs) as [Hsum Hall].
  assert (Hnotx : Forall (fun b => transactions b = []) (blockchain s)).
  { eapply Forall_impl; [| exact Hall]. intros b [Hb _]. exact Hb. }
  split; [exact Hnotx |]. intro addr.
  assert (Hflat : all_transactions (blockchain s) = []).
  { unfold all_transactions. clear -Hnotx.
    induction Hnotx as [| b l Hb Hl IH]; [reflexivity |].
    simpl. rewrite Hb, IH. reflexivity. }
  assert (Heq : get_wallet_balance (blockchain s) addr
                = reward_credits (blockchain s) addr).
  { unfold get_wallet_balance. rewrite scan_blocks_sum.
    unfold spec_balance, transfer_credits, transfer_debits.
    rewrite Hflat. simpl. lra. }
  split; [exact Heq |]. rewrite Heq, Hsum. unfold reward_credits, chain_rewards.
  apply Rsum_filter_le.
  eapply Forall_impl; [| exact Hall]. intros b [_ Hb]. exact Hb.
Qed.

(** *** The stored claimant *)

Lemma substring_whole (s : string) : substring 0 (String.length s) s = s.
Proof.
  induction s as [| c s IH]; [reflexivity |].
  simpl. rewrite IH. reflexivity.
Qed.

(** An address shorter than [developer_id] is stored as it is. *)
Lemma strcpy_developer_id_fits (addr model : string) :
  (String.length addr < DEVELOPER_ID_SIZE)%nat ->
  strcpy_developer_id addr model = addr.
Proof.
  intro H. unfold strcpy_developer_id.
  apply Nat.ltb_lt in H. rewrite H. reflexivity.
Qed.

(** An address that fills [developer_id] reads on into the model
    identifier. *)
Lemma strcpy_developer_id_overrun (addr model : string) :
  String.length addr = DEVELOPER_ID_SIZE ->
  strcpy_developer_id addr model = (addr ++ model)%string.
Proof.
  intro H. unfold strcpy_developer_id.
  rewrite <- H at 2. rewrite substring_whole.
  rewrite H, Nat.ltb_irrefl. reflexivity.
Qed.

(** The derived balances after one mined block. *)
Lemma mine_block_balance_step fuel now miner ai_proof s b s' w' :
  mine_block fuel now miner ai_proof s = Mined b s' w' ->
  forall addr,
    get_wallet_balance (blockchain s') addr
    = get_wallet_balance (blockchain s) addr
      + (if String.eqb
              (strcpy_developer_id (address miner) (model_id ai_proof)) addr
         then reward_amount (ai_mining_data b) else 0).
Proof.
  intro H. apply mine_block_mined in H.
  destruct H as (tail & _ & _ & _ & _ & _ & Hdev & _ & Htx & -> & _ & _).
  intro addr. cbn [blockchain].
  rewrite get_wallet_balance_app. f_equal.
  unfold get_wallet_balance. simpl. rewrite Hdev, Htx. simpl.
  destruct (String.eqb _ addr); lra.
Qed.

(** The derived balance of the miner's own address after one mined
    block, when the address fills [developer_id] and the model
    identifier is not empty. *)
Lemma mine_block_overrun_balance fuel now miner ai_proof s b s' w' :
  mine_block fuel now miner ai_proof s = Mined b s' w' ->
  String.length (address miner) = DEVELOPER_ID_SIZE ->
  model_id ai_proof <> EmptyString ->
  get_wallet_balance (blockchain s') (address miner)
  = get_wallet_balance (blockchain s) (address miner).
Proof.
  intros H Hlen Hmodel.
  rewrite (mine_block_balance_step _ _ _ _ _ _ _ _ H).
  rewrite (strcpy_developer_id_overrun _ _ Hlen).
  destruct (String.eqb_spec (address miner ++ model_id ai_proof)%string
                            (address miner)) as [E | _]; [| lra].
  exfalso. exact (append_neq _ _ Hmodel E).
Qed.

(** X10. Appending a mined block raises the derived balance of the
    block's stored claimant by the block's reward and leaves the derived
    balance of every other address as it was, while the cached balance
    of the miner's wallet rises by the reward.  The stored claimant is
    the miner's address when that address is shorter than the 64 bytes
    of [developer_id]: mining then keeps the difference between cached
    and derived balance.  When the address has 64 characters, as the
    addresses of create_wallet have, and the model identifier is not
    empty, the claimant is the address followed by the model
    identifier: the derived balance of the miner's address does not
    move, and the cached balance moves away from it by the reward. *)
Theorem mine_block_credits_claimant fuel now miner ai_proof s b s' w' :
  mine_block fuel now miner ai_proof s = Mined b s' w' ->
  let reward := reward_amount (ai_mining_data b) in
  let claimant := strcpy_developer_id (address miner) (model_id ai_proof) in
  let gap w st := balance w - get_wallet_balance (blockchain st) (address w) in
  developer_id (ai_mining_data b) = claimant
  /\ (forall addr,
        get_wallet_balance (blockchain s') addr
        = get_wallet_balance (blockchain s) addr
          + (if String.eqb claimant addr then reward else 0))
  /\ balance w' = balance miner + reward
  /\ ((String.length (address miner) < DEVELOPER_ID_SIZE)%nat ->
      claimant = address miner /\ gap w' s' = gap miner s)
  /\ (String.length (address miner) = DEVELOPER_ID_SIZE ->
      model_id ai_proof <> EmptyString ->
      claimant = (address miner ++ model_id ai_proof)%string /\
      get_wallet_balance (blockchain s') (address miner)
      = get_wallet_balance (blockchain s) (address miner) /\
      gap w' s' = gap miner s + reward).
Proof.
  intro H. cbv zeta.
  pose proof (mine_block_balance_step _ _ _ _ _ _ _ _ H) as Hstep.
  pose proof (mine_block_overrun_balance _ _ _ _ _ _ _ _ H) as Hover.
  apply mine_block_mined in H.
  destruct H as (tail & _ & _ & _ & _ & _ & Hdev & _ & _ & _ & Hbal & Haddr).
  split; [exact Hdev |]. split; [exact Hstep |]. split; [exact Hbal |].
  split.
  - intro Hlen. split; [apply strcpy_developer_id_fits; exact Hlen |].
    rewrite Haddr, Hbal, Hstep.
    rewrite (strcpy_developer_id_fits _ _ Hlen), String.eqb_refl. lra.
  - intros Hlen Hmodel.
    split; [apply strcpy_developer_id_overrun; exact Hlen |].
    split; [exact (Hover Hlen Hmodel) |].
    rewrite Haddr, Hbal, (Hover Hlen Hmodel). lra.
Qed.


(** *** The integrity walk *)

Lemma return_code_verified (r : integrity_report) :
  return_code r = 1%Z <-> exists n, r = ChainVerified n.
Proof.
  destruct r; simpl; split; intro H;
    try discriminate; try (destruct H; discriminate); eauto.
Qed.

Lemma return_code_failed (r : integrity_report) :
  return_code r = 0%Z <-> report_index r <> None.
Proof.
  destruct r; simpl; split; intro H;
    try discriminate; try reflexivity; try contradiction.
Qed.

(** A walk that reports success has left the chain as it was and has
    counted the blocks that have a successor. *)
Lemma integrity_walk_verified (chain : list block_t) :
  forall v n chain',
    (0 <= v < 2 ^ 32)%Z ->
    integrity_walk chain v = (ChainVerified n, chain') ->
    chain' = chain /\
    n = u32 (v + Z.of_nat (Nat.pred (List.length chain))).
Proof.
  induction chain as [| c chain IH]; intros v n chain' Hv H.
  - simpl in H. injection H as <- <-. simpl.
    rewrite Z.add_0_r, u32_small by exact Hv. auto.
  - destruct chain as [| next rest].
    + simpl in H. injection H as <- <-. simpl.
      rewrite Z.add_0_r, u32_small by exact Hv. auto.
    + rewrite integrity_walk_step in H.
      destruct (negb (hash c =? prev_hash next)%string); [discriminate |].
      destruct (String.eqb_spec (hash c) (hash (calculate_block_hash c)))
        as [Hh | Hh]; cbn [negb] in H; [| discriminate].
      destruct (integrity_walk (next :: rest) (u32 (v + 1))) as [r rest']
        eqn:Hw.
      injection H as -> <-.
      assert (Hv' : (0 <= u32 (v + 1) < 2 ^ 32)%Z)
        by (unfold u32; apply Z.mod_pos_bound; lia).
      destruct (IH _ _ _ Hv' Hw) as [-> ->].
      rewrite (calculate_block_hash_fixed c Hh). split; [reflexivity |].
      unfold u32. rewrite Zplus_mod_idemp_l. f_equal.
      cbn [List.length Nat.pred]. lia.
Qed.

(** X11. [verify_blockchain_integrity] returns 1 exactly when every
    block's stored hash is the next block's [prev_hash] and every block
    that has a successor stores the digest of its own fields; it then
    leaves the chain as it was and has counted one block less than the
    chain holds. *)
Theorem verify_blockchain_integrity_accepts (chain : list block_t) :
  (return_code (fst (verify_blockchain_integrity chain)) = 1%Z <->
   linked chain /\ Forall hash_ok (removelast chain))
  /\ (return_code (fst (verify_blockchain_integrity chain)) = 1%Z ->
      verify_blockchain_integrity chain
      = (ChainVerified (u32 (Z.of_nat (Nat.pred (List.length chain)))),
         chain)).
Proof.
  unfold verify_blockchain_integrity. split.
  - rewrite return_code_verified, integrity_walk_valid_iff. tauto.
  - intro H. apply return_code_verified in H. destruct H as [n Hn].
    destruct (integrity_walk chain 0) as [r chain'] eqn:Hw.
    simpl in Hn. subst r.
    destruct (integrity_walk_verified chain 0%Z n chain' ltac:(lia) Hw)
      as [-> ->].
    reflexivity.
Qed.

(** The walk keeps the first block's position, index and [prev_hash]. *)
Lemma integrity_walk_head (c : block_t) (rest : list block_t) :
  forall v r chain',
    integrity_walk (c :: rest) v = (r, chain') ->
    exists c' rest',
      chain' = c' :: rest' /\ prev_hash c' = prev_hash c /\
      index c' = index c.
Proof.
  intros v r chain' H. destruct rest as [| next rest].
  - simpl in H. injection H as <- <-. eauto.
  - rewrite integrity_walk_step in H.
    destruct (negb (hash c =? prev_hash next)%string).
    + injection H as <- <-. eauto.
    + destruct (negb _).
      * injection H as <- <-. eauto.
      * destruct (integrity_walk (next :: rest) (u32 (v + 1))) as [r1 l1].
        injection H as <- <-. eauto.
Qed.

Lemma integrity_walk_failure_persists (chain : list block_t) :
  forall v r chain',
    integrity_walk chain v = (r, chain') ->
    report_index r <> None ->
    forall v2,
      report_index (fst (integrity_walk chain' v2)) = report_index r.
Proof.
  induction chain as [| c chain IH]; intros v r chain' H Hf v2.
  - simpl in H. injection H as <- <-. simpl in Hf. contradiction.
  - destruct chain as [| next rest].
    + simpl in H. injection H as <- <-. simpl in Hf. contradiction.
    + rewrite integrity_walk_step in H.
      destruct (String.eqb_spec (hash c) (prev_hash next)) as [Hl | Hl];
        cbn [negb] in H.
      * destruct (String.eqb_spec (hash c) (hash (calculate_block_hash c)))
          as [Hh | Hh]; cbn [negb] in H.
        -- destruct (integrity_walk (next :: rest) (u32 (v + 1)))
             as [r1 l1] eqn:Hw.
           injection H as <- <-.
           destruct (integrity_walk_head _ _ _ _ _ Hw)
             as (next' & rest' & -> & Hp & _).
           rewrite (calculate_block_hash_fixed c Hh).
           rewrite integrity_walk_step.
           rewrite Hp, <- Hl, String.eqb_refl. cbn [negb].
           rewrite <- Hh, String.eqb_refl. cbn [negb].
           rewrite fst_walk_cons.
           exact (IH _ _ _ Hw Hf (u32 (v2 + 1))).
        -- injection H as <- <-.
           rewrite integrity_walk_step.
           destruct (String.eqb_spec (hash (calculate_block_hash c))
                                     (prev_hash next)) as [Hl' | Hl'].
           ++ exfalso. apply Hh. rewrite Hl', Hl. reflexivity.
           ++ reflexivity.
      * injection H as <- <-.
        rewrite integrity_walk_step.
        destruct (String.eqb_spec (hash c) (prev_hash next)) as [Hl' | Hl'];
          [contradiction | reflexivity].
Qed.

(** X12. A failed verification repairs nothing: when
    [verify_blockchain_integrity] returns 0, running it again on the
    chain it left (one stored hash may have been overwritten) returns 0
    again and names the same block index. *)
Theorem verify_blockchain_integrity_failure_persists (chain : list block_t) :
  return_code (fst (verify_blockchain_integrity chain)) = 0%Z ->
  return_code
    (fst (verify_blockchain_integrity
            (snd (verify_blockchain_integrity chain)))) = 0%Z /\
  report_index
    (fst (verify_blockchain_integrity
            (snd (verify_blockchain_integrity chain))))
  = report_index (fst (verify_blockchain_integrity chain)).
Proof.
  unfold verify_blockchain_integrity. intro H.
  apply return_code_failed in H.
  destruct (integrity_walk chain 0) as [r chain'] eqn:Hw. simpl in *.
  pose proof (integrity_walk_failure_persists chain 0%Z r chain' Hw H 0%Z)
    as Hp.
  split; [| exact Hp].
  apply return_code_failed. rewrite Hp. exact H.
Qed.

Lemma integrity_walk_first_failure (pre : list block_t) :
  forall c next post v,
    Forall hash_ok pre -> linked (pre ++ [c]) ->
    (hash c <> prev_hash next ->
     fst (integrity_walk (pre ++ c :: next :: post) v)
     = HashMismatchAt (index c))
    /\ (hash c = prev_hash next -> ~ hash_ok c ->
        fst (integrity_walk (pre ++ c :: next :: post) v)
        = InvalidHashAt (index c)).
Proof.
  induction pre as [| p pre IH]; intros c next post v Hh Hl.
  - cbn [app]. rewrite integrity_walk_step.
    change (hash (calculate_block_hash c)) with (SHA256_hex (block_data c)).
    destruct (String.eqb_spec (hash c) (prev_hash next)) as [E | E]; simpl.
    + split; [intro; contradiction |]. intros _ Hbad.
      destruct (String.eqb_spec (hash c) (SHA256_hex (block_data c)))
        as [E' | E']; [contradiction | reflexivity].
    + split; [reflexivity | intro; contradiction].
  - pose proof (Forall_inv Hh) as Hp.
    pose proof (Forall_inv_tail Hh) as Hpre.
    assert (Hstep : forall x xs,
               pre ++ c :: next :: post = x :: xs ->
               hash p = prev_hash x ->
               fst (integrity_walk (p :: x :: xs) v)
               = fst (integrity_walk (x :: xs) (u32 (v + 1)))).
    { intros x xs _ Hpx. rewrite integrity_walk_step.
      rewrite Hpx, String.eqb_refl. simpl.
      change (hash (calculate_block_hash p)) with (SHA256_hex (block_data p)).
      rewrite <- Hpx. unfold hash_ok in Hp. rewrite <- Hp, String.eqb_refl.
      simpl. apply fst_walk_cons. }
    destruct pre as [| q pre'].
    + destruct Hl as [Hpc Hl].
      change (([p] ++ c :: next :: post)) with (p :: c :: next :: post).
      rewrite (Hstep c (next :: post) eq_refl Hpc).
      exact (IH c next post (u32 (v + 1)) Hpre Hl).
    + destruct Hl as [Hpq Hl].
      change ((p :: q :: pre') ++ c :: next :: post)
        with (p :: q :: (pre' ++ c :: next :: post)).
      rewrite (Hstep q (pre' ++ c :: next :: post) eq_refl Hpq).
      exact (IH c next post (u32 (v + 1)) Hpre Hl).
Qed.

(** X13. When every block before [c] passes both checks and [c] has a
    successor, the walk stops at [c] as soon as [c] fails one: a stored
    hash that is not the successor's [prev_hash] is reported as a hash
    mismatch at [c]'s index, and otherwise a stored hash that is not the
    digest of [c]'s fields is reported as an invalid hash at [c]'s
    index. *)
Theorem verify_blockchain_integrity_first_failure
    (pre : list block_t) (c next : block_t) (post : list block_t) :
  Forall hash_ok pre -> linked (pre ++ [c]) ->
  (hash c <> prev_hash next ->
   fst (verify_blockchain_integrity (pre ++ c :: next :: post))
   = HashMismatchAt (index c))
  /\ (hash c = prev_hash next -> ~ hash_ok c ->
      fst (verify_blockchain_integrity (pre ++ c :: next :: post))
      = InvalidHashAt (index c)).
Proof.
  intros Hh Hl. unfold verify_blockchain_integrity.
  exact (integrity_walk_first_failure pre c next post 0%Z Hh Hl).
Qed.

(** *** Transfers *)

Lemma process_transaction_low (tx : transaction_t) (l : ledger_t) :
  get_wallet_balance (ledger_chain l) (sender tx) < amount tx + fee tx ->
  process_transaction tx l = (false, l).
Proof.
  intro H. unfold process_transaction. apply Rltb_true in H. rewrite H.
  destruct (verify_transaction_signature tx); reflexivity.
Qed.

Lemma process_transaction_done (tx : transaction_t) (l : ledger_t) :
  verify_transaction_signature tx = true ->
  amount tx + fee tx <= get_wallet_balance (ledger_chain l) (sender tx) ->
  fst (process_transaction tx l) = true /\
  ledger_chain (snd (process_transaction tx l)) = ledger_chain l /\
  forall a,
    ledger_balances (snd (process_transaction tx l)) a =
    ledger_balances l a
    - (if String.eqb a (sender tx) then amount tx + fee tx else 0)
    + (if String.eqb a (receiver tx) then amount tx else 0).
Proof.
  intros Hsig Hcover. unfold process_transaction.
  rewrite Hsig. apply Rltb_false in Hcover. rewrite Hcover. simpl.
  split; [reflexivity |]. split; [reflexivity |].
  intro a. unfold update_balance.
  destruct (String.eqb a (sender tx)); destruct (String.eqb a (receiver tx));
    lra.
Qed.

Lemma process_transaction_chain (tx : transaction_t) (l : ledger_t) :
  ledger_chain (snd (process_transaction tx l)) = ledger_chain l.
Proof.
  unfold process_transaction.
  destruct (negb _); [reflexivity |]. destruct (Rltb _ _); reflexivity.
Qed.

(** X14. A transfer never touches the chain, and its balance check reads
    the chain only: a transfer that succeeded once succeeds again however
    often it is repeated, each time taking amount plus fee from the
    sender's kept balance and adding the amount to the receiver's. *)
Theorem process_transaction_repeats
    (tx : transaction_t) (l : ledger_t) (n : nat) :
  verify_transaction_signature tx = true ->
  amount tx + fee tx <= get_wallet_balance (ledger_chain l) (sender tx) ->
  let l' := Nat.iter n (fun l0 => snd (process_transaction tx l0)) l in
  fst (process_transaction tx l') = true /\
  ledger_chain l' = ledger_chain l /\
  forall a,
    ledger_balances l' a =
    ledger_balances l a
    - INR n * (if String.eqb a (sender tx) then amount tx + fee tx else 0)
    + INR n * (if String.eqb a (receiver tx) then amount tx else 0).
Proof.
  intros Hsig Hcover. cbv zeta.
  induction n as [| n IH].
  - simpl. split; [apply process_transaction_done; assumption |].
    split; [reflexivity |]. intro a. lra.
  - destruct IH as (_ & Hchain & Hbal).
    rewrite Nat.iter_succ.
    set (ln := Nat.iter n (fun l0 => snd (process_transaction tx l0)) l) in *.
    assert (Hcover' :
              amount tx + fee tx <=
              get_wallet_balance (ledger_chain ln) (sender tx))
      by (rewrite Hchain; exact Hcover).
    destruct (process_transaction_done tx ln Hsig Hcover')
      as (_ & Hchain1 & Hbal1).
    split.
    + apply process_transaction_done; [exact Hsig |].
      rewrite Hchain1, Hchain. exact Hcover.
    + split; [rewrite Hchain1; exact Hchain |].
      intro a. rewrite Hbal1, Hbal, S_INR.
      destruct (String.eqb a (sender tx));
        destruct (String.eqb a (receiver tx)); lra.
Qed.

(** X15. [process_transaction] checks no sign: with an accepted
    signature, a transfer whose amount plus fee is not positive passes
    the balance check for any sender whose derived balance is not
    negative, and "credits" the receiver with the negative amount. *)
Theorem process_transaction_accepts_negative
    (tx : transaction_t) (l : ledger_t) :
  verify_transaction_signature tx = true ->
  amount tx + fee tx <= 0 ->
  0 <= get_wallet_balance (ledger_chain l) (sender tx) ->
  fst (process_transaction tx l) = true /\
  (String.eqb (receiver tx) (sender tx) = false ->
   ledger_balances (snd (process_transaction tx l)) (receiver tx)
   = ledger_balances l (receiver tx) + amount tx /\
   ledger_balances (snd (process_transaction tx l)) (sender tx)
   = ledger_balances l (sender tx) - (amount tx + fee tx)).
Proof.
  intros Hsig Hneg Hbal.
  destruct (process_transaction_done tx l Hsig ltac:(lra)) as (Hok & _ & Hb).
  split; [exact Hok |]. intro Hne.
  rewrite !Hb, !String.eqb_refl, Hne.
  rewrite String.eqb_sym in Hne. rewrite Hne. split; lra.
Qed.

(** *** Derived balances *)

(** X16. The derived balance is additive over concatenated chains, and
    an address that claims no block and is neither sender nor receiver of
    any transaction has a derived balance of 0. *)
Theorem get_wallet_balance_untouched :
  (forall c1 c2 addr,
      get_wallet_balance (c1 ++ c2) addr
      = get_wallet_balance c1 addr + get_wallet_balance c2 addr)
  /\ (forall chain addr,
         Forall (fun b => developer_id (ai_mining_data b) <> addr /\
                          Forall (fun tx => sender tx <> addr /\
                                            receiver tx <> addr)
                                 (transactions b)) chain ->
         get_wallet_balance chain addr = 0).
Proof.
  split; [exact get_wallet_balance_app |].
  intros chain addr H. unfold get_wallet_balance.
  assert (Htx : forall txs bal,
             Forall (fun tx => sender tx <> addr /\ receiver tx <> addr) txs ->
             scan_transactions txs addr bal = bal).
  { induction txs as [| tx txs IH]; intros bal Hf; [reflexivity |].
    pose proof (Forall_inv Hf) as [Hs Hr].
    simpl. apply String.eqb_neq in Hs. apply String.eqb_neq in Hr.
    rewrite Hs, Hr. apply IH. exact (Forall_inv_tail Hf). }
  assert (Hb : forall bal, scan_blocks chain addr bal = bal).
  { induction H as [| b chain [Hd Ht] Hc IH]; intro bal; [reflexivity |].
    simpl. apply String.eqb_neq in Hd. rewrite Hd, (Htx _ _ Ht). apply IH. }
  rewrite Hb. lra.
Qed.

Lemma Rsum_map_zero (A : Type) (l : list A) :
  Rsum (map (fun _ => 0) l) = 0.
Proof. induction l as [| x l IH]; simpl; [| rewrite IH]; lra. Qed.

Lemma Rsum_map_plus (A : Type) (f g : A -> R) (l : list A) :
  Rsum (map (fun x => f x + g x) l) = Rsum (map f l) + Rsum (map g l).
Proof. induction l as [| x l IH]; simpl; [| rewrite IH]; lra. Qed.

Lemma Rsum_map_ext (A : Type) (f g : A -> R) (l : list A) :
  (forall x, f x = g x) -> Rsum (map f l) = Rsum (map g l).
Proof.
  intro H. induction l as [| x l IH]; simpl; [| rewrite IH, H]; reflexivity.
Qed.

Lemma Rsum_indicator (k : string) (v : R) (addrs : list string) :
  NoDup addrs -> In k addrs ->
  Rsum (map (fun a => if String.eqb k a then v else 0) addrs) = v.
Proof.
  induction 1 as [| a addrs Hna Hnd IH]; intro Hin; [contradiction |].
  simpl. destruct (String.eqb_spec k a) as [-> | Hne].
  - assert (Hz : Rsum (map (fun a0 => if String.eqb a a0 then v else 0) addrs)
                 = 0).
    { clear -Hna. induction addrs as [| b addrs IH]; [reflexivity |].
      simpl. destruct (String.eqb_spec a b) as [-> | _].
      - exfalso. apply Hna. left. reflexivity.
      - rewrite IH; [lra |]. intro H. apply Hna. right. exact H. }
    rewrite Hz. lra.
  - destruct Hin as [-> | Hin]; [contradiction |]. rewrite (IH Hin). lra.
Qed.

(** Summing, over distinct keys that cover the list, the values filed
    under each key gives the sum over the list. *)
Lemma Rsum_by_key (A : Type) (key : A -> string) (f : A -> R)
    (addrs : list string) (l : list A) :
  NoDup addrs ->
  Forall (fun x => In (key x) addrs) l ->
  Rsum (map (fun a => Rsum (map f (filter (fun x => String.eqb (key x) a) l)))
            addrs)
  = Rsum (map f l).
Proof.
  intros Hnd. induction 1 as [| x l Hx Hl IH]; simpl.
  - apply Rsum_map_zero.
  - rewrite <- IH, <- (Rsum_indicator (key x) (f x) addrs Hnd Hx).
    rewrite <- Rsum_map_plus. apply Rsum_map_ext. intro a.
    destruct (String.eqb (key x) a); simpl; lra.
Qed.

(** X17. Fees go to nobody: over any list of distinct addresses that
    covers every claimant, sender and receiver of a chain, the derived
    balances add up to the rewards embedded in the chain minus the fees
    of its transactions. *)
Theorem balances_sum_to_rewards_minus_fees
    (chain : list block_t) (addrs : list string) :
  NoDup addrs ->
  Forall (fun b => In (developer_id (ai_mining_data b)) addrs) chain ->
  Forall (fun tx => In (sender tx) addrs /\ In (receiver tx) addrs)
         (all_transactions chain) ->
  Rsum (map (get_wallet_balance chain) addrs)
  = Rsum (chain_rewards chain) - Rsum (map fee (all_transactions chain)).
Proof.
  intros Hnd Hclaim Htx.
  assert (Hs : Forall (fun tx => In (sender tx) addrs)
                      (all_transactions chain))
    by (eapply Forall_impl; [| exact Htx]; intros tx [H _]; exact H).
  assert (Hr : Forall (fun tx => In (receiver tx) addrs)
                      (all_transactions chain))
    by (eapply Forall_impl; [| exact Htx]; intros tx [_ H]; exact H).
  pose proof (Rsum_by_key block_t (fun b => developer_id (ai_mining_data b))
                (fun b => reward_amount (ai_mining_data b))
                addrs chain Hnd Hclaim) as Krew.
  pose proof (Rsum_by_key transaction_t receiver amount addrs
                (all_transactions chain) Hnd Hr) as Kcred.
  pose proof (Rsum_by_key transaction_t sender
                (fun tx => amount tx + fee tx) addrs
                (all_transactions chain) Hnd Hs) as Kdeb.
  rewrite Rsum_map_plus in Kdeb.
  rewrite (Rsum_map_ext _ (get_wallet_balance chain)
             (fun a => (reward_credits chain a + transfer_credits chain a)
                       + - transfer_debits chain a)).
  2:{ intro a. unfold get_wallet_balance. rewrite scan_blocks_sum.
      unfold spec_balance. lra. }
  rewrite !Rsum_map_plus.
  unfold reward_credits, transfer_credits, transfer_debits.
  unfold chain_rewards. rewrite Krew, Kcred.
  assert (Hneg : forall (g : string -> R) (l : list string),
             Rsum (map (fun a => - g a) l) = - Rsum (map g l)).
  { intros g l. induction l as [| a l IH]; simpl; [| rewrite IH]; lra. }
  rewrite Hneg, Kdeb. lra.
Qed.


(** *** Pool payouts *)

Lemma Rleb_true (x y : R) : Rleb x y = true <-> x <= y.
Proof.
  unfold Rleb. destruct (Rle_dec x y); split; intro H;
    solve [assumption | reflexivity | discriminate | contradiction].
Qed.

Lemma Rleb_false (x y : R) : Rleb x y = false <-> y < x.
Proof.
  unfold Rleb. destruct (Rle_dec x y) as [Hle | Hgt]; split; intro H;
    try reflexivity; try discriminate; lra.
Qed.

Lemma distribute_loop_chain (n : nat) :
  forall i pool rpm clock stack l,
    ledger_chain (distribute_loop n i pool rpm clock stack l)
    = ledger_chain l.
Proof.
  induction n as [| n IH]; intros i pool rpm clock stack l; [reflexivity |].
  cbn [distribute_loop]. rewrite IH. apply process_transaction_chain.
Qed.

Lemma distribute_loop_unfunded (n : nat) :
  forall i pool rpm clock stack l,
    (forall j, (i <= j < i + Z.of_nat n)%Z ->
               get_wallet_balance (ledger_chain l) "MINING_POOL"
               < rpm * calculate_miner_contribution pool j + TRANSACTION_FEE) ->
    distribute_loop n i pool rpm clock stack l = l.
Proof.
  induction n as [| n IH]; intros i pool rpm clock stack l H; [reflexivity |].
  cbn [distribute_loop].
  rewrite process_transaction_low.
  - cbn [snd]. apply IH. intros j Hj. apply H. lia.
  - cbn [sender amount fee reward_transaction]. apply H. lia.
Qed.

(** X18. [distribute_training_rewards] does nothing and returns 0 when
    the pending rewards are not positive; otherwise it returns 1 with the
    pending rewards reset to 0, whatever became of the payouts (their
    results are dropped), and it touches neither the pool balance, nor
    the miner count, nor the chain. *)
Theorem distribute_training_rewards_outcome
    (clock : Z -> Z) (stack : Z -> transaction_t)
    (pool : mining_pool_t) (l : ledger_t) :
  (pending_rewards (rewards pool) <= 0 ->
   distribute_training_rewards clock stack pool l = (false, pool, l))
  /\ (0 < pending_rewards (rewards pool) ->
      let '(ok, pool', l') :=
        distribute_training_rewards clock stack pool l in
      ok = true /\
      pending_rewards (rewards pool') = 0 /\
      pool_balance (rewards pool') = pool_balance (rewards pool) /\
      active_miners pool' = active_miners pool /\
      ledger_chain l' = ledger_chain l).
Proof.
  unfold distribute_training_rewards. split; intro H.
  - apply Rleb_true in H. rewrite H. reflexivity.
  - apply Rleb_false in H. rewrite H. cbn [pending_rewards rewards
      pool_balance active_miners].
    repeat split. apply distribute_loop_chain.
Qed.

(** X19. Payouts are sent from the address MINING_POOL.  When the
    derived balance of that address is below the transaction fee, as it
    is on any chain where MINING_POOL claims no block, and no miner's
    contribution factor is negative, every payout fails its balance
    check: the ledger is left as it was, and the pending rewards are
    reset to 0 all the same. *)
Theorem distribute_training_rewards_unfunded
    (clock : Z -> Z) (stack : Z -> transaction_t)
    (pool : mining_pool_t) (l : ledger_t) :
  0 < pending_rewards (rewards pool) ->
  (forall i, (0 <= i < active_miners pool)%Z ->
             0 <= calculate_miner_contribution pool i) ->
  get_wallet_balance (ledger_chain l) "MINING_POOL" < TRANSACTION_FEE ->
  snd (distribute_training_rewards clock stack pool l) = l /\
  pending_rewards
    (rewards (snd (fst (distribute_training_rewards clock stack pool l))))
  = 0.
Proof.
  intros Hpend Hcontrib Hbal. unfold distribute_training_rewards.
  pose proof Hpend as Hp. apply Rleb_false in Hp. rewrite Hp.
  cbn [fst snd rewards pending_rewards]. split; [| reflexivity].
  apply distribute_loop_unfunded. intros j Hj.
  assert (Hm : (0 < active_miners pool)%Z) by lia.
  assert (Hj' : (0 <= j < active_miners pool)%Z) by lia.
  pose proof (Hcontrib j Hj') as Hc.
  assert (0 < IZR (active_miners pool)) by (apply IZR_lt; exact Hm).
  assert (0 < pending_rewards (rewards pool) / IZR (active_miners pool))
    by (apply Rdiv_lt_0_compat; assumption).
  assert (0 <= pending_rewards (rewards pool) / IZR (active_miners pool)
               * calculate_miner_contribution pool j)
    by (apply Rmult_le_pos; lra).
  lra.
Qed.

(** *** Submission *)

Lemma consensus_wait_short (improvement : ai_verification_t) (budget : nat) :
  forall attempts,
    (confirmations (consensus improvement) < 3)%Z ->
    (attempts + Z.of_nat budget <= 30)%Z ->
    consensus_wait budget improvement attempts
    = (attempts + Z.of_nat budget)%Z.
Proof.
  induction budget as [| budget IH]; intros attempts Hc Hr.
  - simpl. lia.
  - cbn [consensus_wait].
    destruct (Z.ltb_spec (confirmations (consensus improvement)) 3);
      [| lia].
    destruct (Z.ltb_spec attempts 30); [| lia].
    cbn [andb]. rewrite IH by lia. lia.
Qed.

Lemma consensus_wait_enough (improvement : ai_verification_t) (budget : nat) :
  forall attempts,
    (3 <= confirmations (consensus improvement))%Z ->
    consensus_wait budget improvement attempts = attempts.
Proof.
  intros attempts Hc. destruct budget as [| budget]; [reflexivity |].
  cbn [consensus_wait].
  destruct (Z.ltb_spec (confirmations (consensus improvement)) 3);
    [lia | reflexivity].
Qed.

Lemma submit_ai_improvement_cases fuel now developer improvement s :
  snd (submit_ai_improvement fuel now developer improvement s) = MineRejected
  \/ snd (submit_ai_improvement fuel now developer improvement s)
     = mine_block fuel now developer
                  (request_distributed_verification improvement) s.
Proof.
  unfold submit_ai_improvement. destruct (_ <=? _)%Z; cbn [snd]; auto.
Qed.

(** X20. [submit_ai_improvement] mines exactly when [mine_block] on the
    claim returned by [request_distributed_verification] does: its own
    test of three confirmations is one of the gate's tests.  A claim
    that comes back with fewer than three confirmations first costs
    thirty one-second sleeps; any other claim costs none. *)
Theorem submit_ai_improvement_is_mine_block
    (fuel : nat) (now : Z) (developer : wallet_t)
    (improvement : ai_verification_t) (s : chain_state) :
  let verified := request_distributed_verification improvement in
  snd (submit_ai_improvement fuel now developer improvement s)
  = mine_block fuel now developer verified s
  /\ fst (submit_ai_improvement fuel now developer improvement s)
     = (if (confirmations (consensus verified) <? 3)%Z then 30 else 0)%Z.
Proof.
  cbv zeta. unfold submit_ai_improvement.
  set (verified := request_distributed_verification improvement).
  destruct (Z.leb_spec 3 (confirmations (consensus verified))) as [Hc | Hc].
  - cbn [fst snd]. split; [reflexivity |].
    rewrite consensus_wait_enough by exact Hc.
    destruct (Z.ltb_spec (confirmations (consensus verified)) 3);
      [lia | reflexivity].
  - cbn [fst snd]. split.
    + unfold mine_block.
      destruct (verify_ai_improvement verified) eqn:Hv; [| reflexivity].
      apply verify_ai_improvement_true_iff in Hv. lia.
    + rewrite consensus_wait_short by (simpl; lia).
      destruct (Z.ltb_spec (confirmations (consensus verified)) 3);
        [reflexivity | lia].
Qed.


(** ** Properties of the training coordinator *)

Lemma rand_fraction (r : Z) :
  (0 < RAND_MAX)%Z -> (0 <= r <= RAND_MAX)%Z ->
  0 <= IZR r / IZR RAND_MAX <= 1.
Proof.
  intros Hm Hr.
  assert (0 < IZR RAND_MAX) by (apply IZR_lt; exact Hm).
  assert (0 <= IZR r) by (apply IZR_le; lia).
  assert (IZR r <= IZR RAND_MAX) by (apply IZR_le; lia).
  split.
  - apply Rmult_le_pos; [assumption |].
    apply Rlt_le, Rinv_0_lt_compat. assumption.
  - apply Rmult_le_reg_r with (IZR RAND_MAX); [assumption |].
    unfold Rdiv. rewrite Rmult_assoc, Rinv_l by lra. lra.
Qed.

(** X21. One simulated training step keeps the loss at 0.01 or more and
    the accuracy at 0.99 or less, with the accuracy equal to
    [1 - loss / 10] cut off at 0.99; it advances the epoch by one and
    leaves the model, the epoch target and the wallet alone.  For a
    [rand()] result within its range the loss falls by at most 6% and
    rises by at most 4% (or sits at the floor 0.01). *)
Theorem simulate_training_progress_bounds
    (r1 r2 : Z) (slot : node_slot_t) (m : training_metrics_t) :
  let t := task (slot_node slot) in
  let slot' := fst (simulate_training_progress r1 r2 slot m) in
  let t' := task (slot_node slot') in
  0.01 <= loss t' /\
  accuracy t' <= 0.99 /\
  accuracy t' = Rmin 0.99 (1 - loss t' / 10) /\
  current_epoch t' = u32 (current_epoch t + 1) /\
  total_epochs t' = total_epochs t /\
  task_model_id t' = task_model_id t /\
  wallet (slot_node slot') = wallet (slot_node slot) /\
  ((0 < RAND_MAX)%Z -> (0 <= r1 <= RAND_MAX)%Z -> 0 <= loss t ->
   0.94 * loss t <= loss t' <= Rmax 0.01 (1.04 * loss t)).
Proof.
  cbv zeta. unfold simulate_training_progress.
  cbn [fst slot_node task set_task loss accuracy current_epoch total_epochs
       task_model_id wallet].
  set (l0 := loss (task (slot_node slot))).
  set (x := IZR r1 / IZR RAND_MAX).
  set (l1 := l0 * (1.0 - 0.01 + (x - 0.5) * 0.1)).
  assert (Hx : (0 < RAND_MAX)%Z -> (0 <= r1 <= RAND_MAX)%Z -> 0 <= l0 ->
               0.94 * l0 <= l1 <= 1.04 * l0).
  { intros Hm Hr Hl. pose proof (rand_fraction r1 Hm Hr) as Hf.
    fold x in Hf. unfold l1. nra. }
  unfold Rmin, Rmax.
  destruct (Rltb l1 0.01) eqn:E1;
    [apply Rltb_true in E1 | apply Rltb_false in E1];
    match goal with
    | |- context [Rgtb ?a ?b] =>
        destruct (Rgtb a b) eqn:E2;
        [apply Rgtb_true in E2 | apply Rgtb_false in E2]
    end;
    match goal with
    | |- context [Rle_dec 0.99 ?a] => destruct (Rle_dec 0.99 a)
    end;
    destruct (Rle_dec 0.01 (1.04 * l0));
    repeat match goal with |- _ /\ _ => split end;
    try reflexivity; try lra;
    intros Hm Hr Hl; specialize (Hx Hm Hr Hl); lra.
Qed.

(** X22. The claim that check_and_reward_improvement builds for an
    improvement above 1.0 carries [active / 2] confirmations when more
    than three nodes are active and 3 otherwise: that is fewer than 3
    exactly for 4 or 5 active nodes.  Its consensus score is at least
    0.85, so the gate admits it exactly when the node count is not 4 or 5
    and 0.95 times the node's accuracy is at least 0.5. *)
Theorem improvement_claim_admission
    (node : training_node_t) (prev_accuracy improvement : R)
    (active : Z) (r now : Z) :
  (0 < RAND_MAX)%Z -> (0 <= r <= RAND_MAX)%Z ->
  (0 <= active)%Z -> 1.0 < improvement ->
  let claim := improvement_claim node prev_accuracy improvement active r now in
  ((confirmations (consensus claim) < 3)%Z <-> active = 4%Z \/ active = 5%Z)
  /\ (verify_ai_improvement claim = true <->
      active <> 4%Z /\ active <> 5%Z /\
      0.5 <= accuracy (task node) * 0.95).
Proof.
  intros Hm Hr Ha Hi. cbv zeta.
  assert (Hconf : (confirmations
                     (consensus (improvement_claim node prev_accuracy
                                   improvement active r now)) < 3)%Z
                  <-> active = 4%Z \/ active = 5%Z).
  { unfold improvement_claim. cbn [consensus confirmations].
    destruct (Z.ltb_spec 3 active) as [H3 | H3].
    - split.
      + intro H. assert (active < 6)%Z; [| lia].
        destruct (Z.lt_ge_cases active 6) as [Hlt | Hge]; [exact Hlt |].
        assert (Hdiv : (6 / 2 <= active / 2)%Z)
          by (apply Z.div_le_mono; lia).
        change (6 / 2)%Z with 3%Z in Hdiv. lia.
      + intros [-> | ->]; reflexivity.
    - split; lia. }
  split; [exact Hconf |].
  rewrite verify_ai_improvement_true_iff.
  pose proof (rand_fraction r Hm Hr) as Hx.
  unfold improvement_claim in Hconf |- *.
  cbn [improvement_percentage consensus confirmations consensus_score
       metrics f1_score] in Hconf |- *.
  split.
  - intros (_ & Hc & _ & Hf).
    split.
    { intro H4.
      assert ((if (3 <? active)%Z then (active / 2)%Z else 3%Z) < 3)%Z
        by (apply Hconf; left; exact H4).
      lia. }
    split; [| exact Hf].
    intro H5.
    assert ((if (3 <? active)%Z then (active / 2)%Z else 3%Z) < 3)%Z
      by (apply Hconf; right; exact H5).
    lia.
  - intros (H4 & H5 & Hf).
    split; [lra |]. split.
    + destruct (Z.lt_ge_cases
                  (if (3 <? active)%Z then (active / 2)%Z else 3%Z) 3)
        as [Hlt | Hge]; [| lia].
      apply Hconf in Hlt. destruct Hlt as [Hlt | Hlt]; contradiction.
    + split; [nra | exact Hf].
Qed.

Lemma find_model_bound (repo : list (string * R)) (model : string) :
  forall idx, find_model repo model = Some idx -> (idx < List.length repo)%nat.
Proof.
  induction repo as [| [m a] repo IH]; intros idx H; [discriminate |].
  simpl in H. destruct (String.eqb m model).
  - injection H as <-. simpl. lia.
  - destruct (find_model repo model) as [i |]; [| discriminate].
    injection H as <-. simpl. specialize (IH i eq_refl). lia.
Qed.

Lemma set_best_accuracy_names (repo : list (string * R)) :
  forall idx x, map fst (set_best_accuracy repo idx x) = map fst repo.
Proof.
  induction repo as [| [m a] repo IH]; intros idx x; [reflexivity |].
  destruct idx as [| idx]; simpl; [reflexivity |]. rewrite IH. reflexivity.
Qed.

Lemma set_best_accuracy_get (repo : list (string * R)) :
  forall idx x j,
    (idx < List.length repo)%nat ->
    best_accuracy (set_best_accuracy repo idx x) j
    = if Nat.eqb j idx then x else best_accuracy repo j.
Proof.
  unfold best_accuracy.
  induction repo as [| [m a] repo IH]; intros idx x j Hlen;
    [simpl in Hlen; lia |].
  destruct idx as [| idx]; destruct j as [| j]; simpl; try reflexivity.
  apply IH. simpl in Hlen. lia.
Qed.

(** What a call that returns has done: nothing, or everything that
    follows one mined block. *)
Lemma check_and_reward_improvement_cases
    fuel now_claim now_mine r node ts s node' ts' s' :
  check_and_reward_improvement fuel now_claim now_mine r node ts s
  = Some (node', ts', s') ->
  (node', ts', s') = (node, ts, s)
  \/ exists idx b w' claim,
      find_model (repository ts) (task_model_id (task node)) = Some idx /\
      1.0 < (accuracy (task node) - best_accuracy (repository ts) idx) * 100.0
      /\ mine_block fuel now_mine (wallet node) claim s = Mined b s' w' /\
      node' = rewarded_node node w'
                ((accuracy (task node) - best_accuracy (repository ts) idx)
                 * 100.0) /\
      repository ts'
      = set_best_accuracy (repository ts) idx (accuracy (task node)) /\
      nodes ts' = nodes ts /\ active_nodes ts' = active_nodes ts /\
      total_qxc_mined (system_metrics ts')
      = get_wallet_balance (blockchain s') (address w') /\
      claim = request_distributed_verification
                (improvement_claim node (best_accuracy (repository ts) idx)
                   ((accuracy (task node) - best_accuracy (repository ts) idx)
                    * 100.0)
                   (active_nodes ts) r now_claim).
Proof.
  unfold check_and_reward_improvement. intro H.
  destruct (find_model _ _) as [idx |] eqn:Hf;
    [| left; injection H as <- <- <-; reflexivity].
  destruct (Rgtb _ _) eqn:Hg;
    [| left; injection H as <- <- <-; reflexivity].
  apply Rgtb_true in Hg.
  match type of H with
  | context [submit_ai_improvement ?f ?n ?w ?c ?st] =>
      destruct (submit_ai_improvement_cases f n w c st) as [Hs | Hs];
      rewrite Hs in H
  end.
  - left. injection H as <- <- <-. reflexivity.
  - destruct (mine_block _ _ _ _ _) as [| | | b s1 w1] eqn:Hm;
      try discriminate.
    + left. injection H as <- <- <-. reflexivity.
    + right. injection H as <- <- <-.
      exists idx, b, w1. eexists.
      repeat split; try eassumption; reflexivity.
Qed.


(** X23. A call of check_and_reward_improvement that returns has either
    changed nothing, or appended exactly one block, after finding that
    the node's accuracy beats the best one recorded for its model by
    more than 0.01: it then records the node's accuracy as the new best,
    credits the block's reward to the cached balance of the node's
    wallet, counts one more contributed block, and stores the derived
    balance of the wallet's address in [total_qxc_mined].  The block's
    claimant is what the two [strcpy]s of mine_block leave in
    [developer_id], from the wallet's address and the model identifier
    of the claim that came back from the distributed verification.  When
    the address has 64 characters, as the addresses of create_wallet
    have, and that model identifier is not empty, the claimant is not
    the address, and the balance stored in [total_qxc_mined] is the
    derived balance from before the block: the reward is not in it. *)
Theorem check_and_reward_improvement_effect
    fuel now_claim now_mine r node ts s node' ts' s' :
  check_and_reward_improvement fuel now_claim now_mine r node ts s
  = Some (node', ts', s') ->
  (node', ts', s') = (node, ts, s)
  \/ exists idx b,
      let claim :=
        request_distributed_verification
          (improvement_claim node (best_accuracy (repository ts) idx)
             ((accuracy (task node) - best_accuracy (repository ts) idx)
              * 100.0)
             (active_nodes ts) r now_claim) in
      find_model (repository ts) (task_model_id (task node)) = Some idx /\
      best_accuracy (repository ts) idx + 0.01 < accuracy (task node) /\
      blockchain s' = blockchain s ++ [b] /\
      developer_id (ai_mining_data b)
      = strcpy_developer_id (address (wallet node)) (model_id claim) /\
      best_accuracy (repository ts') idx = accuracy (task node) /\
      balance (wallet node')
      = balance (wallet node) + reward_amount (ai_mining_data b) /\
      blocks_contributed node' = u64 (blocks_contributed node + 1) /\
      total_qxc_mined (system_metrics ts')
      = get_wallet_balance (blockchain s') (address (wallet node')) /\
      (String.length (address (wallet node)) = DEVELOPER_ID_SIZE ->
       model_id claim <> EmptyString ->
       developer_id (ai_mining_data b) <> address (wallet node) /\
       total_qxc_mined (system_metrics ts')
       = get_wallet_balance (blockchain s) (address (wallet node))).
Proof.
  intro H. apply check_and_reward_improvement_cases in H.
  destruct H as [H | (idx & b & w' & claim & Hf & Hi & Hm & -> & Hrepo &
                      _ & _ & Hq & Hclaim)]; [left; exact H |].
  right. exists idx, b. cbv zeta. rewrite <- Hclaim. clear Hclaim.
  pose proof (mine_block_overrun_balance _ _ _ _ _ _ _ _ Hm) as Hover.
  apply mine_block_mined in Hm.
  destruct Hm as (tail & _ & _ & _ & _ & _ & Hdev & _ & _ & -> & Hbal & Haddr).
  cbn [blockchain wallet rewarded_node blocks_contributed] in Hq, Hover |- *.
  repeat match goal with |- _ /\ _ => split end;
    try assumption; try reflexivity.
  - lra.
  - rewrite Hrepo, set_best_accuracy_get by (eapply find_model_bound; eassumption).
    rewrite Nat.eqb_refl. reflexivity.
  - intros Hlen Hne. split.
    + rewrite Hdev, (strcpy_developer_id_overrun _ _ Hlen).
      apply append_neq. exact Hne.
    + rewrite Hq, Haddr. exact (Hover Hlen Hne).
Qed.

(** X24. check_and_reward_improvement never lowers a recorded best
    accuracy and never renames, adds or drops a model of the
    repository. *)
Theorem best_accuracy_never_decreases
    fuel now_claim now_mine r node ts s node' ts' s' :
  check_and_reward_improvement fuel now_claim now_mine r node ts s
  = Some (node', ts', s') ->
  map fst (repository ts') = map fst (repository ts) /\
  forall idx,
    best_accuracy (repository ts) idx <= best_accuracy (repository ts') idx.
Proof.
  intro H. apply check_and_reward_improvement_cases in H.
  destruct H as [H | (idx & b & w' & claim & Hf & Hi & _ & _ & Hrepo & _)].
  - injection H as _ -> _. split; [reflexivity | intro; lra].
  - rewrite Hrepo. split; [apply set_best_accuracy_names |].
    intro j.
    rewrite set_best_accuracy_get by (eapply find_model_bound; eassumption).
    destruct (Nat.eqb_spec j idx) as [-> | _]; lra.
Qed.

(** X25. check_and_reward_improvement changes nothing when the node's
    model is not in the repository, when the node's accuracy is not more
    than 0.01 above the recorded best, and, if the distributed
    verification leaves the confirmation count as built, whenever 4 or 5
    nodes are active: the claim then carries 2 confirmations. *)
Theorem check_and_reward_improvement_noop
    fuel now_claim now_mine r node ts s :
  (find_model (repository ts) (task_model_id (task node)) = None ->
   check_and_reward_improvement fuel now_claim now_mine r node ts s
   = Some (node, ts, s))
  /\ (forall idx,
         find_model (repository ts) (task_model_id (task node)) = Some idx ->
         accuracy (task node) <= best_accuracy (repository ts) idx + 0.01 ->
         check_and_reward_improvement fuel now_claim now_mine r node ts s
         = Some (node, ts, s))
  /\ ((forall v, confirmations (consensus (request_distributed_verification v))
                 = confirmations (consensus v)) ->
      active_nodes ts = 4%Z \/ active_nodes ts = 5%Z ->
      check_and_reward_improvement fuel now_claim now_mine r node ts s
      = Some (node, ts, s)).
Proof.
  unfold check_and_reward_improvement. split; [| split].
  - intros ->. reflexivity.
  - intros idx -> Hle.
    destruct (Rgtb _ _) eqn:E; [| reflexivity].
    apply Rgtb_true in E. lra.
  - intros Hreq Hact.
    destruct (find_model _ _) as [idx |]; [| reflexivity].
    destruct (Rgtb _ _); [| reflexivity].
    unfold submit_ai_improvement. rewrite Hreq.
    unfold improvement_claim. cbn [consensus confirmations].
    destruct Hact as [-> | ->]; reflexivity.
Qed.

Lemma find_model_none (repo : list (string * R)) (model : string) :
  find_model repo model = None <-> ~ In model (map fst repo).
Proof.
  induction repo as [| [m a] repo IH]; simpl.
  - split; [intros _ H; exact H | reflexivity].
  - destruct (String.eqb_spec m model) as [-> | Hne].
    + split; [discriminate | intro H; exfalso; apply H; left; reflexivity].
    + destruct (find_model repo model) as [i |]; simpl.
      * split; [discriminate |]. intro H. exfalso.
        assert (Hin : In model (map fst repo)).
        { destruct (in_dec string_dec model (map fst repo)) as [Hi | Hn];
            [exact Hi |].
          apply IH in Hn. discriminate. }
        apply H. right. exact Hin.
      * split; [| reflexivity]. intros _ [H | H]; [contradiction |].
        apply (proj1 IH eq_refl). exact H.
Qed.

Lemma find_model_app_new (repo : list (string * R)) (model : string) (a : R) :
  find_model (repo ++ [(model, a)]) model <> None.
Proof.
  intro H. apply find_model_none in H. apply H.
  rewrite map_app. apply in_or_app. right. left. reflexivity.
Qed.

Lemma NoDup_snoc (A : Type) (l : list A) (x : A) :
  NoDup l -> ~ In x l -> NoDup (l ++ [x]).
Proof.
  induction 1 as [| y l Hy Hl IH]; intro Hx; simpl.
  - constructor; [intros [] | constructor].
  - constructor.
    + intro Hin. apply in_app_or in Hin. destruct Hin as [Hin | [-> | []]].
      * exact (Hy Hin).
      * apply Hx. left. reflexivity.
    + apply IH. intro Hin. apply Hx. right. exact Hin.
Qed.

Lemma simulate_training_progress_fields r1 r2 slot m :
  let slot' := fst (simulate_training_progress r1 r2 slot m) in
  current_epoch (task (slot_node slot'))
  = u32 (current_epoch (task (slot_node slot)) + 1) /\
  total_epochs (task (slot_node slot'))
  = total_epochs (task (slot_node slot)) /\
  wallet (slot_node slot') = wallet (slot_node slot) /\
  active slot' = active slot.
Proof. repeat split. Qed.

Lemma assign_training_task_fields r now slot ts :
  let slot' := fst (assign_training_task r now slot ts) in
  current_epoch (task (slot_node slot')) = 0%Z /\
  total_epochs (task (slot_node slot'))
  = (if (0 <? gpu_count (resources slot))%Z then 100%Z else 50%Z) /\
  wallet (slot_node slot') = wallet (slot_node slot) /\
  active slot' = active slot.
Proof. repeat split. Qed.

(** X26. assign_training_task starts the node on a fresh task (epoch 0,
    loss 10, accuracy 0, a target of 100 epochs with an accelerator and
    50 without) and leaves its wallet alone.  The repository only ever
    grows at its end, by at most the new model with best accuracy 0; it
    stays within its capacity of 100 and free of duplicate names; and the
    assigned model is in it afterwards unless it was already full. *)
Theorem assign_training_task_effect
    (r now : Z) (slot : node_slot_t) (ts : training_system_t) :
  let slot' := fst (assign_training_task r now slot ts) in
  let ts' := snd (assign_training_task r now slot ts) in
  let t' := task (slot_node slot') in
  (current_epoch t' = 0%Z /\ loss t' = 10 /\ accuracy t' = 0 /\
   samples_processed t' = 0%Z /\
   total_epochs t'
   = (if (0 <? gpu_count (resources slot))%Z then 100%Z else 50%Z) /\
   wallet (slot_node slot') = wallet (slot_node slot))
  /\ (repository ts' = repository ts \/
      repository ts' = repository ts ++ [(task_model_id t', 0)])
  /\ ((List.length (repository ts) <= REPOSITORY_CAPACITY)%nat ->
      (List.length (repository ts') <= REPOSITORY_CAPACITY)%nat)
  /\ (NoDup (map fst (repository ts)) ->
      NoDup (map fst (repository ts')))
  /\ ((List.length (repository ts) < REPOSITORY_CAPACITY)%nat ->
      find_model (repository ts') (task_model_id t') <> None).
Proof.
  cbv zeta. unfold assign_training_task.
  cbn [fst snd slot_node set_slot_node set_task task current_epoch loss
       accuracy samples_processed total_epochs wallet task_model_id
       repository set_repository].
  set (model := if (0 <? gpu_count (resources slot))%Z
                then ("transformer_gpt_" ++ fmt_u (u32 (Z.rem r 10)))%string
                else ("mlp_classifier_" ++ fmt_u (u32 (Z.rem r 10)))%string).
  split.
  { repeat match goal with |- _ /\ _ => split end; try reflexivity; lra. }
  destruct (find_model (repository ts) model) as [i |] eqn:Hf; cbn [negb andb].
  - split; [left; reflexivity |]. split; [auto |]. split; [auto |].
    intros _. rewrite Hf. discriminate.
  - destruct (Nat.ltb_spec (List.length (repository ts)) REPOSITORY_CAPACITY)
      as [Hroom | Hfull].
    + split; [right; f_equal; f_equal; f_equal; lra |]. split.
      * intros _. rewrite length_app. simpl. lia.
      * split.
        -- intro Hnd. rewrite map_app. simpl.
           apply NoDup_snoc; [exact Hnd |].
           apply find_model_none in Hf. exact Hf.
        -- intros _. apply find_model_app_new.
    + split; [left; reflexivity |]. split; [auto |]. split; [auto |]. lia.
Qed.


Lemma first_inactive_none (slots : list node_slot_t) :
  forall k,
    Forall (fun slot => active slot <> 0%Z) slots ->
    first_inactive slots k = None.
Proof.
  induction slots as [| slot slots IH]; intros k H; [reflexivity |].
  simpl. pose proof (Forall_inv H) as Ha. apply Z.eqb_neq in Ha.
  rewrite Ha. apply IH. exact (Forall_inv_tail H).
Qed.

Lemma first_inactive_least (slots : list node_slot_t) :
  forall k i old,
    nth_error slots i = Some old ->
    active old = 0%Z ->
    (forall j slot, (j < i)%nat -> nth_error slots j = Some slot ->
                    active slot <> 0%Z) ->
    first_inactive slots k = Some (k + i)%nat.
Proof.
  induction slots as [| slot slots IH]; intros k i old Hn Ha Hb.
  - destruct i; discriminate.
  - destruct i as [| i]; simpl in Hn.
    + injection Hn as ->. simpl. rewrite Ha. simpl. f_equal. lia.
    + simpl. assert (Hs : active slot <> 0%Z)
        by (apply (Hb 0%nat slot); [lia | reflexivity]).
      apply Z.eqb_neq in Hs. rewrite Hs.
      rewrite (IH (S k) i old Hn Ha).
      * f_equal. lia.
      * intros j slot' Hj Hnj. apply (Hb (S j) slot'); [lia | exact Hnj].
Qed.

Lemma set_slot_length (slots : list node_slot_t) :
  forall i x, List.length (set_slot slots i x) = List.length slots.
Proof.
  induction slots as [| e slots IH]; intros i x; [reflexivity |].
  destruct i; simpl; [reflexivity | rewrite IH; reflexivity].
Qed.

Lemma set_slot_other (slots : list node_slot_t) :
  forall i x j, j <> i -> nth_error (set_slot slots i x) j = nth_error slots j.
Proof.
  induction slots as [| e slots IH]; intros i x j Hne; [reflexivity |].
  destruct i as [| i]; destruct j as [| j]; simpl; try reflexivity.
  - contradiction.
  - apply IH. lia.
Qed.

Lemma set_slot_same (slots : list node_slot_t) :
  forall i x, (i < List.length slots)%nat ->
              nth_error (set_slot slots i x) i = Some x.
Proof.
  induction slots as [| e slots IH]; intros i x Hlt; [simpl in Hlt; lia |].
  destruct i as [| i]; simpl; [reflexivity |]. apply IH. simpl in Hlt. lia.
Qed.

(** X27. On the registry of 1000 slots, add_training_node returns 0 and
    changes nothing when every slot is active.  Otherwise it takes the
    first inactive slot, at position [i]: the slot becomes active with
    the given identifier and address, port 9547 + i and a fresh wallet
    with balance 0; every other slot stays as it was, and the active
    count goes up by one. *)
Theorem add_training_node_effect
    (r now : Z) (id ip : string) (ts : training_system_t) :
  List.length (nodes ts) = Z.to_nat MAX_TRAINING_NODES ->
  (Forall (fun slot => active slot <> 0%Z) (nodes ts) ->
   add_training_node r now id ip ts = (false, ts))
  /\ (forall i old,
         nth_error (nodes ts) i = Some old ->
         active old = 0%Z ->
         (forall j slot, (j < i)%nat -> nth_error (nodes ts) j = Some slot ->
                         active slot <> 0%Z) ->
         let ts' := snd (add_training_node r now id ip ts) in
         fst (add_training_node r now id ip ts) = true /\
         active_nodes ts' = u32 (active_nodes ts + 1) /\
         List.length (nodes ts') = List.length (nodes ts) /\
         (forall j, j <> i -> nth_error (nodes ts') j = nth_error (nodes ts) j)
         /\ exists slot',
             nth_error (nodes ts') i = Some slot' /\
             active slot' = 1%Z /\
             node_id (slot_node slot') = id /\
             ip_address slot' = ip /\
             port slot' = (TRAINING_PORT + Z.of_nat i)%Z /\
             wallet (slot_node slot') = create_wallet id /\
             balance (wallet (slot_node slot')) = 0).
Proof.
  intro Hlen. unfold add_training_node.
  rewrite firstn_all2 by lia.
  split.
  - intro Hall. rewrite first_inactive_none by exact Hall. reflexivity.
  - intros i old Hn Ha Hb.
    rewrite (first_inactive_least (nodes ts) 0 i old Hn Ha Hb).
    cbn [Nat.add].
    assert (Hi : (i < List.length (nodes ts))%nat)
      by (apply nth_error_Some; rewrite Hn; discriminate).
    unfold assign_training_task.
    cbn [fst snd nodes active_nodes set_repository set_slot_node slot_node
         resources gpu_count active ip_address port].
    split; [reflexivity |]. split; [reflexivity |].
    split; [apply set_slot_length |].
    split; [intros j Hj; apply set_slot_other; exact Hj |].
    eexists. split; [apply set_slot_same; exact Hi |].
    cbn [active slot_node set_task node_id ip_address port wallet].
    repeat match goal with |- _ /\ _ => split end; try reflexivity.
    + unfold u16, TRAINING_PORT. apply Z.mod_small.
      rewrite Hlen in Hi. unfold MAX_TRAINING_NODES in Hi. lia.
    + simpl. lra.
Qed.

(** X28. One coordination turn on a slot, when it returns: an inactive
    slot is skipped with nothing changed; an active slot ends the turn
    with its epoch below its epoch target (a node that reached the target
    was given a new task), with the same wallet address, and, from a
    supply within the cap, with a cached balance no lower than before.
    The chain state stays reachable. *)
Theorem sync_node_effect
    fuel now_claim now_mine now_task r1 r2 r3 r4 slot ts s slot' ts' s' :
  sync_node fuel now_claim now_mine now_task r1 r2 r3 r4 slot ts s
  = Some (slot', ts', s') ->
  (active slot = 0%Z -> (slot', ts', s') = (slot, ts, s))
  /\ (active slot <> 0%Z ->
      (current_epoch (task (slot_node slot'))
       < total_epochs (task (slot_node slot')))%Z)
  /\ address (wallet (slot_node slot')) = address (wallet (slot_node slot))
  /\ (total_supply s <= MAX_SUPPLY ->
      balance (wallet (slot_node slot))
      <= balance (wallet (slot_node slot')))
  /\ (reachable s -> reachable s').
Proof.
  unfold sync_node. intro H.
  destruct (Z.eqb_spec (active slot) 0) as [Ha | Ha].
  { injection H as <- <- <-.
    repeat match goal with |- _ /\ _ => split end; auto; try lra.
    intro; contradiction. }
  destruct (simulate_training_progress r1 r2 slot (system_metrics ts))
    as [slot1 m1] eqn:Hsim.
  pose proof (simulate_training_progress_fields r1 r2 slot (system_metrics ts))
    as Hf. cbv zeta in Hf. rewrite Hsim in Hf. cbn [fst] in Hf.
  destruct Hf as (He1 & Ht1 & Hw1 & _).
  set (ts1 := mk_training_system (nodes ts) (active_nodes ts)
                                 (repository ts) m1) in *.
  assert (Hchk : exists node2 ts2,
             (if (total_epochs (task node2) <=? current_epoch (task node2))%Z
              then
                let slot3 := set_slot_node (set_slot_node slot1 node2)
                                           (finalize_training node2) in
                let (slot4, ts4) :=
                  assign_training_task r4 now_task slot3 ts2 in
                Some (slot4, ts4, s')
              else Some (set_slot_node slot1 node2, ts2, s'))
             = Some (slot', ts', s') /\
             task node2 = task (slot_node slot1) /\
             address (wallet node2) = address (wallet (slot_node slot1)) /\
             (total_supply s <= MAX_SUPPLY ->
              balance (wallet (slot_node slot1)) <= balance (wallet node2)) /\
             (reachable s -> reachable s')).
  { destruct ((0 <? current_epoch (task (slot_node slot1)))%Z
              && (Z.rem (current_epoch (task (slot_node slot1))) 10 =? 0)%Z).
    - destruct (check_and_reward_improvement fuel now_claim now_mine r3
                  (slot_node slot1) ts1 s) as [[[node2 ts2] s2] |] eqn:Hc;
        [| discriminate].
      exists node2, ts2.
      assert (Hs2 : s2 = s' /\ True).
      { split; [| exact I].
        destruct (total_epochs (task node2) <=? current_epoch (task node2))%Z.
        - cbv zeta in H.
          destruct (assign_training_task _ _ _ _) as [slot4 ts4].
          injection H as _ _ Hs. exact Hs.
        - injection H as _ _ Hs. exact Hs. }
      destruct Hs2 as [-> _].
      split; [exact H |].
      apply check_and_reward_improvement_cases in Hc.
      destruct Hc as [Hc | (idx & b & w' & claim & _ & _ & Hm & -> & _)].
      + injection Hc as -> _ ->.
        repeat match goal with |- _ /\ _ => split end; auto; lra.
      + cbn [rewarded_node task wallet].
        pose proof Hm as Hm'. apply mine_block_mined in Hm'.
        destruct Hm' as (tail & _ & _ & _ & _ & _ & _ & _ & _ & _ & Hbal & Had).
        repeat match goal with |- _ /\ _ => split end.
        * reflexivity.
        * exact Had.
        * intro Hcap.
          pose proof (mined_reward_nonneg _ _ _ _ _ _ _ _ Hcap Hm). lra.
        * intro Hr. eapply reachable_mine; [exact Hr | exact Hm].
    - exists (slot_node slot1), ts1.
      assert (Hs2 : s = s').
      { destruct (total_epochs (task (slot_node slot1))
                  <=? current_epoch (task (slot_node slot1)))%Z.
        - cbv zeta in H.
          destruct (assign_training_task _ _ _ _) as [slot4 ts4].
          injection H as _ _ Hs. exact Hs.
        - injection H as _ _ Hs. exact Hs. }
      subst s'. split; [exact H |].
      repeat match goal with |- _ /\ _ => split end; auto; lra. }
  clear H. destruct Hchk as (node2 & ts2 & H & Htask & Haddr & Hbal & Hreach).
  split; [intro; contradiction |].
  destruct (Z.leb_spec (total_epochs (task node2)) (current_epoch (task node2)))
    as [Hdone | Hgo].
  - cbv zeta in H.
    pose proof (assign_training_task_fields r4 now_task
                  (set_slot_node (set_slot_node slot1 node2)
                                 (finalize_training node2)) ts2) as Hf.
    cbv zeta in Hf.
    destruct (assign_training_task _ _ _ _) as [slot4 ts4].
    cbn [fst] in Hf. injection H as <- _.
    destruct Hf as (He & Ht & Hw & _).
    rewrite He, Ht, Hw.
    cbn [set_slot_node slot_node finalize_training wallet set_balance
         address balance].
    split; [intros _; destruct (0 <? _)%Z; lia |].
    split; [rewrite Haddr, Hw1; reflexivity |].
    split; [| exact Hreach].
    intro Hcap. specialize (Hbal Hcap). rewrite Hw1 in Hbal. lra.
  - injection H as <- _.
    cbn [set_slot_node slot_node].
    split; [intros _; exact Hgo |].
    split; [rewrite Haddr, Hw1; reflexivity |].
    split; [| exact Hreach].
    intro Hcap. specialize (Hbal Hcap). rewrite Hw1 in Hbal. exact Hbal.
Qed.


(** ** Properties of the kernel detectors *)

Lemma u64_small (z : Z) : (0 <= z < 2 ^ 64)%Z -> u64 z = z.
Proof. intro H. unfold u64. apply Z.mod_small. exact H. Qed.

(** X29. detect_memory_optimization fires exactly when more than 1000
    pages were freed since the last detection.  The claim it then fills
    in has an improvement above 10, three confirmations, a consensus
    score of 0.85 and an F1 score of 0.8, so the gate admits it whatever
    was measured; the static is moved to the new page count.  When it
    does not fire, static and claim stay as they were.  For page counts
    whose sum with 1000 stays below 2^64. *)
Theorem detect_memory_optimization_admitted
    (memory_freed prev : Z) (verification : ai_verification_t) :
  (0 <= prev)%Z -> (prev + 1000 < 2 ^ 64)%Z -> (memory_freed < 2 ^ 64)%Z ->
  let '(fired, prev', claim) :=
    detect_memory_optimization memory_freed prev verification in
  (fired = true <-> (prev + 1000 < memory_freed)%Z)
  /\ (fired = true ->
      prev' = memory_freed /\
      10 < improvement_percentage claim /\
      verify_ai_improvement claim = true)
  /\ (fired = false -> prev' = prev /\ claim = verification).
Proof.
  intros Hp Hroom Hm. unfold detect_memory_optimization.
  rewrite (u64_small (prev + 1000)) by lia.
  destruct (Z.ltb_spec (prev + 1000) memory_freed) as [Hlt | Hge].
  - split; [split; auto |]. split; [| discriminate].
    intros _. split; [reflexivity |].
    rewrite (u64_small (memory_freed - prev)) by lia.
    assert (Hi : 1000 < IZR (memory_freed - prev))
      by (apply (IZR_lt 1000); lia).
    cbn [improvement_percentage].
    split; [lra |].
    apply verify_ai_improvement_true_iff.
    cbn [improvement_percentage consensus confirmations consensus_score
         metrics f1_score].
    repeat match goal with |- _ /\ _ => split end; try lra; lia.
  - split; [split; [discriminate | lia] |].
    split; [discriminate | auto].
Qed.

(** X30. detect_performance_improvement never fires while its static
    baseline is 0: it stores the current performance as the baseline.
    The claims of detect_performance_improvement and
    detect_scheduler_improvement carry an improvement above 1, three
    confirmations and a consensus score of 0.9 and 0.88, and the measured
    value itself as F1 score: the gate admits them exactly when that
    value, the product of CPU and memory efficiency or the scheduler
    efficiency, is at least 0.5. *)
Theorem detect_efficiency_admission
    (stats : kernel_stats_t) (baseline scheduler_efficiency prev : R)
    (verification : ai_verification_t) :
  (baseline = 0 ->
   detect_performance_improvement stats baseline verification
   = (false, cpu_efficiency stats * memory_efficiency stats, verification))
  /\ (let '(fired, _, claim) :=
        detect_performance_improvement stats baseline verification in
      fired = true ->
      (verify_ai_improvement claim = true <->
       0.5 <= cpu_efficiency stats * memory_efficiency stats))
  /\ (let '(fired, prev', claim) :=
        detect_scheduler_improvement stats scheduler_efficiency prev
                                     verification in
      (fired = true <-> prev + 0.02 < scheduler_efficiency) /\
      (fired = true ->
       prev' = scheduler_efficiency /\
       (verify_ai_improvement claim = true <-> 0.5 <= scheduler_efficiency))).
Proof.
  split; [| split].
  - intros ->. unfold detect_performance_improvement, Reqb.
    destruct (Req_dec_T 0 0.0) as [_ | Hne]; [reflexivity |].
    exfalso. apply Hne. lra.
  - unfold detect_performance_improvement.
    destruct (Reqb baseline 0.0); [discriminate |].
    destruct (Rgtb _ _) eqn:E; [| discriminate].
    apply Rgtb_true in E. intros _.
    rewrite verify_ai_improvement_true_iff.
    cbn [improvement_percentage consensus confirmations consensus_score
         metrics f1_score].
    split; [intros (_ & _ & _ & Hf); exact Hf |].
    intro Hf. repeat match goal with |- _ /\ _ => split end; try lra; lia.
  - unfold detect_scheduler_improvement.
    destruct (Rgtb _ _) eqn:E;
      [apply Rgtb_true in E | apply Rgtb_false in E].
    + split; [split; [intros _; lra | reflexivity] |].
      intros _. split; [reflexivity |].
      rewrite verify_ai_improvement_true_iff.
      cbn [improvement_percentage consensus confirmations consensus_score
           metrics f1_score].
      split; [intros (_ & _ & _ & Hf); exact Hf |].
      intro Hf. repeat match goal with |- _ /\ _ => split end; try lra; lia.
    + split; [split; [discriminate | intro; lra] | discriminate].
Qed.

End Ledger.

Arguments mk_ledger {contribution_store}.
Arguments ledger_chain {contribution_store}.
Arguments ledger_balances {contribution_store}.
Arguments ledger_contributions {contribution_store}.
Arguments process_transaction verify_transaction_signature
  {contribution_store}.

(** ** The theorems at concrete inputs *)

Lemma log10_lt_1 (x : R) : 0 < x < 10 -> log10 x < 1.
Proof.
  intros [H0 H1]. unfold log10.
  pose proof ln_10_pos as Hp.
  assert (ln x < ln 10) by (apply ln_increasing; lra).
  apply Rmult_lt_reg_r with (ln 10); [exact Hp |].
  unfold Rdiv. rewrite Rmult_assoc, Rinv_l; lra.
Qed.

Lemma sample_proof_admitted : verify_ai_improvement sample_proof = true.
Proof.
  apply verify_ai_improvement_true_iff. simpl. repeat split; try lra; lia.
Qed.

(** One block mined on top of the genesis block, with the all-zero
    digest: the first nonce meets the difficulty. *)
Lemma sample_mine_succeeds :
  exists b s' w',
    mine_block zero_digest blank_fmt 1 0 sample_wallet sample_proof
               (qxc_init zero_digest blank_fmt 0)
    = Mined b s' w'.
Proof.
  unfold mine_block. rewrite sample_proof_admitted.
  cbn -[calculate_mining_reward credit_miner].
  do 3 eexists. reflexivity.
Qed.

Lemma verify_ai_improvement_gate_witness :
  verify_ai_improvement sample_proof = true /\
  verify_ai_improvement two_confirmations_proof = false.
Proof.
  split.
  - apply (proj2 (proj2 (verify_ai_improvement_gate sample_proof)));
      reflexivity.
  - apply (proj1 (proj2 (verify_ai_improvement_gate two_confirmations_proof))).
    reflexivity.
Defined.


Lemma total_supply_capped_witness :
  exists b s' w',
    mine_block zero_digest blank_fmt 1 0 sample_wallet sample_proof
               (qxc_init zero_digest blank_fmt 0)
    = Mined b s' w' /\
    total_supply (qxc_init zero_digest blank_fmt 0)
    + reward_amount (ai_mining_data b) <= MAX_SUPPLY /\
    total_supply s' <= MAX_SUPPLY.
Proof.
  destruct sample_mine_succeeds as (b & s' & w' & H).
  exists b, s', w'. split; [exact H |]. split.
  - exact (proj1 (proj1 (total_supply_capped zero_digest blank_fmt)
                    _ _ _ _ _ _ _ _ H)).
  - apply (proj2 (total_supply_capped zero_digest blank_fmt)).
    eapply reachable_mine; [apply reachable_init | exact H].
Defined.

Lemma mined_chain_verifies_witness :
  exists b s' w',
    mine_block zero_digest blank_fmt 1 0 sample_wallet sample_proof
               (qxc_init zero_digest blank_fmt 0)
    = Mined b s' w' /\
    return_code
      (fst (verify_blockchain_integrity zero_digest blank_fmt (blockchain s')))
    = 1%Z.
Proof.
  destruct sample_mine_succeeds as (b & s' & w' & H).
  exists b, s', w'. split; [exact H |].
  apply (mined_chain_verifies zero_digest blank_fmt s').
  eapply reachable_mine; [apply reachable_init | exact H].
Defined.

Lemma genesis_claimant_balance :
  get_wallet_balance (blockchain (qxc_init zero_digest blank_fmt 0))
                     "QENEX_FOUNDATION" = 100.
Proof. unfold get_wallet_balance. cbn. unfold INITIAL_REWARD. lra. Qed.

(** C7 as stated fails when the signature check rejects: the genesis
    claimant's derived balance of 100 covers amount 1 plus fee 0.001, and
    yet the transfer fails and nothing is debited. *)
Lemma process_transaction_rejects_signature :
  let l := mk_ledger (blockchain (qxc_init zero_digest blank_fmt 0))
                     (fun _ => 0) tt in
  amount sample_transfer + fee sample_transfer
    <= get_wallet_balance (ledger_chain l) (sender sample_transfer) /\
  process_transaction (fun _ => false) (fun _ _ c => c) sample_transfer l
    = (false, l).
Proof.
  cbv zeta. split.
  - change (ledger_chain _) with (blockchain (qxc_init zero_digest blank_fmt 0)).
    change (sender sample_transfer) with "QENEX_FOUNDATION".
    rewrite genesis_claimant_balance. simpl. lra.
  - reflexivity.
Qed.

Lemma process_transaction_outcome_witness :
  let l := mk_ledger (blockchain (qxc_init zero_digest blank_fmt 0))
                     (fun _ => 0) tt in
  let l' := snd (process_transaction (fun _ => true) (fun _ _ c => c)
                                     sample_transfer l) in
  fst (process_transaction (fun _ => true) (fun _ _ c => c) sample_transfer l)
    = true /\
  ledger_balances l' "QENEX_FOUNDATION" = 0 - (1 + 0.001) + 0 /\
  ledger_balances l' "bob" = 0 - 0 + 1.
Proof.
  cbv zeta.
  destruct (proj2 (proj2 (process_transaction_outcome
                            (fun _ => true) unit (fun _ _ c => c)
                            sample_transfer
                            (mk_ledger
                               (blockchain (qxc_init zero_digest blank_fmt 0))
                               (fun _ => 0) tt)))
              eq_refl) as (Hok & _ & Hbal).
  - change (ledger_chain _) with (blockchain (qxc_init zero_digest blank_fmt 0)).
    change (sender sample_transfer) with "QENEX_FOUNDATION".
    rewrite genesis_claimant_balance. simpl. lra.
  - split; [exact Hok |]. split.
    + exact (Hbal "QENEX_FOUNDATION").
    + exact (Hbal "bob").
Defined.

Lemma kernel_reward_bounds (h : Z) :
  spec_base h * 1.8 < spec_unclamped_reward MINING_TYPE_KERNEL_ENHANCE 10 h
  /\ spec_unclamped_reward MINING_TYPE_KERNEL_ENHANCE 10 h < spec_base h * 3.6.
Proof.
  unfold spec_unclamped_reward, spec_improvement_factor.
  change (type_multiplier MINING_TYPE_KERNEL_ENHANCE) with 1.8.
  pose proof (spec_base_pos h) as Hb.
  assert (0 < log10 (1 + 10 / 10)) by (apply log10_pos; lra).
  assert (log10 (1 + 10 / 10) < 1) by (apply log10_lt_1; lra).
  split; nra.
Qed.

Lemma spec_base_first_era : spec_base 209999 = 100.
Proof.
  unfold spec_base, INITIAL_REWARD.
  change (Z.to_nat (209999 / HALVING_INTERVAL)) with 0%nat. simpl. lra.
Qed.

Lemma spec_base_second_era : spec_base 210000 = 50.
Proof.
  unfold spec_base, INITIAL_REWARD.
  change (Z.to_nat (210000 / HALVING_INTERVAL)) with 1%nat. simpl. lra.
Qed.

Lemma spec_base_genesis : spec_base 0 = 100.
Proof.
  unfold spec_base, INITIAL_REWARD.
  change (Z.to_nat (0 / HALVING_INTERVAL)) with 0%nat. simpl. lra.
Qed.

Lemma log10_hundredth : log10 (1 + -9.9 / 10) = -2.
Proof.
  replace (1 + -9.9 / 10) with (/ (10 * 10)) by lra.
  unfold log10. pose proof ln_10_pos as Hp.
  rewrite ln_Rinv by lra. rewrite ln_mult by lra.
  field. lra.
Qed.

(** *** A run up to the first halving boundary *)

Lemma ninety_percent_proof_admitted :
  verify_ai_improvement ninety_percent_proof = true.
Proof.
  apply verify_ai_improvement_true_iff. simpl. repeat split; try lra; lia.
Qed.

(** The all-zero digest passes the test of the search loop at every
    difficulty. *)
Lemma memcmp_zero_target_le (k d : nat) :
  (memcmp (zero_target k) (zero_target d) d <= 0)%Z.
Proof.
  revert k. induction d as [| d IH]; intro k; [simpl; lia |].
  destruct k as [| k]; cbn [memcmp zero_target].
  - change (N_of_ascii zero <? N_of_ascii "0")%N with true. cbv iota. lia.
  - change (N_of_ascii "0" <? N_of_ascii "0")%N with false. cbv iota.
    apply IH.
Qed.

(** Under the all-zero digest the first nonce is accepted on every
    chain. *)
Lemma zero_digest_mines_on now miner ai_proof s tail :
  verify_ai_improvement ai_proof = true ->
  tail_block (blockchain s) = Some tail ->
  exists b s' w',
    mine_block zero_digest blank_fmt 1 now miner ai_proof s = Mined b s' w'.
Proof.
  intros Hv Ht. unfold mine_block. rewrite Hv, Ht. cbn [negb].
  cbv zeta. cbn [nonce_search]. cbv zeta.
  match goal with
  | |- context [(memcmp ?h (zero_target ?d) ?d <=? 0)%Z] =>
      replace (memcmp h (zero_target d) d <=? 0)%Z with true
        by (symmetry; apply Z.leb_le; exact (memcmp_zero_target_le 64 d))
  end.
  do 3 eexists. reflexivity.
Qed.

(** [walk_prev] stops at the block [k] places before [p]. *)
Lemma walk_prev_nth (k : nat) :
  forall p before,
    (k <= List.length before)%nat ->
    walk_prev k p before = nth k (p :: before) p.
Proof.
  induction k as [| k IH]; intros p before Hk.
  - destruct before; reflexivity.
  - destruct before as [| q before]; [simpl in Hk; lia |].
    cbn [walk_prev]. rewrite IH by (simpl in Hk; lia).
    change (nth (S k) (p :: q :: before) p) with (nth k (q :: before) p).
    apply nth_indep. simpl in Hk |- *. lia.
Qed.

Lemma log10_10 : log10 10 = 1.
Proof. unfold log10. pose proof ln_10_pos. field. lra. Qed.

Lemma first_era_reward (h : Z) :
  (0 <= h < HALVING_INTERVAL)%Z -> spec_unclamped_reward 0%Z 90 h = 200.
Proof.
  intro Hh. unfold spec_unclamped_reward, spec_base, spec_improvement_factor.
  rewrite Z.div_small by exact Hh.
  replace (1 + 90 / 10) with 10 by lra. rewrite log10_10.
  change (type_multiplier 0%Z) with 1.0. unfold INITIAL_REWARD. simpl. lra.
Qed.

(** With one block a minute the difficulty stays at 4. *)
Lemma steady_difficulty (s : chain_state) (t : block_t) (l : list block_t)
    (z : Z) :
  blockchain s = rev (t :: l) ->
  blockchain_height s = (z + 1)%Z ->
  Z.of_nat (List.length (t :: l)) = (z + 1)%Z ->
  (forall k b, nth_error (t :: l) k = Some b ->
               timestamp b = (60 * (z - Z.of_nat k))%Z /\ difficulty b = 4%Z) ->
  calculate_difficulty s t = 4%Z.
Proof.
  intros Hchain Hh Hlen Hinv.
  destruct (Hinv 0%nat t eq_refl) as [Ht Hd].
  unfold calculate_difficulty. rewrite Hh.
  destruct (Z.eqb_spec ((z + 1) mod DIFFICULTY_ADJUSTMENT_INTERVAL) 0)
    as [E | E]; cbn [negb]; [| exact Hd].
  cbv zeta. rewrite Hchain, rev_involutive. cbn [List.tl].
  unfold DIFFICULTY_ADJUSTMENT_INTERVAL in *.
  change (Z.to_nat (100 - 1)) with 99%nat.
  assert (Hbig : (100 <= z + 1)%Z).
  { apply Z.mod_divide in E; [| lia]. destruct E as [q Hq].
    cbn [List.length] in Hlen. lia. }
  rewrite walk_prev_nth by (cbn [List.length] in Hlen; lia).
  destruct (nth_error (t :: l) 99) as [p |] eqn:Hp.
  - rewrite (nth_error_nth _ _ _ Hp).
    destruct (Hinv 99%nat p Hp) as [Hpt _].
    rewrite Ht, Hpt.
    replace (60 * (z - Z.of_nat 0) - 60 * (z - Z.of_nat 99))%Z with 5940%Z
      by lia.
    change (u64 5940) with 5940%Z.
    change (5940 <? 100 * 60 / 2)%Z with false.
    change (100 * 60 * 2 <? 5940)%Z with false. cbv iota. exact Hd.
  - apply nth_error_None in Hp. lia.
Qed.

(** The run starts at [qxc_init]. *)
Lemma minute_chain_init : minute_chain (qxc_init zero_digest blank_fmt 0) 0.
Proof.
  exists (genesis_block zero_digest blank_fmt 0), [].
  split; [reflexivity |]. split; [reflexivity |]. split; [reflexivity |].
  split.
  - intros k b Hk. destruct k as [| k].
    + injection Hk as <-. split; reflexivity.
    + destruct k; discriminate Hk.
  - cbn [qxc_init total_supply]. unfold Rmin, INITIAL_REWARD, MAX_SUPPLY.
    destruct (Rle_dec _ _); lra.
Qed.

(** One more block, a minute later. *)
Lemma minute_chain_step (s : chain_state) (z : Z) :
  (0 <= z < 209999)%Z ->
  minute_chain s z ->
  exists b s' w',
    mine_block zero_digest blank_fmt 1 (60 * (z + 1)) sample_wallet
               ninety_percent_proof s
    = Mined b s' w' /\
    minute_chain s' (z + 1).
Proof.
  intros Hz (t & l & Hc & Hh & Hlen & Hinv & Hsup).
  assert (Htail : tail_block (blockchain s) = Some t).
  { rewrite Hc. cbn [rev]. apply tail_block_snoc. }
  destruct (zero_digest_mines_on (60 * (z + 1)) sample_wallet
              ninety_percent_proof s t ninety_percent_proof_admitted Htail)
    as (b & s' & w' & Hm).
  exists b, s', w'. split; [exact Hm |].
  destruct (mine_block_shape _ _ _ _ _ _ _ _ _ _ Hm)
    as (tail & Ht' & _ & Hts & Hdf & Hdata & _ & Hs' & _).
  rewrite Htail in Ht'. injection Ht' as <-.
  exists b, (t :: l).
  rewrite Hs'. cbn [blockchain blockchain_height total_supply].
  split; [rewrite Hc; reflexivity |].
  split; [rewrite Hh; apply u32_small; lia |].
  split; [cbn [List.length] in Hlen |- *; lia |].
  split.
  - intros k b0 Hk. destruct k as [| k].
    + injection Hk as <-. split.
      * rewrite Hts. rewrite u64_small by lia. cbn [Z.of_nat]. lia.
      * rewrite Hdf. eapply steady_difficulty; eassumption.
    + cbn [nth_error] in Hk. destruct (Hinv k b0 Hk) as [Hk1 Hk2].
      split; [rewrite Hk1; lia | exact Hk2].
  - rewrite Hdata. cbn [reward_amount].
    change (improvement_percentage ninety_percent_proof) with 90.
    rewrite calculate_mining_reward_unfold. cbv zeta.
    rewrite Hh, first_era_reward by (unfold HALVING_INTERVAL; lia).
    rewrite Hsup, plus_IZR.
    assert (0 <= IZR z) by (apply IZR_le; lia).
    unfold Rmin, MAX_SUPPLY.
    destruct (Rgtb _ _) eqn:E;
      [apply Rgtb_true in E | apply Rgtb_false in E];
      repeat destruct (Rle_dec _ _); lra.
Qed.

(** The run reaches every height up to 210000. *)
Lemma minute_chain_reachable (z : Z) :
  (0 <= z)%Z -> (z < 210000)%Z ->
  exists s, reachable zero_digest blank_fmt s /\ minute_chain s z.
Proof.
  intro Hz. pattern z. apply natlike_ind; [| | exact Hz].
  - intros _. eexists. split; [apply reachable_init | apply minute_chain_init].
  - intros x Hx IH Hlt. destruct IH as (s & Hr & Hs); [lia |].
    destruct (minute_chain_step s x ltac:(lia) Hs) as (b & s' & w' & Hm & Hs').
    exists s'. split.
    + eapply reachable_mine; [exact Hr | exact Hm].
    + exact Hs'.
Qed.

(** At heights 209999 and 210000 of that run the supply is exhausted
    and the reward is 0. *)
Lemma minute_chain_saturated :
  exists s b s' w',
    reachable zero_digest blank_fmt s /\
    mine_block zero_digest blank_fmt 1 (60 * (209998 + 1)) sample_wallet
               ninety_percent_proof s
    = Mined b s' w' /\
    blockchain_height s = 209999%Z /\
    blockchain_height s' = (209999 + 1)%Z /\
    total_supply s = MAX_SUPPLY /\
    total_supply s' = MAX_SUPPLY.
Proof.
  destruct (minute_chain_reachable 209998) as (s & Hr & Hs); [lia | lia |].
  destruct (minute_chain_step s 209998 ltac:(lia) Hs)
    as (b & s' & w' & Hm & Hs').
  exists s, b, s', w'.
  destruct Hs as (_ & _ & _ & Hh & _ & _ & Hsup).
  destruct Hs' as (_ & _ & _ & Hh' & _ & _ & Hsup').
  repeat match goal with |- _ /\ _ => split end;
    try assumption.
  - rewrite Hsup. unfold Rmin, MAX_SUPPLY. destruct (Rle_dec _ _); lra.
  - rewrite Hsup'. change (209998 + 1)%Z with 209999%Z.
    unfold Rmin, MAX_SUPPLY. destruct (Rle_dec _ _); lra.
Qed.

(** C8 as stated fails under the cap: with one coin left to issue the
    reward is 1 on both sides of the first halving boundary, neither
    halved nor smaller.  It fails in the same way in a run of the
    ledger: mining one block a minute for a claim of a 90% improvement
    exhausts the supply long before block 210000, and at heights 209999
    and 210000 of that run the reward is 0 on both sides of the
    boundary.  The claim also fails below the gate minimum: at an
    improvement of -9.9 the reward is -180 before the first halving and
    -90 after it, so it grows with the height. *)
Lemma calculate_mining_reward_clamped_at_boundary :
  ((209999 + 1) mod HALVING_INTERVAL = 0)%Z /\
  calculate_mining_reward (mk_chain_state [] 209999 20999999)
                          MINING_TYPE_KERNEL_ENHANCE 10 = 1 /\
  calculate_mining_reward (mk_chain_state [] (209999 + 1) 20999999)
                          MINING_TYPE_KERNEL_ENHANCE 10 = 1 /\
  calculate_mining_reward (mk_chain_state [] 0 100)
                          MINING_TYPE_KERNEL_ENHANCE (-9.9) = -180 /\
  calculate_mining_reward (mk_chain_state [] 210000 100)
                          MINING_TYPE_KERNEL_ENHANCE (-9.9) = -90 /\
  exists s b s' w',
    reachable zero_digest blank_fmt s /\
    mine_block zero_digest blank_fmt 1 (60 * (209998 + 1)) sample_wallet
               ninety_percent_proof s
    = Mined b s' w' /\
    blockchain_height s = 209999%Z /\
    blockchain_height s' = (209999 + 1)%Z /\
    total_supply s' = total_supply s /\
    calculate_mining_reward s MINING_TYPE_KERNEL_ENHANCE 10 = 0 /\
    calculate_mining_reward s' MINING_TYPE_KERNEL_ENHANCE 10 = 0.
Proof.
  split; [reflexivity |].
  pose proof (kernel_reward_bounds 209999) as [L1 _].
  pose proof (kernel_reward_bounds 210000) as [L2 _].
  rewrite spec_base_first_era in L1. rewrite spec_base_second_era in L2.
  change (209999 + 1)%Z with 210000%Z.
  rewrite !calculate_mining_reward_unfold. cbv zeta.
  cbn [total_supply blockchain_height]. unfold MAX_SUPPLY.
  split; [| split; [| split; [| split]]].
  - destruct (Rgtb _ _) eqn:E; [lra | apply Rgtb_false in E; lra].
  - destruct (Rgtb _ _) eqn:E; [lra | apply Rgtb_false in E; lra].
  - unfold spec_unclamped_reward, spec_improvement_factor.
    rewrite log10_hundredth, spec_base_genesis.
    change (type_multiplier MINING_TYPE_KERNEL_ENHANCE) with 1.8.
    destruct (Rgtb _ _) eqn:E; [apply Rgtb_true in E; lra | lra].
  - unfold spec_unclamped_reward, spec_improvement_factor.
    rewrite log10_hundredth, spec_base_second_era.
    change (type_multiplier MINING_TYPE_KERNEL_ENHANCE) with 1.8.
    destruct (Rgtb _ _) eqn:E; [apply Rgtb_true in E; lra | lra].
  - destruct minute_chain_saturated
      as (s & b & s' & w' & Hr & Hm & Hh & Hh' & Hsup & Hsup').
    exists s, b, s', w'.
    repeat match goal with |- _ /\ _ => split end; try assumption.
    + rewrite Hsup, Hsup'. reflexivity.
    + apply (calculate_mining_reward_within_cap s MINING_TYPE_KERNEL_ENHANCE 10);
        [lra | rewrite Hsup; apply Rle_refl | exact Hsup].
    + apply (calculate_mining_reward_within_cap s' MINING_TYPE_KERNEL_ENHANCE
               10);
        [lra | rewrite Hsup'; apply Rle_refl | exact Hsup'].
Qed.

Lemma calculate_mining_reward_halving_witness :
  calculate_mining_reward (mk_chain_state [] 210000 100)
                          MINING_TYPE_KERNEL_ENHANCE 10
  <= calculate_mining_reward (mk_chain_state [] 0 100)
                             MINING_TYPE_KERNEL_ENHANCE 10
  /\ calculate_mining_reward (mk_chain_state [] (209999 + 1) 100)
                             MINING_TYPE_KERNEL_ENHANCE 10
     = calculate_mining_reward (mk_chain_state [] 209999 100)
                               MINING_TYPE_KERNEL_ENHANCE 10 / 2.
Proof.
  destruct (calculate_mining_reward_halving MINING_TYPE_KERNEL_ENHANCE 10 100)
    as [Hmono Hhalf].
  - lra.
  - split.
    + apply Hmono. lia.
    + apply (Hhalf [] [] 209999%Z).
      * lia.
      * reflexivity.
      * pose proof (kernel_reward_bounds 209999) as [_ U].
        rewrite spec_base_first_era in U. unfold MAX_SUPPLY. lra.
Defined.

Lemma block_indices_consecutive_witness :
  exists b s' w',
    mine_block zero_digest blank_fmt 1 0 sample_wallet sample_proof
               (qxc_init zero_digest blank_fmt 0)
    = Mined b s' w' /\
    index b = 1%Z /\
    blockchain_height s' = 2%Z /\
    blockchain s' = blockchain (qxc_init zero_digest blank_fmt 0) ++ [b] /\
    nth_error (blockchain s') 1 = Some b /\
    (forall i c, nth_error (blockchain s') i = Some c -> index c = Z.of_nat i).
Proof.
  destruct sample_mine_succeeds as (b & s' & w' & H).
  exists b, s', w'. split; [exact H |].
  pose proof (block_indices_consecutive zero_digest blank_fmt)
    as (_ & Hstep & Hall).
  assert (Hr0 : reachable zero_digest blank_fmt
                  (qxc_init zero_digest blank_fmt 0))
    by apply reachable_init.
  destruct (Hstep _ _ _ _ _ _ _ _ Hr0 ltac:(simpl; lia) H)
    as (Hi & Hh & Hc).
  split; [exact Hi |]. split; [exact Hh |]. split; [exact Hc |].
  split; [rewrite Hc; reflexivity |].
  apply Hall.
  - eapply reachable_mine; [exact Hr0 | exact H].
  - rewrite Hc. simpl. lia.
Defined.

(** ** The further properties at concrete inputs *)

(** With the all-zero digest the first nonce does, for every admitted
    claim. *)
Lemma zero_digest_mines (miner : wallet_t) (ai_proof : ai_verification_t) :
  verify_ai_improvement ai_proof = true ->
  exists b s' w',
    mine_block zero_digest blank_fmt 1 0 miner ai_proof
               (qxc_init zero_digest blank_fmt 0)
    = Mined b s' w'.
Proof.
  intro Hv. unfold mine_block. rewrite Hv.
  cbn -[calculate_mining_reward credit_miner].
  do 3 eexists. reflexivity.
Qed.

Lemma calculate_difficulty_step_witness :
  (1 <= calculate_difficulty (qxc_init zero_digest blank_fmt 0)
          (genesis_block zero_digest blank_fmt 0))%Z.
Proof.
  apply (calculate_difficulty_step (qxc_init zero_digest blank_fmt 0)
           (genesis_block zero_digest blank_fmt 0)).
  simpl. lia.
Defined.

Lemma difficulty_bounded_witness :
  exists b s' w',
    mine_block zero_digest blank_fmt 1 0 sample_wallet sample_proof
               (qxc_init zero_digest blank_fmt 0)
    = Mined b s' w' /\
    nth_error (blockchain s') 1 = Some b /\
    (1 <= difficulty b <= 4 + Z.of_nat 1 / 100)%Z.
Proof.
  destruct sample_mine_succeeds as (b & s' & w' & H).
  exists b, s', w'. split; [exact H |].
  assert (Hr : reachable zero_digest blank_fmt s')
    by (eapply reachable_mine; [apply reachable_init | exact H]).
  destruct (mine_block_mined _ _ _ _ _ _ _ _ _ _ H)
    as (tail & _ & _ & _ & _ & _ & _ & _ & _ & Hs' & _).
  assert (Hb : nth_error (blockchain s') 1 = Some b)
    by (rewrite Hs'; reflexivity).
  split; [exact Hb |].
  apply (difficulty_bounded zero_digest blank_fmt s' Hr); [| exact Hb].
  rewrite Hs'. cbn [blockchain qxc_init List.length app]. lia.
Defined.

Lemma mined_hash_meets_target_witness :
  exists b s' w',
    mine_block zero_digest blank_fmt 1 0 sample_wallet sample_proof
               (qxc_init zero_digest blank_fmt 0)
    = Mined b s' w' /\
    meets_target b = true.
Proof.
  destruct sample_mine_succeeds as (b & s' & w' & H).
  exists b, s', w'. split; [exact H |].
  exact (proj1 (mined_hash_meets_target zero_digest blank_fmt
                  _ _ _ _ _ _ _ _ H)).
Defined.

Lemma nonce_search_least_witness :
  match nonce_search zero_digest blank_fmt 3 transfer_block 0 with
  | Some b => (0 <= nonce b < 3)%Z /\ meets_target b = true
  | None => False
  end.
Proof.
  pose proof (nonce_search_least zero_digest blank_fmt 3 transfer_block
                ltac:(simpl; lia)) as H.
  destruct (nonce_search zero_digest blank_fmt 3 transfer_block 0)
    as [b |] eqn:E.
  - destruct H as (Hn & _ & Hm & _). split; assumption.
  - discriminate E.
Defined.

Lemma mine_block_mints_reward_witness :
  exists b s' w',
    mine_block zero_digest blank_fmt 1 0 sample_wallet sample_proof
               (qxc_init zero_digest blank_fmt 0)
    = Mined b s' w' /\
    balance w' = balance sample_wallet + reward_amount (ai_mining_data b).
Proof.
  destruct sample_mine_succeeds as (b & s' & w' & H).
  exists b, s', w'. split; [exact H |].
  exact (proj1 (proj2 (mine_block_mints_reward zero_digest blank_fmt
                         _ _ _ _ _ _ _ _ H))).
Defined.

Lemma total_supply_is_sum_of_rewards_witness :
  exists b s' w',
    mine_block zero_digest blank_fmt 1 0 sample_wallet sample_proof
               (qxc_init zero_digest blank_fmt 0)
    = Mined b s' w' /\
    total_supply s' = Rsum (chain_rewards (blockchain s')).
Proof.
  destruct sample_mine_succeeds as (b & s' & w' & H).
  exists b, s', w'. split; [exact H |].
  apply (total_supply_is_sum_of_rewards zero_digest blank_fmt).
  eapply reachable_mine; [apply reachable_init | exact H].
Defined.

Lemma mined_reward_saturates_witness :
  exists b s' w',
    mine_block zero_digest blank_fmt 1 0 sample_wallet sample_proof
               (qxc_init zero_digest blank_fmt 0)
    = Mined b s' w' /\
    0 <= reward_amount (ai_mining_data b).
Proof.
  destruct sample_mine_succeeds as (b & s' & w' & H).
  exists b, s', w'. split; [exact H |].
  exact (proj1 (mined_reward_saturates zero_digest blank_fmt
                  _ _ _ _ _ _ _ _ (reachable_init _ _ 0) H)).
Defined.

Lemma mined_reward_uses_default_multiplier_witness :
  exists b s' w',
    mine_block zero_digest blank_fmt 1 0 sample_wallet sample_proof
               (qxc_init zero_digest blank_fmt 0)
    = Mined b s' w' /\
    mining_type (ai_mining_data b) = 0%Z.
Proof.
  destruct sample_mine_succeeds as (b & s' & w' & H).
  exists b, s', w'. split; [exact H |].
  exact (proj1 (mined_reward_uses_default_multiplier zero_digest blank_fmt
                  _ _ _ _ _ _ _ _ H)).
Defined.

Lemma reachable_balance_is_mined_rewards_witness :
  exists b s' w',
    mine_block zero_digest blank_fmt 1 0 sample_wallet sample_proof
               (qxc_init zero_digest blank_fmt 0)
    = Mined b s' w' /\
    get_wallet_balance (blockchain s') (address sample_wallet)
    = reward_credits (blockchain s') (address sample_wallet) /\
    0 <= get_wallet_balance (blockchain s') (address sample_wallet)
      <= total_supply s'.
Proof.
  destruct sample_mine_succeeds as (b & s' & w' & H).
  exists b, s', w'. split; [exact H |].
  apply (reachable_balance_is_mined_rewards zero_digest blank_fmt s').
  eapply reachable_mine; [apply reachable_init | exact H].
Defined.

(** A wallet of create_wallet's kind mines a block for the claim
    ["model"]: the block is claimed by the address followed by
    ["model"], and the derived balance of the address stays 0. *)
Lemma mine_block_credits_claimant_witness :
  exists b s' w',
    mine_block zero_digest blank_fmt 1 0 hex_wallet sample_proof
               (qxc_init zero_digest blank_fmt 0)
    = Mined b s' w' /\
    developer_id (ai_mining_data b) = (hex_address ++ "model")%string /\
    get_wallet_balance (blockchain s') hex_address
    = get_wallet_balance (blockchain (qxc_init zero_digest blank_fmt 0))
                         hex_address /\
    balance w' = balance hex_wallet + reward_amount (ai_mining_data b).
Proof.
  destruct (zero_digest_mines hex_wallet sample_proof sample_proof_admitted)
    as (b & s' & w' & H).
  exists b, s', w'. split; [exact H |].
  destruct (mine_block_credits_claimant zero_digest blank_fmt
              _ _ _ _ _ _ _ _ H) as (Hdev & _ & Hbal & _ & Hover).
  destruct (Hover eq_refl ltac:(discriminate)) as (Hclaim & Hsame & _).
  split; [rewrite Hdev; exact Hclaim |].
  split; [exact Hsame | exact Hbal].
Defined.

Lemma verify_blockchain_integrity_accepts_witness :
  verify_blockchain_integrity zero_digest blank_fmt
    (blockchain (qxc_init zero_digest blank_fmt 0))
  = (ChainVerified (u32 (Z.of_nat (Nat.pred 1))),
     blockchain (qxc_init zero_digest blank_fmt 0)).
Proof.
  apply (proj2 (verify_blockchain_integrity_accepts zero_digest blank_fmt
                  (blockchain (qxc_init zero_digest blank_fmt 0)))).
  reflexivity.
Defined.

(** Two genesis blocks in a row: the second does not point back at the
    first. *)
Lemma verify_blockchain_integrity_failure_persists_witness :
  let g := genesis_block zero_digest blank_fmt 0 in
  return_code
    (fst (verify_blockchain_integrity zero_digest blank_fmt
            (snd (verify_blockchain_integrity zero_digest blank_fmt [g; g]))))
  = 0%Z.
Proof.
  cbv zeta.
  apply (verify_blockchain_integrity_failure_persists zero_digest blank_fmt
           [genesis_block zero_digest blank_fmt 0;
            genesis_block zero_digest blank_fmt 0]).
  reflexivity.
Defined.

Lemma verify_blockchain_integrity_first_failure_witness :
  let g := genesis_block zero_digest blank_fmt 0 in
  fst (verify_blockchain_integrity zero_digest blank_fmt ([] ++ [g; g]))
  = HashMismatchAt (index g).
Proof.
  cbv zeta.
  apply (proj1 (verify_blockchain_integrity_first_failure
                  zero_digest blank_fmt []
                  (genesis_block zero_digest blank_fmt 0)
                  (genesis_block zero_digest blank_fmt 0) []
                  (Forall_nil _) I)).
  discriminate.
Defined.

Lemma process_transaction_repeats_witness :
  let l := mk_ledger (blockchain (qxc_init zero_digest blank_fmt 0))
                     (fun _ => 0) tt in
  let l3 := Nat.iter 3
              (fun l0 => snd (process_transaction (fun _ => true)
                                (fun _ _ c => c) sample_transfer l0)) l in
  fst (process_transaction (fun _ => true) (fun _ _ c => c)
                           sample_transfer l3) = true /\
  ledger_balances l3 "bob" = 0 - INR 3 * 0 + INR 3 * 1.
Proof.
  cbv zeta.
  destruct (process_transaction_repeats
              (fun _ => true) unit (fun _ _ c => c) sample_transfer
              (mk_ledger (blockchain (qxc_init zero_digest blank_fmt 0))
                         (fun _ => 0) tt)
              3 eq_refl) as (Hok & _ & Hbal).
  - change (ledger_chain _) with (blockchain (qxc_init zero_digest blank_fmt 0)).
    change (sender sample_transfer) with "QENEX_FOUNDATION".
    rewrite genesis_claimant_balance. simpl. lra.
  - split; [exact Hok | exact (Hbal "bob")].
Defined.

Lemma mallory_owns_nothing :
  get_wallet_balance (blockchain (qxc_init zero_digest blank_fmt 0)) "mallory"
  = 0.
Proof. unfold get_wallet_balance. cbn. lra. Qed.

Lemma process_transaction_accepts_negative_witness :
  let l := mk_ledger (blockchain (qxc_init zero_digest blank_fmt 0))
                     (fun _ => 0) tt in
  fst (process_transaction (fun _ => true) (fun _ _ c => c)
                           negative_transfer l) = true /\
  ledger_balances
    (snd (process_transaction (fun _ => true) (fun _ _ c => c)
                              negative_transfer l)) "bob"
  = 0 + -5.
Proof.
  cbv zeta.
  destruct (process_transaction_accepts_negative
              (fun _ => true) unit (fun _ _ c => c) negative_transfer
              (mk_ledger (blockchain (qxc_init zero_digest blank_fmt 0))
                         (fun _ => 0) tt)
              eq_refl) as (Hok & Hmove).
  - simpl. lra.
  - change (ledger_chain _) with (blockchain (qxc_init zero_digest blank_fmt 0)).
    change (sender negative_transfer) with "mallory".
    rewrite mallory_owns_nothing. lra.
  - split; [exact Hok |]. exact (proj1 (Hmove eq_refl)).
Defined.

Lemma get_wallet_balance_untouched_witness :
  get_wallet_balance [transfer_block] "carol" = 0.
Proof.
  apply (proj2 get_wallet_balance_untouched).
  repeat constructor; discriminate.
Defined.

Lemma balances_sum_to_rewards_minus_fees_witness :
  Rsum (map (get_wallet_balance [transfer_block])
            ["QENEX_FOUNDATION"; "bob"; "alice"])
  = Rsum (chain_rewards [transfer_block])
    - Rsum (map fee (all_transactions [transfer_block])).
Proof.
  apply balances_sum_to_rewards_minus_fees.
  - repeat constructor; simpl; intuition discriminate.
  - constructor; [simpl; tauto | constructor].
  - constructor; [simpl; tauto | constructor].
Defined.

Lemma mining_pool_owns_nothing :
  get_wallet_balance (blockchain (qxc_init zero_digest blank_fmt 0))
                     "MINING_POOL" = 0.
Proof. unfold get_wallet_balance. cbn. lra. Qed.

Lemma distribute_training_rewards_outcome_witness :
  let l := mk_ledger (blockchain (qxc_init zero_digest blank_fmt 0))
                     (fun _ => 0) tt in
  let '(ok, pool', l') :=
    distribute_training_rewards (fun _ => true) unit (fun _ _ c => c)
      (fun _ _ => 1) (fun _ _ => "miner") (fun tx => tx)
      (fun _ => 0%Z) (fun _ => sample_transfer) sample_pool l in
  ok = true /\ pending_rewards (rewards pool') = 0.
Proof.
  cbv zeta.
  pose proof (proj2 (distribute_training_rewards_outcome
                       (fun _ => true) unit (fun _ _ c => c)
                       (fun _ _ => 1) (fun _ _ => "miner") (fun tx => tx)
                       (fun _ => 0%Z) (fun _ => sample_transfer) sample_pool
                       (mk_ledger
                          (blockchain (qxc_init zero_digest blank_fmt 0))
                          (fun _ => 0) tt))) as H.
  cbv zeta in H.
  destruct (distribute_training_rewards _ _ _ _ _ _ _ _ _ _)
    as [[ok pool'] l'].
  destruct H as (H1 & H2 & _); [simpl; lra |]. split; assumption.
Defined.

Lemma distribute_training_rewards_unfunded_witness :
  let l := mk_ledger (blockchain (qxc_init zero_digest blank_fmt 0))
                     (fun _ => 0) tt in
  snd (distribute_training_rewards (fun _ => true) unit (fun _ _ c => c)
         (fun _ _ => 1) (fun _ _ => "miner") (fun tx => tx)
         (fun _ => 0%Z) (fun _ => sample_transfer) sample_pool l)
  = l.
Proof.
  cbv zeta.
  apply (distribute_training_rewards_unfunded
           (fun _ => true) unit (fun _ _ c => c)
           (fun _ _ => 1) (fun _ _ => "miner") (fun tx => tx)
           (fun _ => 0%Z) (fun _ => sample_transfer) sample_pool
           (mk_ledger (blockchain (qxc_init zero_digest blank_fmt 0))
                      (fun _ => 0) tt)).
  - simpl. lra.
  - intros i _. lra.
  - change (ledger_chain _) with (blockchain (qxc_init zero_digest blank_fmt 0)).
    rewrite mining_pool_owns_nothing. unfold TRANSACTION_FEE. lra.
Defined.

Lemma simulate_training_progress_bounds_witness :
  let slot' := fst (simulate_training_progress GLIBC_RAND_MAX 0 0 sample_slot
                      (mk_training_metrics 0 0 0 0)) in
  0.01 <= loss (task (slot_node slot')) /\
  0.94 * 10 <= loss (task (slot_node slot')) <= Rmax 0.01 (1.04 * 10).
Proof.
  cbv zeta.
  destruct (simulate_training_progress_bounds GLIBC_RAND_MAX 0 0 sample_slot
              (mk_training_metrics 0 0 0 0))
    as (H1 & _ & _ & _ & _ & _ & _ & H8).
  split; [exact H1 |].
  apply H8.
  - reflexivity.
  - unfold GLIBC_RAND_MAX. lia.
  - simpl. lra.
Defined.

Lemma improvement_claim_admission_witness :
  (confirmations
     (consensus (improvement_claim GLIBC_RAND_MAX trained_node 0.5 40 4 0 0))
   < 3)%Z.
Proof.
  apply (proj1 (improvement_claim_admission GLIBC_RAND_MAX trained_node
                  0.5 40 4 0 0 eq_refl
                  ltac:(unfold GLIBC_RAND_MAX; lia) ltac:(lia) ltac:(lra))).
  left. reflexivity.
Defined.

(** With one active node the claim of [trained_node] is admitted and, under
    the all-zero digest, mined at once. *)
Lemma sample_check_returns :
  exists node' ts' s',
    check_and_reward_improvement zero_digest blank_fmt (fun v => v)
      GLIBC_RAND_MAX 1 0 0 0 trained_node (sample_system 1)
      (qxc_init zero_digest blank_fmt 0)
    = Some (node', ts', s').
Proof.
  unfold check_and_reward_improvement.
  change (find_model (repository (sample_system 1))
            (task_model_id (task trained_node))) with (Some 0%nat).
  cbv beta iota zeta.
  change (best_accuracy (repository (sample_system 1)) 0) with 0.5.
  change (accuracy (task trained_node)) with 0.9.
  replace (Rgtb ((0.9 - 0.5) * 100.0) 1.0) with true
    by (symmetry; apply Rgtb_true; lra).
  unfold submit_ai_improvement. cbv beta zeta.
  change (3 <=? _)%Z with true. cbn [snd].
  match goal with
  | |- context [mine_block _ _ _ _ ?w ?c _] =>
      destruct (zero_digest_mines w c) as (b & s' & w' & Hm)
  end.
  - apply verify_ai_improvement_true_iff.
    unfold improvement_claim.
    cbn [improvement_percentage consensus confirmations consensus_score
         metrics f1_score task trained_node accuracy active_nodes
         sample_system].
    change (3 <? 1)%Z with false. cbv iota.
    unfold GLIBC_RAND_MAX.
    repeat match goal with |- _ /\ _ => split end; try lra; lia.
  - rewrite Hm. do 3 eexists. reflexivity.
Qed.

(** The same with the wallet of [hex_node]; the call appends a block. *)
Lemma hex_check_returns :
  exists node' ts' s' b,
    check_and_reward_improvement zero_digest blank_fmt (fun v => v)
      GLIBC_RAND_MAX 1 0 0 0 hex_node (sample_system 1)
      (qxc_init zero_digest blank_fmt 0)
    = Some (node', ts', s') /\
    blockchain s' = blockchain (qxc_init zero_digest blank_fmt 0) ++ [b].
Proof.
  unfold check_and_reward_improvement.
  change (find_model (repository (sample_system 1))
            (task_model_id (task hex_node))) with (Some 0%nat).
  cbv beta iota zeta.
  change (best_accuracy (repository (sample_system 1)) 0) with 0.5.
  change (accuracy (task hex_node)) with 0.9.
  replace (Rgtb ((0.9 - 0.5) * 100.0) 1.0) with true
    by (symmetry; apply Rgtb_true; lra).
  unfold submit_ai_improvement. cbv beta zeta.
  change (3 <=? _)%Z with true. cbn [snd].
  match goal with
  | |- context [mine_block _ _ _ _ ?w ?c _] =>
      destruct (zero_digest_mines w c) as (b & s' & w' & Hm)
  end.
  - apply verify_ai_improvement_true_iff.
    unfold improvement_claim.
    cbn [improvement_percentage consensus confirmations consensus_score
         metrics f1_score task hex_node accuracy active_nodes
         sample_system].
    change (3 <? 1)%Z with false. cbv iota.
    unfold GLIBC_RAND_MAX.
    repeat match goal with |- _ /\ _ => split end; try lra; lia.
  - rewrite Hm.
    destruct (mine_block_mined _ _ _ _ _ _ _ _ _ _ Hm)
      as (tail & _ & _ & _ & _ & _ & _ & _ & _ & Hs' & _).
    eexists _, _, s', b. split; [reflexivity |].
    rewrite Hs'. reflexivity.
Qed.

(** A node whose wallet is of create_wallet's kind: the call appends a
    block claimed by the address followed by the model identifier, and
    [total_qxc_mined] holds the derived balance the address had on the
    genesis chain. *)
Lemma check_and_reward_improvement_effect_witness :
  exists node' ts' s' b,
    check_and_reward_improvement zero_digest blank_fmt (fun v => v)
      GLIBC_RAND_MAX 1 0 0 0 hex_node (sample_system 1)
      (qxc_init zero_digest blank_fmt 0)
    = Some (node', ts', s') /\
    blockchain s' = blockchain (qxc_init zero_digest blank_fmt 0) ++ [b] /\
    developer_id (ai_mining_data b)
    = (hex_address ++ "mlp_classifier_0")%string /\
    total_qxc_mined (system_metrics ts')
    = get_wallet_balance
        (blockchain (qxc_init zero_digest blank_fmt 0)) hex_address.
Proof.
  destruct hex_check_returns as (node' & ts' & s' & b0 & H & Hgrown).
  destruct (check_and_reward_improvement_effect _ _ _ _ _ _ _ _ _ _ _ _ _ _ H)
    as [Hsame | (idx & b & _ & _ & Hchain & Hdev & _ & _ & _ & _ & Hover)].
  - exfalso. injection Hsame as _ _ Hs. rewrite Hs in Hgrown.
    apply (f_equal (@List.length block_t)) in Hgrown.
    simpl in Hgrown. discriminate Hgrown.
  - exists node', ts', s', b. split; [exact H |].
    split; [exact Hchain |]. split; [exact Hdev |].
    exact (proj2 (Hover eq_refl ltac:(discriminate))).
Defined.

Lemma best_accuracy_never_decreases_witness :
  exists node' ts' s',
    check_and_reward_improvement zero_digest blank_fmt (fun v => v)
      GLIBC_RAND_MAX 1 0 0 0 trained_node (sample_system 1)
      (qxc_init zero_digest blank_fmt 0)
    = Some (node', ts', s') /\
    0.5 <= best_accuracy (repository ts') 0.
Proof.
  destruct sample_check_returns as (node' & ts' & s' & H).
  exists node', ts', s'. split; [exact H |].
  exact (proj2 (best_accuracy_never_decreases _ _ _ _ _ _ _ _ _ _ _ _ _ _ H)
               0%nat).
Defined.

Lemma check_and_reward_improvement_noop_witness :
  check_and_reward_improvement zero_digest blank_fmt (fun v => v)
    GLIBC_RAND_MAX 1 0 0 0 trained_node (sample_system 4)
    (qxc_init zero_digest blank_fmt 0)
  = Some (trained_node, sample_system 4, qxc_init zero_digest blank_fmt 0).
Proof.
  apply (proj2 (proj2 (check_and_reward_improvement_noop
                         zero_digest blank_fmt (fun v => v) GLIBC_RAND_MAX
                         1 0 0 0 trained_node (sample_system 4)
                         (qxc_init zero_digest blank_fmt 0)))).
  - intro v. reflexivity.
  - left. reflexivity.
Defined.

Lemma assign_training_task_effect_witness :
  (List.length
     (repository (snd (assign_training_task 7 0 sample_slot empty_registry)))
   <= REPOSITORY_CAPACITY)%nat /\
  find_model
    (repository (snd (assign_training_task 7 0 sample_slot empty_registry)))
    (task_model_id
       (task (slot_node
                (fst (assign_training_task 7 0 sample_slot empty_registry)))))
  <> None.
Proof.
  destruct (assign_training_task_effect 7 0 sample_slot empty_registry)
    as (_ & _ & Hcap & _ & Hfound).
  split.
  - apply Hcap. simpl. unfold REPOSITORY_CAPACITY. lia.
  - apply Hfound. simpl. unfold REPOSITORY_CAPACITY. lia.
Defined.

Lemma add_training_node_effect_witness :
  fst (add_training_node plain_address 7 0 "KERNEL_NODE" "127.0.0.1"
                         empty_registry) = true /\
  active_nodes
    (snd (add_training_node plain_address 7 0 "KERNEL_NODE" "127.0.0.1"
                            empty_registry)) = u32 (0 + 1).
Proof.
  destruct (proj2 (add_training_node_effect plain_address 7 0
                     "KERNEL_NODE" "127.0.0.1" empty_registry eq_refl)
              0%nat zero_slot eq_refl eq_refl) as (Hok & Hact & _).
  - intros j slot Hj. lia.
  - split; [exact Hok | exact Hact].
Defined.

Lemma sync_node_effect_witness :
  exists slot' ts' s',
    sync_node zero_digest blank_fmt (fun v => v) GLIBC_RAND_MAX
      1 0 0 0 0 0 0 0 sample_slot (sample_system 1)
      (qxc_init zero_digest blank_fmt 0)
    = Some (slot', ts', s') /\
    (current_epoch (task (slot_node slot'))
     < total_epochs (task (slot_node slot')))%Z.
Proof.
  do 3 eexists. split.
  - reflexivity.
  - refine (proj1 (proj2 (sync_node_effect zero_digest blank_fmt (fun v => v)
                            GLIBC_RAND_MAX 1 0 0 0 0 0 0 0 sample_slot
                            (sample_system 1)
                            (qxc_init zero_digest blank_fmt 0)
                            _ _ _ eq_refl)) _).
    discriminate.
Defined.

Lemma detect_memory_optimization_admitted_witness :
  verify_ai_improvement
    (snd (detect_memory_optimization 5000 0 sample_proof)) = true.
Proof.
  pose proof (detect_memory_optimization_admitted 5000 0 sample_proof
                ltac:(lia) ltac:(simpl; lia) ltac:(simpl; lia)) as H.
  destruct (detect_memory_optimization 5000 0 sample_proof)
    as [[fired prev'] claim] eqn:E.
  destruct H as (Hf & Hadm & _).
  apply Hadm. apply Hf. lia.
Defined.

Lemma detect_efficiency_admission_witness :
  detect_performance_improvement sample_stats 0 sample_proof
  = (false, cpu_efficiency sample_stats * memory_efficiency sample_stats,
     sample_proof).
Proof.
  apply (proj1 (detect_efficiency_admission sample_stats 0 0.7 0.5
                  sample_proof)).
  reflexivity.
Defined.
